(** * MacInventory: discovery merge and backup pipeline

    A shallow embedding of the security-relevant core of MacInventory
    (python/utils/path_safety.py, python/backup/security.py,
    python/backup/config_backup.py, python/discovery/config_filter.py,
    python/discovery/hints.py, python/discovery/conventions.py and
    python/discovery/merge.py) together with the properties its
    specification states about it.

    Conventions of the embedding
    - Python [str] is [string]; characters are bytes (ASCII), so
      [str.lower] is the ASCII lowering.
    - [pathlib.Path] is a record of an anchor flag and the list of
      components (POSIX flavour, the target platform being macOS).
    - The filesystem is a finite map from rendered absolute paths to nodes;
      operations that Python lets fail with [OSError] consult a fault
      oracle carried by the filesystem.
    - Python dictionaries whose iteration order is observable are
      insertion-ordered association lists.
    - The regular-expression engine ([re]), [fnmatch] and symlink
      resolution ([Path.resolve]) belong to the Python runtime, not to the
      repository: they are parameters of the development, instantiated by
      small executable engines for the worked examples. *)

From Stdlib Require Import String Ascii List ZArith Lia Bool Permutation Sorted.
From stdpp Require Import gmap strings list.
Import ListNotations.
Open Scope string_scope.
Open Scope list_scope.

(** ** Strings *)

Section Strings.

Definition is_upper (c : ascii) : bool :=
  (65 <=? nat_of_ascii c)%nat && (nat_of_ascii c <=? 90)%nat.

Definition lower_ascii (c : ascii) : ascii :=
  if is_upper c then ascii_of_nat (nat_of_ascii c + 32) else c.

(** [str.lower] *)
Fixpoint lower (s : string) : string :=
  match s with
  | EmptyString => EmptyString
  | String c s' => String (lower_ascii c) (lower s')
  end.

(** [needle in hay] *)
Fixpoint contains (needle hay : string) : bool :=
  String.prefix needle hay ||
  match hay with
  | EmptyString => false
  | String _ hay' => contains needle hay'
  end.

(** [s.startswith(p)] *)
Definition startswith (s p : string) : bool := String.prefix p s.

(** [s[:n]] and [s[n:]] for [0 <= n] *)
Fixpoint take (n : nat) (s : string) : string :=
  match n, s with
  | S n', String c s' => String c (take n' s')
  | _, _ => EmptyString
  end.

Fixpoint drop (n : nat) (s : string) : string :=
  match n, s with
  | S n', String _ s' => drop n' s'
  | _, _ => s
  end.

(** [s[-n:]] for [0 < n] *)
Definition take_last (n : nat) (s : string) : string :=
  drop (String.length s - n) s.

(** [s.count(c)] for a one-character [c] *)
Fixpoint count_char (c : ascii) (s : string) : nat :=
  match s with
  | EmptyString => 0
  | String d s' => (if Ascii.eqb c d then 1 else 0) + count_char c s'
  end.

Definition newline : ascii := ascii_of_nat 10.

(** [s.rstrip('/')] *)
Fixpoint rstrip_slash (s : string) : string :=
  match s with
  | EmptyString => EmptyString
  | String c s' =>
      match rstrip_slash s' with
      | EmptyString => if Ascii.eqb c "/" then EmptyString else String c EmptyString
      | r => String c r
      end
  end.

(** [s.split(sep)] for a one-character separator: never empty, one more
    field than there are separators. *)
Fixpoint split_on (sep : ascii) (s : string) : list string :=
  match s with
  | EmptyString => [EmptyString]
  | String c s' =>
      if Ascii.eqb c sep then EmptyString :: split_on sep s'
      else match split_on sep s' with
           | [] => [String c EmptyString]
           | f :: fs => String c f :: fs
           end
  end.

(** [sep.join(parts)] *)
Definition join (sep : string) (l : list string) : string := String.concat sep l.

(** [s.rfind('.')], as an option *)
Fixpoint rfind_dot (s : string) : option nat :=
  match s with
  | EmptyString => None
  | String c s' =>
      match rfind_dot s' with
      | Some i => Some (S i)
      | None => if Ascii.eqb c "." then Some 0 else None
      end
  end.

(** [x in l] for a list of strings *)
Definition mem (x : string) (l : list string) : bool :=
  existsb (String.eqb x) l.

End Strings.

(** ** Secret redaction (backup/security.py, class SecretFilter) *)

(** [SecretFilter._truncate_secret(value, max_len=20)] *)
Definition truncate_secret_len (value : string) (max_len : nat) : string :=
  if (String.length value <=? max_len)%nat then
    (if (8 <? String.length value)%nat then take 4 value +:+ "..." else "...")
  else take 8 value +:+ "..." +:+ take_last 4 value.

Definition truncate_secret (value : string) : string :=
  truncate_secret_len value 20.

(** The truncation as the specification words it: first 8 characters, an
    ellipsis and the last 4 characters above the threshold, a generic
    placeholder otherwise. *)
Definition spec_truncate (value : string) : string :=
  if (20 <? String.length value)%nat
  then take 8 value +:+ "..." +:+ take_last 4 value
  else "...".

(** A match object of [re]: the span [start, end) of group 0. *)
Record Match := { m_start : nat; m_end : nat }.

(** [match.group()] on the searched text *)
Definition group (m : Match) (text : string) : string :=
  take (m_end m - m_start m) (drop (m_start m) text).

(** The part of Python's [re] module the filter relies on: compiled
    patterns, [pattern.finditer(text)] (the non-overlapping matches, left
    to right) and [pattern.sub(replacement, text)]. *)
Class RegexEngine := {
  Pattern : Type;
  re_finditer : Pattern -> string -> list Match;
  re_sub : Pattern -> string -> string -> string
}.

(** One entry of the change ledger. *)
Record Change := {
  c_pattern : string;
  c_original : string;
  c_line : nat;
  c_filename : option string
}.

Section SecretFilter.
Context {RE : RegexEngine}.

(** An element of [compiled_patterns]: (name, compiled pattern, replacement) *)
Definition Rule : Type := string * Pattern * string.

(** The body of the inner loop of [filter_content]: the Change appended
    for one match found in the current text. *)
Definition change_of (name : string) (filtered : string)
    (filename : option string) (m : Match) : Change :=
  let line_num := count_char newline (take (m_start m) filtered) + 1 in
  let original := group m filtered in
  let truncated := truncate_secret original in
  {| c_pattern := name; c_original := truncated;
     c_line := line_num; c_filename := filename |}.

(** One iteration of the outer loop: log every match, then substitute. *)
Definition filter_step (filename : option string)
    (st : string * list Change) (rule : Rule) : string * list Change :=
  let '(filtered, changes) := st in
  let '(name, pattern, replacement) := rule in
  let changes' :=
    fold_left (fun acc m => acc ++ [change_of name filtered filename m])
              (re_finditer pattern filtered) changes in
  (re_sub pattern replacement filtered, changes').

(** [SecretFilter.filter_content(content, filename)] *)
Definition filter_content (compiled_patterns : list Rule) (content : string)
    (filename : option string) : string * list Change :=
  fold_left (filter_step filename) compiled_patterns (content, []).

End SecretFilter.

(** *** A small executable engine for the worked examples

    A pattern is a literal prefix followed by a greedy run of at least
    [lr_min] characters of a class, e.g. [sk-[A-Za-z0-9]{20,}]. *)

Record LitRun := {
  lr_prefix : string;
  lr_class : ascii -> bool;
  lr_min : nat
}.

Fixpoint span_len (cls : ascii -> bool) (s : string) : nat :=
  match s with
  | String c s' => if cls c then S (span_len cls s') else 0
  | EmptyString => 0
  end.

Definition match_at (p : LitRun) (s : string) : option nat :=
  if String.prefix (lr_prefix p) s then
    let run := span_len (lr_class p) (drop (String.length (lr_prefix p)) s) in
    if (lr_min p <=? run)%nat then Some (String.length (lr_prefix p) + run)
    else None
  else None.

Fixpoint scan (p : LitRun) (pos skip : nat) (s : string) : list Match :=
  match s with
  | EmptyString => []
  | String _ s' =>
      match skip with
      | S k => scan p (S pos) k s'
      | O =>
          match match_at p s with
          | Some (S len) =>
              {| m_start := pos; m_end := pos + S len |} :: scan p (S pos) len s'
          | _ => scan p (S pos) 0 s'
          end
      end
  end.

Fixpoint splice (repl : string) (ms : list Match) (pos : nat) (s : string) : string :=
  match ms with
  | [] => drop pos s
  | m :: ms' =>
      take (m_start m - pos) (drop pos s) +:+ repl +:+ splice repl ms' (m_end m) s
  end.

Definition litrun_engine : RegexEngine := {|
  Pattern := LitRun;
  re_finditer := fun p s => scan p 0 0 s;
  re_sub := fun p repl s => splice repl (scan p 0 0 s) 0 s
|}.

Definition is_alnum (c : ascii) : bool :=
  let n := nat_of_ascii c in
  ((48 <=? n) && (n <=? 57) || (65 <=? n) && (n <=? 90) || (97 <=? n) && (n <=? 122))%nat.

Definition openai_rule : @Rule litrun_engine :=
  ("openai_key",
   {| lr_prefix := "sk-"; lr_class := is_alnum; lr_min := 20 |},
   "<REDACTED_OPENAI_KEY>").

Definition key_word_rule : @Rule litrun_engine :=
  ("key_word",
   {| lr_prefix := "KEY"; lr_class := fun _ => false; lr_min := 0 |},
   "<K>").

Definition sample_line : string :=
  "export OPENAI_API_KEY=sk-1234567890abcdefghijklmnopqrstuvwxyz1234567890AB".

(** ** Paths ([pathlib.PurePosixPath]) *)

(** A path is its anchor (is there a root?) and its components; parsing
    drops empty and [.] components, as pathlib does. *)
Record Path := { anchored : bool; parts : list string }.

Definition parse_path (s : string) : Path :=
  {| anchored := startswith s "/";
     parts := List.filter (fun c => negb (String.eqb c "") && negb (String.eqb c "."))
                          (split_on "/" s) |}.

(** [str(path)] *)
Definition path_str (p : Path) : string :=
  if anchored p then "/" +:+ join "/" (parts p)
  else match parts p with
       | [] => "."
       | _ => join "/" (parts p)
       end.

Definition is_absolute (p : Path) : bool := anchored p.

(** [base / rel] *)
Definition joinpath (base rel : Path) : Path :=
  if anchored rel then rel
  else {| anchored := anchored base; parts := parts base ++ parts rel |}.

(** [path.name] *)
Definition name (p : Path) : string := List.last (parts p) "".

(** [path.suffix]: from the last dot of the name, unless that dot is the
    first or the last character. *)
Definition suffix (p : Path) : string :=
  let n := name p in
  match rfind_dot n with
  | Some i => if (0 <? i)%nat && (i <? String.length n - 1)%nat then drop i n else ""
  | None => ""
  end.

(** [path.parent] *)
Definition parent (p : Path) : Path :=
  {| anchored := anchored p; parts := removelast (parts p) |}.

Fixpoint list_prefix (a b : list string) : bool :=
  match a, b with
  | [], _ => true
  | x :: a', y :: b' => String.eqb x y && list_prefix a' b'
  | _ :: _, [] => false
  end.

(** [dest.relative_to(base)] succeeds (no [ValueError]) *)
Definition is_relative_to (dest base : Path) : bool :=
  Bool.eqb (anchored dest) (anchored base) && list_prefix (parts base) (parts dest).

(** ** The filesystem as the read-only code sees it

    [v_size] is [path.stat().st_size], [None] standing for [OSError];
    [v_resolve] is the non-strict [Path.resolve()], which follows symlinks
    and makes the path absolute (it does not raise here, so the
    [except OSError] fallback of [_normalize_path_for_dedup] is never
    taken). *)
Record FsView := {
  v_exists : Path -> bool;
  v_is_file : Path -> bool;
  v_is_dir : Path -> bool;
  v_size : Path -> option Z;
  v_resolve : Path -> Path
}.

(** ** Path safety (utils/path_safety.py) *)

(** [validate_relative_path(rel_path)] *)
Definition validate_relative_path (rel_path : string) : bool :=
  let path := parse_path rel_path in
  if is_absolute path then false
  else if mem ".." (parts path) then false
  else true.

(** [PathTraversalError], with the two messages [safe_join] raises:
    [f"Invalid relative path: {relative}"] and
    [f"Path traversal detected: {relative} escapes {base}"]. *)
Inductive PathTraversalError :=
| InvalidRelativePath (relative : string)
| PathTraversalDetected (relative : string) (base : Path).

Definition error_str (e : PathTraversalError) : string :=
  match e with
  | InvalidRelativePath relative => "Invalid relative path: " +:+ relative
  | PathTraversalDetected relative base =>
      "Path traversal detected: " +:+ relative +:+ " escapes " +:+ path_str base
  end.

(** [safe_join(base, relative)]: [inl] is the raised [PathTraversalError],
    [inr] the returned destination.  It only reads the filesystem. *)
Definition safe_join (fs : FsView) (base : Path) (relative : string)
  : PathTraversalError + Path :=
  if negb (validate_relative_path relative) then
    inl (InvalidRelativePath relative)
  else
    let base_resolved := v_resolve fs base in
    let dest := v_resolve fs (joinpath base (parse_path relative)) in
    if is_relative_to dest base_resolved then inr dest
    else inl (PathTraversalDetected relative base).

(** ** Exclusion policy (backup/security.py) *)

Definition DEFAULT_MAX_FILE_SIZE_MB : Z := 10.

(** [fnmatch.fnmatch(name, pattern)] of the Python runtime *)
Class Fnmatch := { fnmatch : string -> string -> bool }.

(** The reason strings of the policy.  Messages that interpolate a
    formatted float are kept structured:
    - [MatchesExcludedPattern p]: [f"Matches excluded pattern: {p}"]
    - [FileTooLarge size max]: [f"File too large: {size_mb:.1f}MB > {max}MB"]
    - [CannotCheckSize]: [f"Cannot check size: {e}"]
    - [ExcludedExtension s]: [f"Excluded extension: {s}"]
    - [MatchesExcludeFiles p]: [f"Matches exclude_files: {p}"]
    - [MatchesExcludeByExtension p], [MatchesExcludeByPattern p],
      [MatchesExcludeDirectories p]: likewise
    - [ParentDirectoryExcluded r]: [f"Parent directory excluded: {r}"] *)
Inductive ExclReason :=
| MatchesExcludedPattern (p : string)
| FileTooLarge (size_bytes : Z) (max_mb : Z)
| CannotCheckSize
| ExcludedExtension (s : string)
| MatchesExcludeFiles (p : string)
| MatchesExcludeByExtension (p : string)
| MatchesExcludeByPattern (p : string)
| MatchesExcludeDirectories (p : string)
| ParentDirectoryExcluded (r : ExclReason).

Definition cache_patterns : list string :=
  ["/cache/"; "/caches/"; "/.cache/";
   "/logs/"; "/log/";
   "/crashpad/"; "/crashreporter/";
   "/temp/"; "/tmp/"].

Definition excluded_extensions : list string :=
  [".sqlite"; ".sqlite3"; ".db";
   ".dylib"; ".so"; ".dll"; ".exe";
   ".sqlite-wal"; ".sqlite-shm"].

(** [size_mb > max_mb] where [size_mb = st_size / (1024 * 1024)]; the
    limit is configured in whole megabytes. *)
Definition too_large (st_size max_mb : Z) : bool :=
  (max_mb * (1024 * 1024) <? st_size)%Z.

(** [is_pure_config(path, max_size_mb)]; on acceptance Python returns the
    reason ["OK"], here [None]. *)
Definition is_pure_config (fs : FsView) (path : Path) (max_size_mb : Z)
  : bool * option ExclReason :=
  let path_str := lower (path_str path) in
  match List.find (fun pattern => contains pattern path_str) cache_patterns with
  | Some pattern => (false, Some (MatchesExcludedPattern pattern))
  | None =>
      let size_check :=
        if v_is_file fs path then
          match v_size fs path with
          | Some st_size =>
              if too_large st_size max_size_mb
              then Some (FileTooLarge st_size max_size_mb) else None
          | None => Some CannotCheckSize
          end
        else None in
      match size_check with
      | Some r => (false, Some r)
      | None =>
          if mem (lower (suffix path)) excluded_extensions
          then (false, Some (ExcludedExtension (suffix path)))
          else (true, None)
      end
  end.

(** The parsed security-patterns.yaml, as the checker reads it. *)
Record SecurityPatterns := {
  exclude_files : list string;
  exclude_directories : list string;
  exclude_apps : list string;
  exclude_by_pattern : list string;
  exclude_by_extension : list string;
  exclude_by_size_max_mb : option Z
}.

(** [ExclusionChecker.max_file_size_mb] *)
Definition max_file_size_mb (p : SecurityPatterns) : Z :=
  match exclude_by_size_max_mb p with
  | Some m => m
  | None => DEFAULT_MAX_FILE_SIZE_MB
  end.

(** [s.replace('*', '')] *)
Fixpoint remove_stars (s : string) : string :=
  match s with
  | EmptyString => EmptyString
  | String c s' => if Ascii.eqb c "*" then remove_stars s' else String c (remove_stars s')
  end.

Section ExclusionChecker.
Context {FN : Fnmatch}.
Variable fs : FsView.
Variable pats : SecurityPatterns.

(** [ExclusionChecker.should_exclude_file(file_path)] *)
Definition should_exclude_file (file_path : Path) : bool * option ExclReason :=
  let filename := name file_path in
  let path_str := path_str file_path in
  match List.find (fun pattern =>
           fnmatch filename pattern ||
           (contains "/" pattern && fnmatch path_str ("*" +:+ pattern +:+ "*")))
         (exclude_files pats) with
  | Some pattern => (true, Some (MatchesExcludeFiles pattern))
  | None =>
  match List.find (fun ext_pattern => fnmatch filename ext_pattern)
         (exclude_by_extension pats) with
  | Some ext_pattern => (true, Some (MatchesExcludeByExtension ext_pattern))
  | None =>
  match List.find (fun glob_pattern => fnmatch path_str glob_pattern)
         (exclude_by_pattern pats) with
  | Some glob_pattern => (true, Some (MatchesExcludeByPattern glob_pattern))
  | None =>
      if v_exists fs file_path && v_is_file fs file_path then
        match v_size fs file_path with
        | Some st_size =>
            if too_large st_size (max_file_size_mb pats)
            then (true, Some (FileTooLarge st_size (max_file_size_mb pats)))
            else (false, None)
        | None => (false, None)
        end
      else (false, None)
  end end end.

(** [ExclusionChecker.should_exclude_directory(dir_path)] *)
Definition should_exclude_directory (dir_path : Path) : bool * option ExclReason :=
  let dirname := name dir_path in
  let path_str := path_str dir_path in
  match List.find (fun pattern =>
           let clean_pattern := rstrip_slash pattern in
           fnmatch dirname clean_pattern ||
           (fnmatch dirname (remove_stars clean_pattern) && contains "*" clean_pattern))
         (exclude_directories pats) with
  | Some pattern => (true, Some (MatchesExcludeDirectories pattern))
  | None =>
  match List.find (fun glob_pattern =>
           fnmatch path_str glob_pattern || fnmatch (path_str +:+ "/") glob_pattern)
         (exclude_by_pattern pats) with
  | Some glob_pattern => (true, Some (MatchesExcludeByPattern glob_pattern))
  | None => (false, None)
  end end.

(** The [while current != current.parent] loop of
    [is_path_in_excluded_directory], on the reversed components of
    [current]: it stops at the root (or at [.]), whose parent is itself. *)
Fixpoint walk_up (anch : bool) (rev_parts : list string) : bool * option ExclReason :=
  match rev_parts with
  | [] => (false, None)
  | _ :: up =>
      let '(excluded, reason) :=
        should_exclude_directory {| anchored := anch; parts := rev rev_parts |} in
      if excluded then (true, option_map ParentDirectoryExcluded reason)
      else walk_up anch up
  end.

(** [ExclusionChecker.is_path_in_excluded_directory(file_path)] *)
Definition is_path_in_excluded_directory (file_path : Path) : bool * option ExclReason :=
  let current := if v_is_dir fs file_path then file_path else parent file_path in
  walk_up (anchored current) (rev (parts current)).

(** [SecurityManager.can_backup(path)] *)
Definition can_backup (path : Path) : bool * option ExclReason :=
  let '(is_config, reason) := is_pure_config fs path (max_file_size_mb pats) in
  if negb is_config then (false, reason)
  else
    let file_check :=
      if v_is_file fs path then should_exclude_file path else (false, None) in
    if fst file_check then (false, snd file_check)
    else
      let dir_check :=
        if v_is_dir fs path then should_exclude_directory path else (false, None) in
      if fst dir_check then (false, snd dir_check)
      else
        let '(excluded, reason) := is_path_in_excluded_directory path in
        if excluded then (false, reason) else (true, None).

End ExclusionChecker.

(** *** An executable glob matcher for the worked examples: [*] matches
    any run of characters, [?] one character, anything else itself. *)
Fixpoint glob (pattern s : string) : bool :=
  match pattern with
  | EmptyString => match s with EmptyString => true | _ => false end
  | String p pattern' =>
      if Ascii.eqb p "*" then
        (fix star (s : string) : bool :=
           glob pattern' s ||
           match s with
           | EmptyString => false
           | String _ s' => star s'
           end) s
      else
        match s with
        | EmptyString => false
        | String c s' => (Ascii.eqb p "?" || Ascii.eqb p c) && glob pattern' s'
        end
  end.

Definition glob_fnmatch : Fnmatch := {| fnmatch := fun name pattern => glob pattern name |}.

(** ** Configuration type filter (discovery/config_filter.py) *)

(** The parsed config-patterns.yaml: a mapping whose absent keys read as
    empty ([dict.get] with a default). *)
Record PatternsDoc := {
  pd_safe_extensions : list (string * list string);
  pd_hard_exclude_extensions : list string;
  pd_safe_filenames : list string;
  pd_safe_directories : list string;
  pd_hard_exclude_patterns : list string;
  pd_max_file_size_bytes : option Z
}.

(** The empty mapping [{}] *)
Definition empty_doc : PatternsDoc :=
  {| pd_safe_extensions := []; pd_hard_exclude_extensions := [];
     pd_safe_filenames := []; pd_safe_directories := [];
     pd_hard_exclude_patterns := []; pd_max_file_size_bytes := None |}.

(** The minimal defaults written out in [_load_patterns] *)
Definition minimal_defaults : PatternsDoc :=
  {| pd_safe_extensions := [("text_configs", [".json"; ".yaml"; ".yml"; ".toml"; ".plist"])];
     pd_hard_exclude_extensions := [".dylib"; ".so"; ".sqlite"; ".db"];
     pd_safe_filenames := []; pd_safe_directories := [];
     pd_hard_exclude_patterns := ["**/Cache/**"; "**/Logs/**"];
     pd_max_file_size_bytes := Some 1048576%Z |}.

(** What [_load_patterns] can find at [patterns_path]: no file, a file
    that cannot be opened ([OSError]), a file that is not YAML
    ([yaml.YAMLError]), or a mapping ([None] for an empty document, for
    which [yaml.safe_load] returns [None]). *)
Inductive PatternsFile :=
| PFMissing
| PFUnreadable
| PFMalformed
| PFLoaded (doc : option PatternsDoc).

(** [ConfigFilter._load_patterns()]: the value left in [self._patterns] *)
Definition load_patterns (f : PatternsFile) : PatternsDoc :=
  match f with
  | PFLoaded (Some doc) => doc
  | PFLoaded None => empty_doc
  | PFMissing => minimal_defaults
  | PFUnreadable | PFMalformed => empty_doc
  end.

(** The lookup sets of a constructed [ConfigFilter] *)
Record ConfigFilter := {
  cf_safe_extensions : gset string;
  cf_hard_exclude_extensions : gset string;
  cf_safe_filenames : gset string;
  cf_safe_directories : gset string;
  cf_hard_exclude_patterns : list string;
  cf_max_file_size : Z
}.

(** Extension normalisation: lower case, leading dot *)
Definition normalize_ext (ext : string) : string :=
  let ext := lower ext in
  if negb (startswith ext ".") then "." +:+ ext else ext.

(** [ConfigFilter._build_lookup_sets()] *)
Definition build_lookup_sets (patterns : PatternsDoc) : ConfigFilter :=
  {| cf_safe_extensions :=
       fold_left (fun acc category =>
                    fold_left (fun acc ext => acc ∪ {[ normalize_ext ext ]})
                              (snd category) acc)
                 (pd_safe_extensions patterns) ∅;
     cf_hard_exclude_extensions :=
       fold_left (fun acc ext => acc ∪ {[ normalize_ext ext ]})
                 (pd_hard_exclude_extensions patterns) ∅;
     cf_safe_filenames :=
       fold_left (fun acc n => acc ∪ {[ lower n ]}) (pd_safe_filenames patterns) ∅;
     cf_safe_directories :=
       fold_left (fun acc n => acc ∪ {[ lower n ]}) (pd_safe_directories patterns) ∅;
     cf_hard_exclude_patterns := pd_hard_exclude_patterns patterns;
     cf_max_file_size :=
       match pd_max_file_size_bytes patterns with
       | Some n => n
       | None => 1048576%Z
       end |}.

(** [ConfigFilter.__init__(patterns_path)] *)
Definition ConfigFilter_init (f : PatternsFile) : ConfigFilter :=
  build_lookup_sets (load_patterns f).

(** The reasons [is_config_file] and [is_config_directory] return, one
    constructor per f-string of the source. *)
Inductive FilterReason :=
| FileDoesNotExist
| NotAFile
| MatchesExcludePattern (pattern : string)
| InsideExcludedDirectory (part : string)
| HardExcludedExtension (suffix : string)
| FilterFileTooLarge (file_size max_size : Z)
| SafeFilename (filename : string)
| SafeExtension (suffix : string)
| DotfileSafeExtension (suffix : string)
| DotfileConfigPattern (filename : string)
| UnknownFileType (filename : string)
| DirectoryDoesNotExist
| NotADirectory
| ExcludedDirectoryType (part : string)
| SafeDirectory (dirname : string)
| AllowedDirectory (dirname : string).

Definition excluded_dirs : list string :=
  ["cache"; "caches"; "cacheddata";
   "log"; "logs";
   "build"; "buildx";
   "node_modules"; ".git";
   "bin"; "obj";
   "__pycache__";
   "blob_storage"; "indexeddb"; "webstorage";
   "workspacestorage"; "globalstorage";
   "local storage"; "session storage";
   "gpucache"; "shadercache";
   "crashpad"; "crashreporter";
   "models"; "mutagen"; "contexts"; "cloud";
   "desktop-build"; "refs"; "activity"].

Definition dotfile_patterns : list string :=
  ["rc"; "config"; "conf"; "profile"; "login"; "logout";
   "history"; "aliases"; "exports"; "functions"].

(** [s.replace('\\', '/')] *)
Fixpoint backslash_to_slash (s : string) : string :=
  match s with
  | EmptyString => EmptyString
  | String c s' =>
      String (if Ascii.eqb c (ascii_of_nat 92) then "/"%char else c)
             (backslash_to_slash s')
  end.

Section ConfigFilterChecks.
Context {FN : Fnmatch}.
Variable fs : FsView.
Variable cf : ConfigFilter.

(** [ConfigFilter._matches_exclude_pattern(path)] *)
Definition matches_exclude_pattern (path : Path) : option string :=
  let path_str := path_str path in
  List.find (fun pattern =>
          fnmatch path_str pattern || fnmatch (backslash_to_slash path_str) pattern)
       (cf_hard_exclude_patterns cf).

(** [ConfigFilter._is_in_excluded_directory(path)]; the root component of
    an absolute path is not an excluded name and is left out. *)
Definition is_in_excluded_directory (path : Path) : option string :=
  List.find (fun part => mem (lower part) excluded_dirs) (parts path).

(** [ConfigFilter.is_config_file(path)] *)
Definition is_config_file (path : Path) : bool * FilterReason :=
  if negb (v_exists fs path) then (false, FileDoesNotExist)
  else if negb (v_is_file fs path) then (false, NotAFile)
  else
    let filename := lower (name path) in
    let suffix := lower (suffix path) in
    match matches_exclude_pattern path with
    | Some exclude_pattern => (false, MatchesExcludePattern exclude_pattern)
    | None =>
    match is_in_excluded_directory path with
    | Some excluded_dir => (false, InsideExcludedDirectory excluded_dir)
    | None =>
    if bool_decide (suffix ∈ cf_hard_exclude_extensions cf)
    then (false, HardExcludedExtension suffix)
    else
    match (match v_size fs path with
           | Some file_size =>
               if (cf_max_file_size cf <? file_size)%Z
               then Some (FilterFileTooLarge file_size (cf_max_file_size cf))
               else None
           | None => None
           end) with
    | Some r => (false, r)
    | None =>
    if bool_decide (filename ∈ cf_safe_filenames cf)
    then (true, SafeFilename filename)
    else if bool_decide (suffix ∈ cf_safe_extensions cf)
    then (true, SafeExtension suffix)
    else
      let dotfile :=
        if startswith filename "." && negb (startswith filename "..") then
          if bool_decide (suffix ∈ cf_safe_extensions cf)
          then Some (DotfileSafeExtension suffix)
          else if existsb (fun pattern => contains pattern filename) dotfile_patterns
          then Some (DotfileConfigPattern filename)
          else None
        else None in
      match dotfile with
      | Some r => (true, r)
      | None => (false, UnknownFileType filename)
      end
    end end end.

(** [ConfigFilter.is_config_directory(path)] *)
Definition is_config_directory (path : Path) : bool * FilterReason :=
  if negb (v_exists fs path) then (false, DirectoryDoesNotExist)
  else if negb (v_is_dir fs path) then (false, NotADirectory)
  else
    let dirname := lower (name path) in
    match matches_exclude_pattern path with
    | Some exclude_pattern => (false, MatchesExcludePattern exclude_pattern)
    | None =>
    match is_in_excluded_directory path with
    | Some excluded_dir => (false, ExcludedDirectoryType excluded_dir)
    | None =>
    if bool_decide (dirname ∈ cf_safe_directories cf)
    then (true, SafeDirectory dirname)
    else (true, AllowedDirectory dirname)
    end end.

(** [ConfigFilter.should_recurse_directory(path)] *)
Definition should_recurse_directory (path : Path) : bool :=
  fst (is_config_directory path).

End ConfigFilterChecks.

(** ** The mutable filesystem *)

(** A node is a regular file (its [st_size], its decoded text and its
    permission bits), a directory, or something else that exists (socket,
    FIFO, device). *)
Inductive Node :=
| NFile (size : Z) (text : string) (mode : Z)
| NDir (mode : Z)
| NOther (mode : Z).

(** What the run cannot control: symlink resolution, which reads and
    writes the operating system refuses ([OSError]) and the plist
    conversion tools ([plutil], then [plistlib]).  The two remaining
    unknowns, which [chmod] calls are refused and what is found at the
    default location of config-patterns.yaml, are parameters of their own
    ([chmod_fails], [config_patterns]). *)
Record Env := {
  e_resolve : Path -> Path;
  e_stat_fails : string -> bool;
  e_write_fails : string -> bool;
  e_read_fails : string -> bool;
  e_plist_to_xml : string -> option string
}.

Definition node_size (n : Node) : Z :=
  match n with NFile size _ _ => size | _ => 0%Z end.

Definition node_is_file (n : Node) : bool :=
  match n with NFile _ _ _ => true | _ => false end.

Definition node_is_dir (n : Node) : bool :=
  match n with NDir _ => true | _ => false end.

Definition node_mode (n : Node) : Z :=
  match n with NFile _ _ m | NDir m | NOther m => m end.

Definition set_mode (m : Z) (n : Node) : Node :=
  match n with
  | NFile size text _ => NFile size text m
  | NDir _ => NDir m
  | NOther _ => NOther m
  end.

(** The read-only view of a filesystem state *)
Definition view_of (env : Env) (nodes : gmap string Node) : FsView :=
  {| v_exists := fun p => bool_decide (is_Some (nodes !! path_str p));
     v_is_file := fun p =>
       match nodes !! path_str p with Some n => node_is_file n | None => false end;
     v_is_dir := fun p =>
       match nodes !! path_str p with Some n => node_is_dir n | None => false end;
     v_size := fun p =>
       if e_stat_fails env (path_str p) then None
       else option_map node_size (nodes !! path_str p);
     v_resolve := e_resolve env |}.

(** Filesystem operations: [inl msg] is a raised exception with
    [str(e) = msg]; the state returned with it holds what was done before
    the failure. *)
Definition FsM (A : Type) : Type :=
  gmap string Node -> (string + A) * gmap string Node.

Definition fs_ret {A} (a : A) : FsM A := fun nodes => (inr a, nodes).

Definition fs_raise {A} (msg : string) : FsM A := fun nodes => (inl msg, nodes).

Definition fs_bind {A B} (c : FsM A) (k : A -> FsM B) : FsM B :=
  fun nodes =>
    match c nodes with
    | (inr a, nodes') => k a nodes'
    | (inl msg, nodes') => (inl msg, nodes')
    end.

Notation "'let*' x := c 'in' k" := (fs_bind c (fun x => k))
  (at level 10, x name, c at level 100, k at level 200).

Definition oserror (what : string) (p : Path) : string :=
  what +:+ ": " +:+ path_str p.

Definition FILE_MODE : Z := 384.  (* 0o600 *)
Definition DIR_MODE : Z := 448.   (* 0o700 *)
Definition NEW_FILE_MODE : Z := 420.  (* 0o644, a new file under the usual umask *)
Definition NEW_DIR_MODE : Z := 493.   (* 0o755 *)

(** The loop of [mkdir(parents=True, exist_ok=True)] over the prefixes of
    the path, shortest first. *)
Fixpoint mkdir_prefixes (env : Env) (anch : bool) (done todo : list string)
  : FsM unit :=
  match todo with
  | [] => fs_ret tt
  | x :: rest =>
      let q := {| anchored := anch; parts := done ++ [x] |} in
      fun nodes =>
        match nodes !! path_str q with
        | Some (NDir _) => mkdir_prefixes env anch (done ++ [x]) rest nodes
        | Some _ => (inl (oserror "File exists" q), nodes)
        | None =>
            if e_write_fails env (path_str q)
            then (inl (oserror "Cannot create directory" q), nodes)
            else mkdir_prefixes env anch (done ++ [x]) rest
                   (<[path_str q := NDir NEW_DIR_MODE]> nodes)
        end
  end.

(** [p.mkdir(parents=True, exist_ok=True)] *)
Definition mkdir_p (env : Env) (p : Path) : FsM unit :=
  mkdir_prefixes env (anchored p) [] (parts p).

(** Is the parent of [p] a directory?  The root and the working directory
    always are. *)
Definition parent_is_dir (nodes : gmap string Node) (p : Path) : bool :=
  match parts (parent p) with
  | [] => true
  | _ => match nodes !! path_str (parent p) with
         | Some n => node_is_dir n
         | None => false
         end
  end.

(** Create or replace the regular file at [p]. *)
Definition put_file (env : Env) (p : Path) (size : Z) (text : string)
    (mode_if_new : Z) : FsM unit :=
  fun nodes =>
    if negb (parent_is_dir nodes p) then (inl (oserror "No such file or directory" p), nodes)
    else match nodes !! path_str p with
         | Some (NDir _) => (inl (oserror "Is a directory" p), nodes)
         | Some (NOther _) => (inl (oserror "Not a regular file" p), nodes)
         | Some (NFile _ _ m) =>
             if e_write_fails env (path_str p)
             then (inl (oserror "Permission denied" p), nodes)
             else (inr tt, <[path_str p := NFile size text m]> nodes)
         | None =>
             if e_write_fails env (path_str p)
             then (inl (oserror "Permission denied" p), nodes)
             else (inr tt, <[path_str p := NFile size text mode_if_new]> nodes)
         end.

(** [p.write_text(content, encoding='utf-8')] *)
Definition write_text (env : Env) (p : Path) (content : string) : FsM unit :=
  put_file env p (Z.of_nat (String.length content)) content NEW_FILE_MODE.

(** [p.read_text(encoding='utf-8', errors='replace')] *)
Definition read_text (env : Env) (p : Path) : FsM string :=
  fun nodes =>
    match nodes !! path_str p with
    | Some (NFile _ text _) =>
        if e_read_fails env (path_str p)
        then (inl (oserror "Permission denied" p), nodes)
        else (inr text, nodes)
    | Some _ => (inl (oserror "Is a directory" p), nodes)
    | None => (inl (oserror "No such file or directory" p), nodes)
    end.

(** [shutil.copy2(src, dst)]: content and permission bits; into [dst]
    under the name of [src] when [dst] is a directory. *)
Definition copy2 (env : Env) (src dst : Path) : FsM unit :=
  fun nodes =>
    match nodes !! path_str src with
    | Some (NFile size text mode) =>
        if e_read_fails env (path_str src)
        then (inl (oserror "Permission denied" src), nodes)
        else
          let target :=
            match nodes !! path_str dst with
            | Some (NDir _) => joinpath dst {| anchored := false; parts := [name src] |}
            | _ => dst
            end in
          (* copyfile, then copystat: the permission bits of [src] *)
          match put_file env target size text mode nodes with
          | (inr _, nodes') =>
              (inr tt, <[path_str target := NFile size text mode]> nodes')
          | (inl msg, nodes') => (inl msg, nodes')
          end
    | Some _ => (inl (oserror "Is a directory" src), nodes)
    | None => (inl (oserror "No such file or directory" src), nodes)
    end.

(** [os.chmod(p, mode)] *)
Definition chmod (chmod_fails : string -> bool) (p : string) (mode : Z) : FsM unit :=
  fun nodes =>
    match nodes !! p with
    | Some n =>
        if chmod_fails p then (inl ("Operation not permitted: " +:+ p), nodes)
        else (inr tt, <[p := set_mode mode n]> nodes)
    | None => (inl ("No such file or directory: " +:+ p), nodes)
    end.

(** Is the entry at [p] somewhere below the directory [target]? *)
Definition is_under (target : Path) (p : string) : bool :=
  startswith p (path_str target +:+ "/").

(** [normalize_permissions(target)] (backup/config_backup.py).  A failing
    [chmod] of the target itself leaves the [try] block, so nothing below
    it is visited; below it every [chmod] has its own [try], and the walk
    gives [DIR_MODE] to directories and [FILE_MODE] to everything else. *)
Definition normalize_permissions (chmod_fails : string -> bool) (target : Path)
    (nodes : gmap string Node) : gmap string Node :=
  match nodes !! path_str target with
  | None => nodes
  | Some (NFile _ _ _) =>
      match chmod chmod_fails (path_str target) FILE_MODE nodes with
      | (inr _, nodes') => nodes'
      | (inl _, _) => nodes
      end
  | Some (NDir _) =>
      match chmod chmod_fails (path_str target) DIR_MODE nodes with
      | (inr _, nodes') =>
          map_imap (fun p n =>
              if is_under target p && negb (chmod_fails p)
              then Some (set_mode (if node_is_dir n then DIR_MODE else FILE_MODE) n)
              else Some n) nodes'
      | (inl _, _) => nodes
      end
  | Some (NOther _) => nodes
  end.

(** [is_binary_plist(file_path)] (utils/plist.py) *)
Definition is_binary_plist (env : Env) (nodes : gmap string Node) (p : Path) : bool :=
  match nodes !! path_str p with
  | Some (NFile _ text _) =>
      if e_read_fails env (path_str p) then false else startswith text "bplist"
  | _ => false
  end.

(** [is_xml_plist(file_path)]: looks at the first 100 bytes *)
Definition is_xml_plist (env : Env) (nodes : gmap string Node) (p : Path) : bool :=
  match nodes !! path_str p with
  | Some (NFile _ text _) =>
      if e_read_fails env (path_str p) then false
      else
        let header := take 100 text in
        startswith header "<?xml" || contains "<!DOCTYPE plist" header
        || contains "<plist" header
  | _ => false
  end.

(** ** The backup run (backup/config_backup.py) *)

Inductive Status := Success | Skipped | Partial | Error.

Definition status_eqb (a b : Status) : bool :=
  match a, b with
  | Success, Success | Skipped, Skipped | Partial, Partial | Error, Error => true
  | _, _ => false
  end.

(** The value stored under ['reason']:
    - [SourceFileMissing]: ['Source file does not exist']
    - [SourceDirectoryMissing]: ['Source directory does not exist']
    - [ConfigFilterRejected r]: [f'Config filter: {filter_reason}']
    - [PolicyRejected r]: the reason returned by [can_backup]
    - [PlistReason msg]: the reason or error of the plist conversion *)
Inductive Reason :=
| SourceFileMissing
| SourceDirectoryMissing
| ConfigFilterRejected (r : FilterReason)
| PolicyRejected (r : option ExclReason)
| PlistReason (msg : string).

(** A result dictionary.  Keys a given dictionary does not carry read as
    their defaults; the entries of ['errors'] are messages, paired with
    the file they concern when the source records it. *)
Record ItemResult := {
  r_source : string;
  r_dest : option string;
  r_relative_dest : string;
  r_status : Status;
  r_reason : option Reason;
  r_filtered : bool;
  r_changes : list Change;
  r_errors : list (option string * string);
  r_discovery_tier : string;
  r_plist_converted : bool;
  r_original_format : option string;
  r_tier_filtered : bool;
  r_files_processed : nat;
  r_files_filtered : nat;
  r_files_skipped : nat;
  r_tier_filtered_count : nat
}.

Definition with_status (s : Status) (r : ItemResult) : ItemResult :=
  {| r_source := r_source r; r_dest := r_dest r; r_relative_dest := r_relative_dest r;
     r_status := s; r_reason := r_reason r; r_filtered := r_filtered r;
     r_changes := r_changes r; r_errors := r_errors r;
     r_discovery_tier := r_discovery_tier r; r_plist_converted := r_plist_converted r;
     r_original_format := r_original_format r; r_tier_filtered := r_tier_filtered r;
     r_files_processed := r_files_processed r; r_files_filtered := r_files_filtered r;
     r_files_skipped := r_files_skipped r;
     r_tier_filtered_count := r_tier_filtered_count r |}.

Definition with_reason (x : option Reason) (r : ItemResult) : ItemResult :=
  {| r_source := r_source r; r_dest := r_dest r; r_relative_dest := r_relative_dest r;
     r_status := r_status r; r_reason := x; r_filtered := r_filtered r;
     r_changes := r_changes r; r_errors := r_errors r;
     r_discovery_tier := r_discovery_tier r; r_plist_converted := r_plist_converted r;
     r_original_format := r_original_format r; r_tier_filtered := r_tier_filtered r;
     r_files_processed := r_files_processed r; r_files_filtered := r_files_filtered r;
     r_files_skipped := r_files_skipped r;
     r_tier_filtered_count := r_tier_filtered_count r |}.

Definition with_filtered (x : bool) (cs : list Change) (r : ItemResult) : ItemResult :=
  {| r_source := r_source r; r_dest := r_dest r; r_relative_dest := r_relative_dest r;
     r_status := r_status r; r_reason := r_reason r; r_filtered := x;
     r_changes := cs; r_errors := r_errors r;
     r_discovery_tier := r_discovery_tier r; r_plist_converted := r_plist_converted r;
     r_original_format := r_original_format r; r_tier_filtered := r_tier_filtered r;
     r_files_processed := r_files_processed r; r_files_filtered := r_files_filtered r;
     r_files_skipped := r_files_skipped r;
     r_tier_filtered_count := r_tier_filtered_count r |}.

Definition with_errors (es : list (option string * string)) (r : ItemResult) : ItemResult :=
  {| r_source := r_source r; r_dest := r_dest r; r_relative_dest := r_relative_dest r;
     r_status := r_status r; r_reason := r_reason r; r_filtered := r_filtered r;
     r_changes := r_changes r; r_errors := es;
     r_discovery_tier := r_discovery_tier r; r_plist_converted := r_plist_converted r;
     r_original_format := r_original_format r; r_tier_filtered := r_tier_filtered r;
     r_files_processed := r_files_processed r; r_files_filtered := r_files_filtered r;
     r_files_skipped := r_files_skipped r;
     r_tier_filtered_count := r_tier_filtered_count r |}.

Definition with_plist (fmt : option string) (r : ItemResult) : ItemResult :=
  {| r_source := r_source r; r_dest := r_dest r; r_relative_dest := r_relative_dest r;
     r_status := r_status r; r_reason := r_reason r; r_filtered := r_filtered r;
     r_changes := r_changes r; r_errors := r_errors r;
     r_discovery_tier := r_discovery_tier r; r_plist_converted := true;
     r_original_format := fmt; r_tier_filtered := r_tier_filtered r;
     r_files_processed := r_files_processed r; r_files_filtered := r_files_filtered r;
     r_files_skipped := r_files_skipped r;
     r_tier_filtered_count := r_tier_filtered_count r |}.

Definition with_tier_filtered (r : ItemResult) : ItemResult :=
  {| r_source := r_source r; r_dest := r_dest r; r_relative_dest := r_relative_dest r;
     r_status := r_status r; r_reason := r_reason r; r_filtered := r_filtered r;
     r_changes := r_changes r; r_errors := r_errors r;
     r_discovery_tier := r_discovery_tier r; r_plist_converted := r_plist_converted r;
     r_original_format := r_original_format r; r_tier_filtered := true;
     r_files_processed := r_files_processed r; r_files_filtered := r_files_filtered r;
     r_files_skipped := r_files_skipped r;
     r_tier_filtered_count := r_tier_filtered_count r |}.

(** Counter updates of the directory loop: processed, filtered (with the
    changes to append), skipped, tier-filtered. *)
Definition with_counts (processed filtered skipped tier : nat)
    (cs : list Change) (r : ItemResult) : ItemResult :=
  {| r_source := r_source r; r_dest := r_dest r; r_relative_dest := r_relative_dest r;
     r_status := r_status r; r_reason := r_reason r; r_filtered := r_filtered r;
     r_changes := r_changes r ++ cs; r_errors := r_errors r;
     r_discovery_tier := r_discovery_tier r; r_plist_converted := r_plist_converted r;
     r_original_format := r_original_format r; r_tier_filtered := r_tier_filtered r;
     r_files_processed := r_files_processed r + processed;
     r_files_filtered := r_files_filtered r + filtered;
     r_files_skipped := r_files_skipped r + skipped;
     r_tier_filtered_count := r_tier_filtered_count r + tier |}.

(** The dictionary returned when the destination is rejected *)
Definition rejected_result (source : Path) (relative_dest : string)
    (e : PathTraversalError) (discovery_tier : string) : ItemResult :=
  {| r_source := path_str source; r_dest := None; r_relative_dest := relative_dest;
     r_status := Error; r_reason := None; r_filtered := false;
     r_changes := []; r_errors := [(None, error_str e)];
     r_discovery_tier := discovery_tier; r_plist_converted := false;
     r_original_format := None; r_tier_filtered := false;
     r_files_processed := 0; r_files_filtered := 0; r_files_skipped := 0;
     r_tier_filtered_count := 0 |}.

(** The dictionary a validated call starts from *)
Definition initial_result (source dest : Path) (relative_dest : string)
    (discovery_tier : string) : ItemResult :=
  {| r_source := path_str source; r_dest := Some (path_str dest);
     r_relative_dest := relative_dest;
     r_status := Success; r_reason := None; r_filtered := false;
     r_changes := []; r_errors := [];
     r_discovery_tier := discovery_tier; r_plist_converted := false;
     r_original_format := None; r_tier_filtered := false;
     r_files_processed := 0; r_files_filtered := 0; r_files_skipped := 0;
     r_tier_filtered_count := 0 |}.

(** The result of [backup_plist_as_xml]: status, reason or error message,
    original format. *)
Record PlistResult := {
  pl_status : Status;
  pl_message : option string;
  pl_original_format : option string
}.

(** A [ConfigBackup] object without its result list, and the state a run
    threads: the filesystem and [self.results]. *)
Record ConfigBackup {RE : RegexEngine} := {
  output_dir : Path;
  include_secrets : bool;
  normalize : bool;
  security : SecurityPatterns;
  compiled_patterns : list Rule
}.

Record World := {
  w_nodes : gmap string Node;
  w_results : list ItemResult
}.

Section Backup.
Context {RE : RegexEngine} {FN : Fnmatch}.
Variable env : Env.
Variable chmod_fails : string -> bool.
Variable config_patterns : PatternsFile.
Variable cb : ConfigBackup.

(** [SecurityManager.process_file(source, dest, include_secrets=False)]:
    the status, the changes and the errors of the returned dictionary *)
Definition process_file (source dest : Path) (nodes : gmap string Node)
  : (Status * list Change * list string) * gmap string Node :=
  let '(ok, _) := can_backup (view_of env nodes) (security cb) source in
  if negb ok then ((Skipped, [], []), nodes)
  else
    match read_text env source nodes with
    | (inl msg, n1) => ((Error, [], [msg]), n1)
    | (inr content, n1) =>
        let '(filtered_content, changes) :=
          filter_content (compiled_patterns cb) content (Some (path_str source)) in
        match (let* _ := mkdir_p env (parent dest) in
               write_text env dest filtered_content) n1 with
        | (inl msg, n2) => ((Error, changes, [msg]), n2)
        | (inr _, n2) => ((Success, changes, []), n2)
        end
    end.

(** [copy_file_safe(src, dst, normalize)]: status and error message.  The
    macOS attribute helpers act on ACLs and flags, which the node model
    does not carry. *)
Definition copy_file_safe (src dst : Path) (normalize : bool)
    (nodes : gmap string Node) : (Status * option string) * gmap string Node :=
  match (let* _ := mkdir_p env (parent dst) in copy2 env src dst) nodes with
  | (inl msg, n1) => ((Error, Some msg), n1)
  | (inr _, n1) =>
      ((Success, None), if normalize then normalize_permissions chmod_fails dst n1 else n1)
  end.

(** [convert_to_xml(source, dest)] (utils/plist.py): [plutil] works on a
    copy at [dest]; when it fails [plistlib] rewrites [dest] from the
    source.  [e_plist_to_xml] is what the two tools make of the source
    text. *)
Definition convert_to_xml (source dest : Path) : FsM (bool * string) :=
  fun nodes =>
    if is_xml_plist env nodes source then
      if String.eqb (path_str dest) (path_str source)
      then (inr (true, "Already XML format"), nodes)
      else
        match (let* _ := mkdir_p env (parent dest) in copy2 env source dest) nodes with
        | (inl msg, n1) => (inl msg, n1)
        | (inr _, n1) => (inr (true, "Already XML format"), n1)
        end
    else if negb (is_binary_plist env nodes source) then
      (inr (false, "Not a valid plist file"), nodes)
    else
      match (let* _ := mkdir_p env (parent dest) in copy2 env source dest) nodes with
      | (inl msg, n1) => (inl msg, n1)
      | (inr _, n1) =>
          match read_text env source n1 with
          | (inr text, _) =>
              match e_plist_to_xml env text with
              | Some xml =>
                  match write_text env dest xml n1 with
                  | (inr _, n2) => (inr (true, "Converted successfully"), n2)
                  | (inl msg, n2) => (inr (false, "Conversion error: " +:+ msg), n2)
                  end
              | None => (inr (false, "Conversion error"), n1)
              end
          | (inl msg, _) => (inr (false, "Conversion error: " +:+ msg), n1)
          end
      end.

(** [backup_plist_as_xml(source, dest, normalize_permissions=False)] *)
Definition backup_plist_as_xml (source dest : Path) : FsM PlistResult :=
  fun nodes =>
    if negb (v_exists (view_of env nodes) source) then
      (inr {| pl_status := Skipped; pl_message := Some "Source file does not exist";
              pl_original_format := None |}, nodes)
    else
      let original_format :=
        if is_binary_plist env nodes source then Some "binary"
        else if is_xml_plist env nodes source then Some "xml"
        else None in
      match original_format with
      | None =>
          (inr {| pl_status := Skipped; pl_message := Some "Not a valid plist file";
                  pl_original_format := None |}, nodes)
      | Some _ =>
          match convert_to_xml source dest nodes with
          | (inl msg, n1) => (inl msg, n1)
          | (inr (true, _), n1) =>
              (inr {| pl_status := Success; pl_message := None;
                      pl_original_format := original_format |}, n1)
          | (inr (false, message), n1) =>
              (inr {| pl_status := Error; pl_message := Some message;
                      pl_original_format := original_format |}, n1)
          end
      end.

(** [discovery_tier in ('conventions', 'llm')] *)
Definition is_low_trust_tier (discovery_tier : string) : bool :=
  String.eqb discovery_tier "conventions" || String.eqb discovery_tier "llm".

(** [should_filter], from [include_secrets] and the override *)
Definition should_filter_of (filter_secrets : option bool) : bool :=
  match filter_secrets with
  | Some b => b
  | None => negb (include_secrets cb)
  end.

(** The [try] block of [backup_file]: the result as far as it was
    updated, the exception that left the block if any, the filesystem. *)
Definition backup_file_body (source dest : Path) (should_filter : bool)
    (result : ItemResult) (nodes : gmap string Node)
  : ItemResult * option string * gmap string Node :=
  match mkdir_p env (parent dest) nodes with
  | (inl msg, n1) => (result, Some msg, n1)
  | (inr _, n1) =>
      if negb (v_is_file (view_of env n1) source) then (result, None, n1)
      else if String.eqb (lower (suffix source)) ".plist" && is_binary_plist env n1 source then
        match backup_plist_as_xml source dest n1 with
        | (inl msg, n2) => (result, Some msg, n2)
        | (inr plist_result, n2) =>
            if negb (status_eqb (pl_status plist_result) Success) then
              (with_reason (option_map PlistReason (pl_message plist_result))
                 (with_status (pl_status plist_result) result), None, n2)
            else
              let result := with_plist (pl_original_format plist_result) result in
              if should_filter then
                match read_text env dest n2 with
                | (inl msg, n3) => (result, Some msg, n3)
                | (inr content, n3) =>
                    let '(filtered_content, changes) :=
                      filter_content (compiled_patterns cb) content
                                     (Some (path_str source)) in
                    match write_text env dest filtered_content n3 with
                    | (inl msg, n4) => (result, Some msg, n4)
                    | (inr _, n4) =>
                        (with_filtered true changes result, None,
                         if normalize cb then normalize_permissions chmod_fails dest n4 else n4)
                    end
                end
              else
                (result, None,
                 if normalize cb then normalize_permissions chmod_fails dest n2 else n2)
        end
      else if should_filter then
        let '((status, changes, errors), n2) := process_file source dest n1 in
        let result := with_filtered true changes result in
        let result :=
          if status_eqb status Error
          then with_errors (map (fun e => (None, e)) errors) (with_status Error result)
          else result in
        (result, None,
         if normalize cb && status_eqb (r_status result) Success
         then normalize_permissions chmod_fails dest n2 else n2)
      else
        let '((status, error), n2) := copy_file_safe source dest (normalize cb) n1 in
        if negb (status_eqb status Success) then
          (with_errors (r_errors result ++
                        [(None, match error with Some e => e | None => "Copy failed" end)])
             (with_status status result), None, n2)
        else (result, None, n2)
  end.

(** [self.results.append(result); return result] *)
Definition append_result (result : ItemResult) (nodes : gmap string Node)
    (w : World) : ItemResult * World :=
  (result, {| w_nodes := nodes; w_results := w_results w ++ [result] |}).

(** [ConfigBackup.backup_file(source, relative_dest, filter_secrets,
    discovery_tier, exclude_patterns)], for an already expanded [source].
    [exclude_patterns] is accepted and not used by the source. *)
Definition backup_file (source : Path) (relative_dest : string)
    (filter_secrets : option bool) (discovery_tier : string)
    (exclude_patterns : option (list string)) (w : World) : ItemResult * World :=
  let fs := view_of env (w_nodes w) in
  match safe_join fs (output_dir cb) relative_dest with
  | inl e => (rejected_result source relative_dest e discovery_tier, w)
  | inr dest =>
      let result := initial_result source dest relative_dest discovery_tier in
      if negb (v_exists fs source) then
        append_result (with_reason (Some SourceFileMissing) (with_status Skipped result))
                      (w_nodes w) w
      else
        let tier_check :=
          if is_low_trust_tier discovery_tier then
            let config_filter := ConfigFilter_init config_patterns in
            let '(is_valid, filter_reason) := is_config_file fs config_filter source in
            if negb is_valid then Some filter_reason else None
          else None in
        match tier_check with
        | Some filter_reason =>
            append_result
              (with_tier_filtered
                 (with_reason (Some (ConfigFilterRejected filter_reason))
                    (with_status Skipped result)))
              (w_nodes w) w
        | None =>
            let '(can, reason) := can_backup fs (security cb) source in
            if negb can then
              append_result (with_reason (Some (PolicyRejected reason))
                               (with_status Skipped result))
                            (w_nodes w) w
            else
              let should_filter := should_filter_of filter_secrets in
              let '(result, raised, nodes) :=
                backup_file_body source dest should_filter result (w_nodes w) in
              let result :=
                match raised with
                | Some msg =>
                    with_errors (r_errors result ++ [(None, msg)])
                                (with_status Error result)
                | None => result
                end in
              append_result result nodes w
        end
  end.

End Backup.

Section BackupDirectory.
Context {RE : RegexEngine} {FN : Fnmatch}.
Variable env : Env.
Variable chmod_fails : string -> bool.
Variable config_patterns : PatternsFile.
Variable cb : ConfigBackup.

(** [ConfigBackup._matches_exclude_pattern(name, patterns)] *)
Definition matches_app_exclude_pattern (name : string) (patterns : list string) : bool :=
  existsb (fun pattern =>
             let clean_pattern := rstrip_slash pattern in
             fnmatch name clean_pattern ||
             fnmatch (lower name) (lower clean_pattern))
          patterns.

(** [if exclude_patterns and self._matches_exclude_pattern(...)]: [None]
    and the empty list are both false. *)
Definition excluded_by_app (exclude_patterns : option (list string)) (name : string) : bool :=
  match exclude_patterns with
  | Some (p :: ps) => matches_app_exclude_pattern name (p :: ps)
  | _ => false
  end.

(** The three prunings of [dirs[:]] in the walk *)
Definition pruned (config_filter : option ConfigFilter)
    (exclude_patterns : option (list string)) (nodes : gmap string Node)
    (d : Path) : bool :=
  fst (should_exclude_directory (security cb) d)
  || excluded_by_app exclude_patterns (name d)
  || match config_filter with
     | Some f => negb (should_recurse_directory (view_of env nodes) f d)
     | None => false
     end.

Fixpoint strip_prefix (a b : list string) : option (list string) :=
  match a, b with
  | [], _ => Some b
  | x :: a', y :: b' => if String.eqb x y then strip_prefix a' b' else None
  | _ :: _, [] => None
  end.

Definition below (source : Path) (rel : list string) : Path :=
  {| anchored := anchored source; parts := parts source ++ rel |}.

(** The files [os.walk(source)] hands to the loop body, as components
    relative to [source]: every entry below [source] that is not a
    directory and none of whose enclosing directories below [source] was
    pruned.  The listing is taken from the tree as it stands when the walk
    starts. *)
Definition walk_files (config_filter : option ConfigFilter)
    (exclude_patterns : option (list string)) (source : Path)
    (nodes : gmap string Node) : list (list string) :=
  omap (fun '(k, n) =>
          let p := parse_path k in
          match strip_prefix (parts source) (parts p) with
          | Some (x :: rel) =>
              if Bool.eqb (anchored p) (anchored source)
                 && negb (node_is_dir n)
                 && forallb (fun i => negb (pruned config_filter exclude_patterns nodes
                                              (below source (firstn i (x :: rel)))))
                            (seq 1 (length rel))
              then Some (x :: rel) else None
          | _ => None
          end)
       (map_to_list nodes).

(** The body of [for filename in files] *)
Definition backup_directory_file (config_filter : option ConfigFilter)
    (exclude_patterns : option (list string)) (should_filter : bool)
    (source dest : Path) (st : ItemResult * gmap string Node) (rel : list string)
  : ItemResult * gmap string Node :=
  let '(result, nodes) := st in
  let fs := view_of env nodes in
  let src_file := below source rel in
  let dst_file := below dest rel in
  let dest_root := parent dst_file in
  let filename := name src_file in
  if excluded_by_app exclude_patterns filename then
    (with_counts 0 0 1 0 [] result, nodes)
  else if match config_filter with
          | Some f => negb (fst (is_config_file fs f src_file))
          | None => false
          end then
    (with_counts 0 0 0 1 [] result, nodes)
  else if negb (fst (can_backup fs (security cb) src_file)) then
    (with_counts 0 0 1 0 [] result, nodes)
  else
    let file_error msg result :=
      with_errors (r_errors result ++ [(Some (path_str src_file), msg)]) result in
    match mkdir_p env dest_root nodes with
    | (inl msg, n1) => (file_error msg result, n1)
    | (inr _, n1) =>
        if String.eqb (lower (suffix src_file)) ".plist" && is_binary_plist env n1 src_file then
          match backup_plist_as_xml env src_file dst_file n1 with
          | (inl msg, n2) => (file_error msg result, n2)
          | (inr plist_result, n2) =>
              if status_eqb (pl_status plist_result) Success then
                if should_filter then
                  match read_text env dst_file n2 with
                  | (inl msg, n3) => (file_error msg result, n3)
                  | (inr content, n3) =>
                      let '(filtered_content, changes) :=
                        filter_content (compiled_patterns cb) content
                                       (Some (path_str src_file)) in
                      match write_text env dst_file filtered_content n3 with
                      | (inl msg, n4) => (file_error msg result, n4)
                      | (inr _, n4) =>
                          (with_counts 1 (match changes with [] => 0 | _ => 1 end)
                                       0 0 changes result, n4)
                      end
                  end
                else (with_counts 1 0 0 0 [] result, n2)
              else
                (with_counts 1 0 0 0 []
                   (file_error (match pl_message plist_result with
                                | Some m => m
                                | None => "Plist conversion failed"
                                end) result), n2)
          end
        else if should_filter then
          let '((status, changes, errors), n2) := process_file env cb src_file dst_file n1 in
          let result :=
            with_counts 1 (match changes with [] => 0 | _ => 1 end) 0 0 changes result in
          let result :=
            if status_eqb status Error
            then with_errors (r_errors result ++ map (fun e => (None, e)) errors) result
            else result in
          (result, n2)
        else
          let '(_, n2) := copy_file_safe env chmod_fails src_file dst_file false n1 in
          (with_counts 1 0 0 0 [] result, n2)
    end.

(** [ConfigBackup.backup_directory(source, relative_dest, filter_secrets,
    discovery_tier, exclude_patterns)], for an already expanded [source] *)
Definition backup_directory (source : Path) (relative_dest : string)
    (filter_secrets : option bool) (discovery_tier : string)
    (exclude_patterns : option (list string)) (w : World) : ItemResult * World :=
  let fs := view_of env (w_nodes w) in
  match safe_join fs (output_dir cb) relative_dest with
  | inl e => (rejected_result source relative_dest e discovery_tier, w)
  | inr dest =>
      let result := initial_result source dest relative_dest discovery_tier in
      if negb (v_exists fs source) then
        append_result (with_reason (Some SourceDirectoryMissing)
                         (with_status Skipped result)) (w_nodes w) w
      else
        let config_filter :=
          if is_low_trust_tier discovery_tier
          then Some (ConfigFilter_init config_patterns) else None in
        match (match config_filter with
               | Some f =>
                   let '(is_valid, filter_reason) := is_config_directory fs f source in
                   if negb is_valid then Some filter_reason else None
               | None => None
               end) with
        | Some filter_reason =>
            append_result
              (with_tier_filtered
                 (with_reason (Some (ConfigFilterRejected filter_reason))
                    (with_status Skipped result)))
              (w_nodes w) w
        | None =>
            let '(can, reason) := can_backup fs (security cb) source in
            if negb can then
              append_result (with_reason (Some (PolicyRejected reason))
                               (with_status Skipped result)) (w_nodes w) w
            else
              let should_filter := should_filter_of cb filter_secrets in
              let '(result, nodes) :=
                fold_left (backup_directory_file config_filter exclude_patterns
                             should_filter source dest)
                          (walk_files config_filter exclude_patterns source (w_nodes w))
                          (result, w_nodes w) in
              let nodes :=
                if normalize cb then normalize_permissions chmod_fails dest nodes else nodes in
              let result :=
                match r_errors result with
                | [] => result
                | _ => with_status Partial result
                end in
              append_result result nodes w
        end
  end.

End BackupDirectory.

(** The dictionary of [get_summary] *)
Record Summary := {
  total_operations : nat;
  s_success : nat;
  s_partial : nat;
  s_skipped : nat;
  s_errors : nat;
  s_include_secrets : bool;
  s_output_dir : string
}.

Definition count_status (s : Status) (results : list ItemResult) : nat :=
  length (List.filter (fun r => status_eqb (r_status r) s) results).

(** [ConfigBackup.get_summary()] *)
Definition get_summary {RE : RegexEngine} (cb : ConfigBackup) (w : World) : Summary :=
  {| total_operations := length (w_results w);
     s_success := count_status Success (w_results w);
     s_partial := count_status Partial (w_results w);
     s_skipped := count_status Skipped (w_results w);
     s_errors := count_status Error (w_results w);
     s_include_secrets := include_secrets cb;
     s_output_dir := path_str (output_dir cb) |}.

(** ** Discovery (discovery/hints.py, conventions.py, merge.py) *)

(** The dictionary a tier hands to the merge.  Absent keys read as [None]
    or the empty list.  A tier result that is [None] or the empty
    dictionary (both false in a condition) is [None] here. *)
Record TierResult := {
  t_configuration_files : list string;
  t_xdg_configuration_files : list string;
  t_bundle_id : option string;
  t_install_method : option string;
  t_extensions_cmd : option string;
  t_exclude_files : list string;
  t_notes : option string;
  t_confidence : option string;
  t_hints_key : option string
}.

Record DiscoveryResult := {
  app_name : string;
  bundle_id : option string;
  canonical_key : option string;
  configuration_files : list string;
  xdg_configuration_files : list string;
  resolved_paths : list Path;
  source : string;
  confidence : string;
  install_method : option string;
  extensions_cmd : option string;
  exclude_files_of : list string;
  notes : option string;
  needs_llm_discovery : bool;
  hints_paths : list Path;
  conventions_paths : list Path;
  llm_paths : list Path;
  found_in_hints : bool
}.

Definition nonempty {A} (l : list A) : bool :=
  match l with [] => false | _ => true end.

(** [DiscoveryResult.has_settings()] *)
Definition has_settings (r : DiscoveryResult) : bool :=
  nonempty (configuration_files r) || nonempty (xdg_configuration_files r)
  || nonempty (resolved_paths r) || nonempty (hints_paths r)
  || nonempty (conventions_paths r) || nonempty (llm_paths r).

(** Truth value of an optional string: [None] and [''] are false. *)
Definition truthy (o : option string) : bool :=
  match o with
  | Some s => negb (String.eqb s "")
  | None => false
  end.

(** [_normalize_path_for_dedup(path)] *)
Definition normalize_path_for_dedup (fs : FsView) (path : Path) : string :=
  lower (path_str (v_resolve fs path)).

(** [_normalize_config_path(path)] *)
Definition normalize_config_path (path : string) : string :=
  lower (rstrip_slash path).

(** Insertion-ordered dictionaries with string keys *)
Definition Dict (V : Type) : Type := list (string * V).

Definition dict_has {V} (key : string) (d : Dict V) : bool :=
  existsb (fun kv => String.eqb key (fst kv)) d.

(** [d[key] = value] for a key known to be absent *)
Definition dict_add {V} (key : string) (value : V) (d : Dict V) : Dict V :=
  d ++ [(key, value)].

Definition dict_values {V} (d : Dict V) : list V := map snd d.

(** [sorted(xs, key=key)]: a stable insertion sort on the byte order of
    the keys *)
Fixpoint insert_by {A} (key : A -> string) (x : A) (l : list A) : list A :=
  match l with
  | [] => [x]
  | y :: l' =>
      if String.ltb (key x) (key y) then x :: y :: l'
      else y :: insert_by key x l'
  end.

Definition sorted_by {A} (key : A -> string) (l : list A) : list A :=
  fold_left (fun acc x => insert_by key x acc) l [].

Section Merge.
Context {FN : Fnmatch}.
Variable fs : FsView.
Variable home : Path.
Variable xdg_config_home : Path.
Variable config_filter : ConfigFilter.

(** [validate_paths(configuration_files, xdg_configuration_files)] *)
Definition validate_paths (configuration_files xdg_configuration_files : list string)
  : list Path * list string :=
  let step (base : Path) (st : list Path * list string * list string) (path_str : string) :=
    let '(valid_paths, invalid_paths, seen_resolved) := st in
    let full_path := joinpath base (parse_path path_str) in
    if v_exists fs full_path then
      let resolved_key := normalize_path_for_dedup fs full_path in
      if negb (mem resolved_key seen_resolved)
      then (valid_paths ++ [v_resolve fs full_path], invalid_paths,
            seen_resolved ++ [resolved_key])
      else st
    else (valid_paths, invalid_paths ++ [path_str], seen_resolved) in
  let st := fold_left (step home) configuration_files ([], [], []) in
  let st := fold_left (step xdg_config_home) xdg_configuration_files st in
  (fst (fst st), snd (fst st)).

(** The dictionaries the merge fills *)
Record MergeState := {
  config_files_map : Dict string;
  xdg_files_map : Dict string;
  hints_paths_map : Dict Path;
  conventions_paths_map : Dict Path;
  llm_paths_map : Dict Path
}.

Definition empty_state : MergeState :=
  {| config_files_map := []; xdg_files_map := []; hints_paths_map := [];
     conventions_paths_map := []; llm_paths_map := [] |}.

(** [add_config_path] and [add_xdg_path], on the dictionary they update *)
Definition add_path (path : string) (m : Dict string) : Dict string :=
  let key := normalize_config_path path in
  if negb (dict_has key m) then dict_add key (rstrip_slash path) m else m.

(** [resolve_and_add_tier_path(relative_path, tier_map, is_xdg, apply_filter)] *)
Definition resolve_and_add_tier_path (relative_path : string) (tier_map : Dict Path)
    (is_xdg apply_filter : bool) : Dict Path :=
  let base := if is_xdg then xdg_config_home else home in
  let full_path := joinpath base (parse_path relative_path) in
  if negb (v_exists fs full_path) then tier_map
  else
    let resolved := v_resolve fs full_path in
    let key := normalize_path_for_dedup fs resolved in
    if dict_has key tier_map then tier_map
    else
      let rejected :=
        if apply_filter then
          if v_is_file fs resolved then negb (fst (is_config_file fs config_filter resolved))
          else if v_is_dir fs resolved
               then negb (fst (is_config_directory fs config_filter resolved))
               else false
        else false in
      if rejected then tier_map else dict_add key resolved tier_map.

(** The two loops over a hints result *)
Definition hints_step (is_xdg : bool) (st : MergeState) (path : string) : MergeState :=
  {| config_files_map :=
       if is_xdg then config_files_map st else add_path path (config_files_map st);
     xdg_files_map :=
       if is_xdg then add_path path (xdg_files_map st) else xdg_files_map st;
     hints_paths_map :=
       resolve_and_add_tier_path path (hints_paths_map st) is_xdg false;
     conventions_paths_map := conventions_paths_map st;
     llm_paths_map := llm_paths_map st |}.

(** The key under which the conventions and LLM loops look a candidate up
    in the maps of the higher tiers *)
Definition candidate_key (is_xdg : bool) (path : string) : option string :=
  let full_path := joinpath (if is_xdg then xdg_config_home else home) (parse_path path) in
  if v_exists fs full_path
  then Some (normalize_path_for_dedup fs (v_resolve fs full_path))
  else None.

(** The two loops over a conventions result *)
Definition conventions_step (is_xdg : bool) (st : MergeState) (path : string) : MergeState :=
  {| config_files_map :=
       if is_xdg then config_files_map st else add_path path (config_files_map st);
     xdg_files_map :=
       if is_xdg then add_path path (xdg_files_map st) else xdg_files_map st;
     hints_paths_map := hints_paths_map st;
     conventions_paths_map :=
       match candidate_key is_xdg path with
       | Some key =>
           if negb (dict_has key (hints_paths_map st))
           then resolve_and_add_tier_path path (conventions_paths_map st) is_xdg true
           else conventions_paths_map st
       | None => conventions_paths_map st
       end;
     llm_paths_map := llm_paths_map st |}.

(** The two loops over an LLM result *)
Definition llm_step (is_xdg : bool) (st : MergeState) (path : string) : MergeState :=
  {| config_files_map :=
       if is_xdg then config_files_map st else add_path path (config_files_map st);
     xdg_files_map :=
       if is_xdg then add_path path (xdg_files_map st) else xdg_files_map st;
     hints_paths_map := hints_paths_map st;
     conventions_paths_map := conventions_paths_map st;
     llm_paths_map :=
       match candidate_key is_xdg path with
       | Some key =>
           if negb (dict_has key (hints_paths_map st))
              && negb (dict_has key (conventions_paths_map st))
           then resolve_and_add_tier_path path (llm_paths_map st) is_xdg true
           else llm_paths_map st
       | None => llm_paths_map st
       end |}.

Definition run_tier (step : bool -> MergeState -> string -> MergeState)
    (t : TierResult) (st : MergeState) : MergeState :=
  fold_left (step true) (t_xdg_configuration_files t)
    (fold_left (step false) (t_configuration_files t) st).

Definition is_some {A} (o : option A) : bool :=
  match o with Some _ => true | None => false end.


(** The three tier loops of [merge_discovery_results], in priority
    order; the LLM loop runs only when the application was not found in
    the hints. *)
Definition merge_maps (hints_result conventions_result llm_result : option TierResult)
  : MergeState :=
  let st := empty_state in
  let st := match hints_result with
            | Some h => run_tier hints_step h st
            | None => st
            end in
  let st := match conventions_result with
            | Some c => run_tier conventions_step c st
            | None => st
            end in
  match (if is_some hints_result then None else llm_result) with
  | Some l => run_tier llm_step l st
  | None => st
  end.

(** [merge_discovery_results(hints_result, conventions_result, llm_result,
    app_name, bundle_id)] *)
Definition merge_discovery_results (hints_result conventions_result llm_result : option TierResult)
    (app_name : string) (bundle_id : option string) : DiscoveryResult :=
  let found_in_hints := is_some hints_result in
  let llm_used := if found_in_hints then None else llm_result in
  let st := merge_maps hints_result conventions_result llm_result in
  let source :=
    match hints_result, conventions_result, llm_used with
    | Some _, _, _ => "hints"
    | None, Some _, _ => "conventions"
    | None, None, Some _ => "llm"
    | None, None, None => "unknown"
    end in
  let confidence :=
    match hints_result, conventions_result, llm_used with
    | Some _, _, _ => "high"
    | None, Some c, _ => match t_confidence c with Some x => x | None => "medium" end
    | None, None, Some l => match t_confidence l with Some x => x | None => "low" end
    | None, None, None => "low"
    end in
  let bundle_id :=
    match hints_result with
    | Some h => if truthy (t_bundle_id h) then t_bundle_id h else bundle_id
    | None => bundle_id
    end in
  let bundle_id :=
    match conventions_result with
    | Some c =>
        if truthy (t_bundle_id c) && negb (truthy bundle_id) then t_bundle_id c
        else bundle_id
    | None => bundle_id
    end in
  let install_method := match hints_result with Some h => t_install_method h | None => None end in
  let notes := match hints_result with Some h => t_notes h | None => None end in
  let install_method :=
    match llm_used with
    | Some l =>
        if truthy (t_install_method l) && negb (truthy install_method)
        then t_install_method l else install_method
    | None => install_method
    end in
  let notes :=
    match llm_used with
    | Some l => if truthy (t_notes l) && negb (truthy notes) then t_notes l else notes
    | None => notes
    end in
  let configuration_files := sorted_by id (dict_values (config_files_map st)) in
  let xdg_configuration_files := sorted_by id (dict_values (xdg_files_map st)) in
  let resolved_paths := fst (validate_paths configuration_files xdg_configuration_files) in
  let hints_paths := sorted_by path_str (dict_values (hints_paths_map st)) in
  let conventions_paths := sorted_by path_str (dict_values (conventions_paths_map st)) in
  let llm_paths := sorted_by path_str (dict_values (llm_paths_map st)) in
  let result :=
    {| app_name := app_name; bundle_id := bundle_id;
       canonical_key := match hints_result with Some h => t_hints_key h | None => None end;
       configuration_files := configuration_files;
       xdg_configuration_files := xdg_configuration_files;
       resolved_paths := resolved_paths;
       source := source; confidence := confidence;
       install_method := install_method;
       extensions_cmd := match hints_result with Some h => t_extensions_cmd h | None => None end;
       exclude_files_of := match hints_result with Some h => t_exclude_files h | None => [] end;
       notes := notes;
       needs_llm_discovery := false;
       hints_paths := hints_paths; conventions_paths := conventions_paths;
       llm_paths := llm_paths; found_in_hints := found_in_hints |} in
  {| app_name := app_name; bundle_id := bundle_id;
     canonical_key := canonical_key result;
     configuration_files := configuration_files;
     xdg_configuration_files := xdg_configuration_files;
     resolved_paths := resolved_paths;
     source := source; confidence := confidence;
     install_method := install_method;
     extensions_cmd := extensions_cmd result;
     exclude_files_of := exclude_files_of result;
     notes := notes;
     needs_llm_discovery :=
       if found_in_hints then false else negb (has_settings result);
     hints_paths := hints_paths; conventions_paths := conventions_paths;
     llm_paths := llm_paths; found_in_hints := found_in_hints |}.

End Merge.

(** [s.replace(a, b)] for single characters *)
Fixpoint replace_char (a b : ascii) (s : string) : string :=
  match s with
  | EmptyString => EmptyString
  | String c s' => String (if Ascii.eqb c a then b else c) (replace_char a b s')
  end.

(** [s.endswith(suffix)] and [s.removesuffix(suffix)] *)
Definition endswith (s suffix : string) : bool :=
  (String.length suffix <=? String.length s)%nat
  && String.eqb (drop (String.length s - String.length suffix) s) suffix.

Definition removesuffix (s suffix : string) : string :=
  if negb (String.eqb suffix "") && endswith s suffix
  then take (String.length s - String.length suffix) s
  else s.

(** The hints database: application key to entry, in document order.
    Entries are mappings (a [null] entry makes [get_app_settings] raise). *)
Definition HintsDb : Type := Dict TierResult.

Definition dict_get {V} (key : string) (d : Dict V) : option V :=
  option_map snd (List.find (fun kv => String.eqb key (fst kv)) d).

(** [result = dict(entry); result['_hints_key'] = key] *)
Definition with_hints_key (key : string) (t : TierResult) : TierResult :=
  {| t_configuration_files := t_configuration_files t;
     t_xdg_configuration_files := t_xdg_configuration_files t;
     t_bundle_id := t_bundle_id t; t_install_method := t_install_method t;
     t_extensions_cmd := t_extensions_cmd t; t_exclude_files := t_exclude_files t;
     t_notes := t_notes t; t_confidence := t_confidence t;
     t_hints_key := Some key |}.

(** [get_app_settings(hints_db, app_name, bundle_id)] (discovery/hints.py) *)
Definition get_app_settings (hints_db : HintsDb) (app_name : string)
    (bundle_id : option string) : option TierResult :=
  let normalized_name :=
    replace_char "_" "-" (replace_char " " "-" (lower app_name)) in
  match dict_get normalized_name hints_db with
  | Some entry => Some (with_hints_key normalized_name entry)
  | None =>
  match List.find (fun suffix =>
            let stripped := removesuffix normalized_name suffix in
            negb (String.eqb stripped normalized_name) && dict_has stripped hints_db)
         [".app"; "-app"; " app"] with
  | Some suffix =>
      let stripped := removesuffix normalized_name suffix in
      option_map (with_hints_key stripped) (dict_get stripped hints_db)
  | None =>
  match (if truthy bundle_id
         then List.find (fun kv => match t_bundle_id (snd kv), bundle_id with
                                   | Some a, Some b => String.eqb a b
                                   | _, _ => false
                                   end) hints_db
         else None) with
  | Some (name, config) => Some (with_hints_key name config)
  | None =>
      match bundle_id with
      | Some bid =>
          if truthy bundle_id then
            let bundle_suffix := lower (List.last (split_on "." bid) "") in
            option_map (with_hints_key bundle_suffix) (dict_get bundle_suffix hints_db)
          else None
      | None => None
      end
  end end end.

Section Discover.
Context {FN : Fnmatch}.
Variable fs : FsView.
Variable home : Path.
Variable xdg_config_home : Path.
Variable config_filter : ConfigFilter.

(** The candidate templates [discover_from_conventions] builds from the
    name and bundle-id variations (home-relative, then XDG-relative),
    before deduplication.  The variations are regular-expression rewrites
    of the application name and stay a parameter. *)
Variable candidates : string -> option string -> list string * list string.

(** Case-insensitive, order-preserving removal of duplicates *)
Definition unique_lower (l : list string) : list string :=
  snd (fold_left (fun '(seen, unique) path =>
                    let key := lower path in
                    if negb (mem key seen) then (seen ++ [key], unique ++ [path])
                    else (seen, unique))
                 l ([], [])).

(** [discover_from_conventions(app_name, bundle_id, check_exists=True)] *)
Definition discover_from_conventions (app_name : string) (bundle_id : option string)
  : TierResult :=
  let home_relative_candidates := unique_lower (fst (candidates app_name bundle_id)) in
  let xdg_relative_candidates := unique_lower (snd (candidates app_name bundle_id)) in
  let step (base : Path) (st : list string * list string) (path : string) :=
    let '(found, seen_resolved) := st in
    let full_path := joinpath base (parse_path path) in
    if v_exists fs full_path then
      let resolved_key := normalize_path_for_dedup fs full_path in
      if negb (mem resolved_key seen_resolved)
      then (found ++ [rstrip_slash path], seen_resolved ++ [resolved_key])
      else st
    else st in
  let '(found_config_files, seen) :=
    fold_left (step home) home_relative_candidates ([], []) in
  let '(found_xdg_files, _) :=
    fold_left (step xdg_config_home) xdg_relative_candidates ([], seen) in
  let total_found := (length found_config_files + length found_xdg_files)%nat in
  {| t_configuration_files := found_config_files;
     t_xdg_configuration_files := found_xdg_files;
     t_bundle_id := bundle_id; t_install_method := None;
     t_extensions_cmd := None; t_exclude_files := [];
     t_notes := None;
     t_confidence := Some (match total_found with
                           | 0 => "low"
                           | 1 => "medium"
                           | _ => "high"
                           end);
     t_hints_key := None |}.

(** [discover_app(app_name, bundle_id, hints_db, skip_conventions)] *)
Definition discover_app (app_name : string) (bundle_id : option string)
    (hints_db : HintsDb) (skip_conventions : bool) : DiscoveryResult :=
  let hints_result := get_app_settings hints_db app_name bundle_id in
  let conventions_result :=
    if negb skip_conventions
    then Some (discover_from_conventions app_name bundle_id) else None in
  merge_discovery_results fs home xdg_config_home config_filter
    hints_result conventions_result None app_name bundle_id.

Definition system_patterns : list string := ["com.apple."; "Apple "; "System "].

(** [result.needs_llm_discovery = True] *)
Definition set_needs_llm_discovery (r : DiscoveryResult) : DiscoveryResult :=
  {| app_name := app_name r; bundle_id := bundle_id r;
     canonical_key := canonical_key r;
     configuration_files := configuration_files r;
     xdg_configuration_files := xdg_configuration_files r;
     resolved_paths := resolved_paths r;
     source := source r; confidence := confidence r;
     install_method := install_method r; extensions_cmd := extensions_cmd r;
     exclude_files_of := exclude_files_of r; notes := notes r;
     needs_llm_discovery := true;
     hints_paths := hints_paths r; conventions_paths := conventions_paths r;
     llm_paths := llm_paths r; found_in_hints := found_in_hints r |}.

(** An application of the scanned list: its name (['']  when absent) and
    bundle id. *)
Definition App : Type := string * option string.

(** [discover_all_apps(apps, hints_db, skip_system_apps)]: the discovered
    results and the applications left for the LLM tier (their
    [checked_paths] are not modelled). *)
Definition discover_all_apps (apps : list App) (hints_db : HintsDb)
    (skip_system_apps : bool) : list DiscoveryResult * list App :=
  fold_left
    (fun '(discovered, undiscovered) '(app_name, bundle_id) =>
       let is_system :=
         skip_system_apps &&
         ((truthy bundle_id &&
           match bundle_id with
           | Some b => existsb (fun p => startswith b p) system_patterns
           | None => false
           end)
          || existsb (fun p => startswith app_name p) system_patterns) in
       if is_system then (discovered, undiscovered)
       else
         let result := discover_app app_name bundle_id hints_db false in
         if has_settings result then (discovered ++ [result], undiscovered)
         else (discovered ++ [set_needs_llm_discovery result],
               undiscovered ++ [(app_name, bundle_id)]))
    apps ([], []).

End Discover.

(** ** Worked example: a small home directory *)

(** [Path.resolve()] on a tree without symlinks, from the root: [..]
    components are collapsed, the result is absolute. *)
Fixpoint collapse_dotdot (acc l : list string) : list string :=
  match l with
  | [] => acc
  | x :: l' =>
      if String.eqb x ".." then collapse_dotdot (removelast acc) l'
      else collapse_dotdot (acc ++ [x]) l'
  end.

Definition lexical_resolve (p : Path) : Path :=
  {| anchored := true; parts := collapse_dotdot [] (parts p) |}.

Definition example_env : Env :=
  {| e_resolve := lexical_resolve;
     e_stat_fails := fun _ => false;
     e_write_fails := fun _ => false;
     e_read_fails := fun _ => false;
     e_plist_to_xml := fun _ => None |}.

Definition example_patterns : SecurityPatterns :=
  {| exclude_files := ["id_rsa"; ".aws/credentials"];
     exclude_directories := [".cache/"; "node_modules/"];
     exclude_apps := [];
     exclude_by_pattern := ["*.key"];
     exclude_by_extension := ["*.pem"];
     exclude_by_size_max_mb := None |}.

Definition example_cb : @ConfigBackup litrun_engine :=
  {| output_dir := parse_path "/backup";
     include_secrets := false;
     normalize := true;
     security := example_patterns;
     compiled_patterns := [openai_rule] |}.

Definition example_nodes : gmap string Node :=
  list_to_map
    [("/backup", NDir 493%Z);
     ("/home", NDir 493%Z);
     ("/home/u", NDir 493%Z);
     ("/home/u/.zshrc", NFile 73%Z sample_line 420%Z);
     ("/home/u/app.sqlite", NFile 4096%Z "SQLite format 3" 420%Z);
     ("/home/u/.config", NDir 493%Z);
     ("/home/u/.config/app", NDir 493%Z);
     ("/home/u/.config/app/settings.json", NFile 2%Z "{}" 420%Z);
     ("/home/u/Library", NDir 493%Z);
     ("/home/u/Library/Logs", NDir 493%Z);
     ("/home/u/Library/Logs/app.log", NFile 15728640%Z "" 420%Z);
     ("/home/u/Library/Caches", NDir 493%Z);
     ("/home/u/Library/Caches/state.json", NFile 2%Z "{}" 420%Z)].

Definition example_world : World :=
  {| w_nodes := example_nodes; w_results := [] |}.

Definition no_chmod_faults : string -> bool := fun _ => false.
Definition all_chmod_fail : string -> bool := fun _ => true.

(** A case-insensitive volume holding [~/.docker/config.json]: both
    spellings of the directory exist, and resolution keeps the spelling it
    is given. *)
Definition docker_fs : FsView :=
  {| v_exists := fun p =>
       mem (lower (path_str p))
           ["/users/u"; "/users/u/.docker"; "/users/u/.docker/config.json"];
     v_is_file := fun p => String.eqb (lower (path_str p)) "/users/u/.docker/config.json";
     v_is_dir := fun p => mem (lower (path_str p)) ["/users/u"; "/users/u/.docker"];
     v_size := fun _ => Some 120%Z;
     v_resolve := lexical_resolve |}.

Definition tier_of (configuration_files xdg_configuration_files : list string)
  : TierResult :=
  {| t_configuration_files := configuration_files;
     t_xdg_configuration_files := xdg_configuration_files;
     t_bundle_id := None; t_install_method := None; t_extensions_cmd := None;
     t_exclude_files := []; t_notes := None; t_confidence := None;
     t_hints_key := None |}.

Definition docker_paths : TierResult :=
  tier_of [".Docker/config.json"; ".docker/config.json"] [].

(** A filesystem on which no path exists *)
Definition empty_fs : FsView :=
  {| v_exists := fun _ => false; v_is_file := fun _ => false;
     v_is_dir := fun _ => false; v_size := fun _ => None;
     v_resolve := lexical_resolve |}.

(** A hints database whose entry for Ghost declares no path: accepted by
    [load_hints_database], which reads a missing list as empty. *)
Definition ghost_hints : HintsDb :=
  [("ghost",
    {| t_configuration_files := []; t_xdg_configuration_files := [];
       t_bundle_id := None; t_install_method := Some "cask";
       t_extensions_cmd := None; t_exclude_files := [];
       t_notes := Some "no settings on disk"; t_confidence := None;
       t_hints_key := None |})].

(** ** More of utils/path_safety.py and of discovery/hints.py *)

(** [s.replace("..", "")]: non-overlapping occurrences, left to right *)
Fixpoint remove_dotdot (s : string) : string :=
  match s with
  | EmptyString => EmptyString
  | String c t =>
      match t with
      | String d r =>
          if Ascii.eqb c "." && Ascii.eqb d "." then remove_dotdot r
          else String c (remove_dotdot t)
      | EmptyString => String c EmptyString
      end
  end.

(** [s.lstrip(chars)] and [s.rstrip(chars)], the set given as a test *)
Fixpoint lstrip_chars (f : ascii -> bool) (s : string) : string :=
  match s with
  | EmptyString => EmptyString
  | String c r => if f c then lstrip_chars f r else s
  end.

Fixpoint rstrip_chars (f : ascii -> bool) (s : string) : string :=
  match s with
  | EmptyString => EmptyString
  | String c r =>
      match rstrip_chars f r with
      | EmptyString => if f c then EmptyString else String c EmptyString
      | r' => String c r'
      end
  end.

(** [s.strip(chars)] *)
Definition strip_chars (f : ascii -> bool) (s : string) : string :=
  rstrip_chars f (lstrip_chars f s).

Definition is_dash_or_dot (c : ascii) : bool :=
  Ascii.eqb c "-" || Ascii.eqb c ".".

(** [sanitize_path_component(name)] *)
Definition sanitize_path_component (name : string) : string :=
  let sanitized := remove_dotdot name in
  let sanitized :=
    replace_char (ascii_of_nat 92) "-" (replace_char "/" "-" sanitized) in
  let sanitized := replace_char " " "-" (lower sanitized) in
  let sanitized := strip_chars is_dash_or_dot sanitized in
  if String.eqb sanitized "" then "unnamed" else sanitized.

(** The relative destination main.py builds for a discovered path:
    [f"{category}/{folder_key}/{tier_folder}/{path.name}"] with the folder
    key sanitized first. *)
Definition tier_rel_path (category folder_key tier_folder path_name : string) : string :=
  category +:+ "/" +:+ sanitize_path_component folder_key +:+ "/" +:+
  tier_folder +:+ "/" +:+ path_name.

(** [PathSecurityError], with the two messages of [validate_path_security]:
    [f"Absolute paths not allowed in {context}: {path}"] and
    [f"Directory traversal not allowed in {context}: {path}"]. *)
Inductive PathSecurityError :=
| AbsolutePathNotAllowed (context path : string)
| DirectoryTraversalNotAllowed (context path : string).

(** [validate_path_security(path, context)]: [Some e] is the raised error *)
Definition validate_path_security (path context : string) : option PathSecurityError :=
  if startswith path "/" then Some (AbsolutePathNotAllowed context path)
  else if contains ".." path then Some (DirectoryTraversalNotAllowed context path)
  else None.

(** What [load_hints_database] can meet: no file ([FileNotFoundError]), a
    file that is not YAML ([yaml.YAMLError]), an empty document, or a
    mapping from application keys to entries, an entry being a mapping or
    [null]. *)
Inductive HintsFile :=
| HFMissing
| HFMalformed
| HFLoaded (doc : option (list (string * option TierResult))).

Inductive HintsLoadError :=
| HintsFileNotFound
| HintsYamlError
| HintsPathSecurity (e : PathSecurityError).

(** The first error raised by a loop of [validate_path_security] calls *)
Definition first_violation (context : string) (paths : list string)
  : option PathSecurityError :=
  List.fold_left (fun acc path =>
                    match acc with
                    | Some e => Some e
                    | None => validate_path_security path context
                    end) paths None.

(** The validation loop of [load_hints_database] over the entries *)
Fixpoint validate_entries (hints : list (string * option TierResult))
  : option PathSecurityError :=
  match hints with
  | [] => None
  | (app_name, None) :: rest => validate_entries rest
  | (app_name, Some config) :: rest =>
      match first_violation (app_name +:+ " configuration_files")
                            (t_configuration_files config) with
      | Some e => Some e
      | None =>
          match first_violation (app_name +:+ " xdg_configuration_files")
                                (t_xdg_configuration_files config) with
          | Some e => Some e
          | None => validate_entries rest
          end
      end
  end.

(** [load_hints_database(hints_path)] *)
Definition load_hints_database (f : HintsFile)
  : HintsLoadError + list (string * option TierResult) :=
  match f with
  | HFMissing => inl HintsFileNotFound
  | HFMalformed => inl HintsYamlError
  | HFLoaded None => inr []
  | HFLoaded (Some hints) =>
      match validate_entries hints with
      | Some e => inl (HintsPathSecurity e)
      | None => inr hints
      end
  end.

(** [resolve_app_paths(app_config, check_exists)] (discovery/hints.py),
    with home and the XDG directory given. *)
Definition resolve_app_paths (fs : FsView) (home xdg_config_home : Path)
    (app_config : TierResult) (check_exists : bool) : list Path :=
  let keep (base : Path) (paths : list Path) (path : string) :=
    let resolved := joinpath base (parse_path path) in
    if negb check_exists || v_exists fs resolved then paths ++ [resolved] else paths in
  fold_left (keep xdg_config_home) (t_xdg_configuration_files app_config)
    (fold_left (keep home) (t_configuration_files app_config) []).

(** ** More of backup/security.py, discovery/config_filter.py,
    discovery/merge.py and backup/config_backup.py *)

(** [ExclusionChecker.should_exclude_app(app_name)]; the reason is
    [f"Application in exclude_apps: {excluded_app}"]. *)
Definition should_exclude_app (pats : SecurityPatterns) (app_name : string)
  : bool * option string :=
  match List.find (fun excluded_app => String.eqb (lower app_name) (lower excluded_app))
                  (exclude_apps pats) with
  | Some excluded_app => (true, Some ("Application in exclude_apps: " +:+ excluded_app))
  | None => (false, None)
  end.

(** An entry of the rejection list of [filter_paths]: path, reason and
    type (['file'] or ['directory']). *)
Record Rejection := {
  rej_path : string;
  rej_reason : FilterReason;
  rej_type : string
}.

(** [ConfigFilter.filter_paths(paths, include_directories)] *)
Definition filter_paths {FN : Fnmatch} (fs : FsView) (cf : ConfigFilter)
    (paths : list Path) (include_directories : bool)
  : list Path * list Rejection :=
  fold_left
    (fun '(valid_paths, rejected) path =>
       if v_is_file fs path then
         let '(is_valid, reason) := is_config_file fs cf path in
         if is_valid then (valid_paths ++ [path], rejected)
         else (valid_paths,
               rejected ++ [{| rej_path := path_str path; rej_reason := reason;
                               rej_type := "file" |}])
       else if v_is_dir fs path && include_directories then
         let '(is_valid, reason) := is_config_directory fs cf path in
         if is_valid then (valid_paths ++ [path], rejected)
         else (valid_paths,
               rejected ++ [{| rej_path := path_str path; rej_reason := reason;
                               rej_type := "directory" |}])
       else (valid_paths, rejected))
    paths ([], []).

Definition important_keywords : list string :=
  ["code"; "studio"; "editor"; "ide"; "terminal"; "iterm";
   "docker"; "postgres"; "mysql"; "redis"; "mongo";
   "slack"; "notion"; "obsidian"; "craft"; "bear";
   "alfred"; "raycast"; "keyboard"; "karabiner";
   "git"; "github"; "tower"; "fork"; "sourcetree";
   "postman"; "insomnia"; "charles"; "proxyman";
   "figma"; "sketch"; "affinity";
   "zoom"; "teams"; "webex";
   "1password"; "bitwarden"; "keychain";
   "homebrew"; "brew"].

Definition skip_patterns : list string :=
  ["helper"; "agent"; "daemon"; "service"; "updater";
   "crash"; "diagnostic"; "feedback"; "analytics";
   "install"; "uninstall"; "setup"; "wizard"].

(** [importance_score(app)] of [filter_by_importance] *)
Definition importance_score (app : App) : Z :=
  let name := lower (fst app) in
  if existsb (fun pattern => contains pattern name) skip_patterns then (-1)%Z
  else
    let score :=
      fold_left (fun score keyword =>
                   if contains keyword name then (score + 10)%Z else score)
                important_keywords 0%Z in
    if truthy (snd app) then (score + 5)%Z else score.

(** [list.sort(key=..., reverse=True)]: stable, highest key first *)
Fixpoint insert_desc {A} (key : A -> Z) (x : A) (l : list A) : list A :=
  match l with
  | [] => [x]
  | y :: l' =>
      if (key y <? key x)%Z then x :: y :: l'
      else y :: insert_desc key x l'
  end.

Definition sort_desc {A} (key : A -> Z) (l : list A) : list A :=
  fold_left (fun acc x => insert_desc key x acc) l [].

(** [filter_by_importance(undiscovered, max_apps)], for [max_apps >= 0] *)
Definition filter_by_importance (undiscovered : list App) (max_apps : nat) : list App :=
  let scored_apps := map (fun app => (app, importance_score app)) undiscovered in
  let scored_apps := List.filter (fun x => (0 <=? snd x)%Z) scored_apps in
  let scored_apps := sort_desc snd scored_apps in
  map fst (firstn max_apps scored_apps).

Section BackupAll.
Context {RE : RegexEngine} {FN : Fnmatch}.
Variable env : Env.
Variable chmod_fails : string -> bool.
Variable config_patterns : PatternsFile.

(** [ConfigBackup.backup_path(source, relative_dest, filter_secrets,
    discovery_tier, exclude_patterns)] *)
Definition backup_path (cb : ConfigBackup) (source : Path) (relative_dest : string)
    (filter_secrets : option bool) (discovery_tier : string)
    (exclude_patterns : option (list string)) (w : World) : ItemResult * World :=
  if v_is_dir (view_of env (w_nodes w)) source
  then backup_directory env chmod_fails config_patterns cb source relative_dest
         filter_secrets discovery_tier exclude_patterns w
  else backup_file env chmod_fails config_patterns cb source relative_dest
         filter_secrets discovery_tier exclude_patterns w.

(** [ConfigBackup.__init__]: the output directory is created, the result
    list starts empty; [inl] is the [OSError] of a failed [mkdir]. *)
Definition ConfigBackup_init (cb : ConfigBackup) (nodes : gmap string Node)
  : string + World :=
  match mkdir_p env (output_dir cb) nodes with
  | (inr _, nodes') => inr {| w_nodes := nodes'; w_results := [] |}
  | (inl msg, _) => inl msg
  end.

(** [backup_all_configs(configs, output_dir, include_secrets)]: [configs]
    are the (source, dest) pairs; the [ConfigBackup] it constructs
    normalizes permissions.  Returns the summary, the results and the
    final filesystem. *)
Definition backup_all_configs (security : SecurityPatterns)
    (compiled_patterns : list Rule) (configs : list (Path * string))
    (output_dir : Path) (include_secrets : bool) (nodes : gmap string Node)
  : string + (Summary * list ItemResult * gmap string Node) :=
  let backup :=
    {| output_dir := output_dir; include_secrets := include_secrets;
       normalize := true; security := security;
       compiled_patterns := compiled_patterns |} in
  match ConfigBackup_init backup nodes with
  | inl msg => inl msg
  | inr w0 =>
      let w :=
        fold_left (fun w '(source, dest) =>
                     snd (backup_path backup source dest None "unknown" None w))
                  configs w0 in
      inr (get_summary backup w, w_results w, w_nodes w)
  end.

End BackupAll.

(** ** Specification vocabulary *)

(** The relative destinations the specification wants rejected: absolute,
    or with a [..] segment, or resolving outside the resolved base. *)
Definition escapes (fs : FsView) (base : Path) (rel : string) : Prop :=
  startswith rel "/" = true \/
  In ".." (split_on "/" rel) \/
  is_relative_to (v_resolve fs (joinpath base (parse_path rel)))
                 (v_resolve fs base) = false.

(** The first cache/log/crash/temp pattern found in the lowered path
    string, as the loop of [is_pure_config] finds it. *)
Definition cache_hit (path : Path) : option string :=
  List.find (fun pattern => contains pattern (lower (path_str path))) cache_patterns.

(** The size check of [is_pure_config] lets the path through: not a
    regular file, or a readable size within the limit. *)
Definition size_ok (pats : SecurityPatterns) (fs : FsView) (path : Path) : Prop :=
  v_is_file fs path = false \/
  exists sz, v_size fs path = Some sz /\ too_large sz (max_file_size_mb pats) = false.

(** What the walk of [normalize_permissions] does to the entry [n] found
    at [p] when [target] is a directory: below the target, and unless its
    [chmod] is refused, directories get [DIR_MODE] and everything else
    [FILE_MODE]. *)
Definition walked (chmod_fails : string -> bool) (target : Path) (p : string)
    (n : Node) : Node :=
  if is_under target p && negb (chmod_fails p)
  then set_mode (if node_is_dir n then DIR_MODE else FILE_MODE) n
  else n.

(** A tier dictionary is keyed by the dedup key of the path it stores,
    each key once. *)
Definition tier_inv (fs : FsView) (m : Dict Path) : Prop :=
  List.NoDup (map fst m) /\
  Forall (fun kv => fst kv = normalize_path_for_dedup fs (snd kv)) m.

(** A kept lower-tier path went through the classifier: a regular file
    passed [is_config_file], a directory passed [is_config_directory]. *)
Definition classified {FN : Fnmatch} (fs : FsView) (cf : ConfigFilter) (v : Path) : Prop :=
  (v_is_file fs v = true -> fst (is_config_file fs cf v) = true) /\
  (v_is_file fs v = false -> v_is_dir fs v = true ->
   fst (is_config_directory fs cf v) = true).

(** A tier declared no path at all *)
Definition declares_nothing (t : option TierResult) : Prop :=
  match t with
  | Some r => t_configuration_files r = [] /\ t_xdg_configuration_files r = []
  | None => True
  end.

(** What the merge maintains about its three tier dictionaries *)
Definition tier_maps_ok {FN : Fnmatch} (fs : FsView) (cf : ConfigFilter)
    (st : MergeState) : Prop :=
  tier_inv fs (hints_paths_map st) /\
  tier_inv fs (conventions_paths_map st) /\
  tier_inv fs (llm_paths_map st) /\
  Forall (classified fs cf) (dict_values (conventions_paths_map st)) /\
  Forall (classified fs cf) (dict_values (llm_paths_map st)).

(** One of the two generic path dictionaries holds an entry. *)
Definition maps_nonempty (st : MergeState) : bool :=
  nonempty (config_files_map st) || nonempty (xdg_files_map st).

(** ** More specification vocabulary *)

(** Every character of the string passes the test. *)
Fixpoint all_chars (f : ascii -> bool) (s : string) : bool :=
  match s with
  | EmptyString => true
  | String c r => f c && all_chars f r
  end.

Definition starts_dot (s : string) : bool :=
  match s with
  | String c _ => Ascii.eqb c "."
  | EmptyString => false
  end.

(** Two dots in a row somewhere in the string *)
Fixpoint adjacent_dots (s : string) : bool :=
  match s with
  | EmptyString => false
  | String c t => (Ascii.eqb c "." && starts_dot t) || adjacent_dots t
  end.

(** A character a sanitized component may hold: no separator, no space,
    no upper-case letter. *)
Definition component_char (c : ascii) : bool :=
  negb (Ascii.eqb c "/") && negb (Ascii.eqb c (ascii_of_nat 92))
  && negb (Ascii.eqb c " ") && negb (is_upper c).

(** The first and the last character of a string, if any *)
Definition first_char (s : string) : option ascii :=
  match s with
  | String c _ => Some c
  | EmptyString => None
  end.

Fixpoint last_char (s : string) : option ascii :=
  match s with
  | EmptyString => None
  | String c r => match last_char r with Some d => Some d | None => Some c end
  end.

(** Every path a hints document declares, home-relative or XDG-relative,
    is relative and free of [..]. *)
Definition declared_paths_safe (hints : list (string * option TierResult)) : Prop :=
  forall app_name config path,
    In (app_name, Some config) hints ->
    In path (t_configuration_files config ++ t_xdg_configuration_files config) ->
    startswith path "/" = false /\ contains ".." path = false.

(** A generic path dictionary of the merge is keyed by the normalised
    form of the path it stores, each key once, and stores its paths
    without trailing slashes. *)
Definition generic_inv (m : Dict string) : Prop :=
  List.NoDup (map fst m) /\
  Forall (fun kv => fst kv = normalize_config_path (snd kv) /\
                    rstrip_slash (snd kv) = snd kv) m.

(** Ascending in the byte order of the sort keys *)
Definition ascending {A} (key : A -> string) (l : list A) : Prop :=
  Sorted (fun a b => String.ltb (key b) (key a) = false) l.

(** The tier results a merge reads: hints and conventions always, the
    LLM result only for an application that is not in the hints. *)
Definition tier_read (h c l : option TierResult) (t : TierResult) : Prop :=
  h = Some t \/ c = Some t \/ (h = None /\ l = Some t).

(** What a tier loop keeps true of the two generic dictionaries *)
Definition generic_ok (st : MergeState) : Prop :=
  generic_inv (config_files_map st) /\ generic_inv (xdg_files_map st).

(** The tier dictionaries hold pairwise different keys: nothing kept for
    the conventions tier is in the hints tier, and nothing kept for the
    LLM tier is in either of the other two. *)
Definition tiers_apart (st : MergeState) : Prop :=
  (forall k, dict_has k (conventions_paths_map st) = true ->
             dict_has k (hints_paths_map st) = false) /\
  (forall k, dict_has k (llm_paths_map st) = true ->
             dict_has k (hints_paths_map st) = false /\
             dict_has k (conventions_paths_map st) = false).

(** Does [safe_join] accept the relative destination? *)
Definition dest_accepted (fs : FsView) (base : Path) (relative : string) : bool :=
  match safe_join fs base relative with
  | inr _ => true
  | inl _ => false
  end.
(** * Properties

    ** Strings *)

Lemma string_length_take n s : String.length (take n s) = Nat.min n (String.length s).
Proof.
  revert s; induction n as [|n IH]; intros [|c s]; simpl; auto.
Qed.

Lemma string_length_drop n s : String.length (drop n s) = String.length s - n.
Proof.
  revert s; induction n as [|n IH]; intros [|c s]; simpl; auto.
Qed.

Lemma string_app_cons c (a b : string) : String c a +:+ b = String c (a +:+ b).
Proof. reflexivity. Qed.

Lemma string_app_nil_l (b : string) : "" +:+ b = b.
Proof. reflexivity. Qed.

Lemma string_length_app (a b : string) :
  String.length (a +:+ b) = String.length a + String.length b.
Proof.
  induction a as [|c a IH]; [reflexivity|].
  rewrite string_app_cons. simpl. now rewrite IH.
Qed.

Lemma string_take_drop n s : take n s +:+ drop n s = s.
Proof.
  revert s; induction n as [|n IH]; intros [|c s]; try reflexivity.
  simpl take; simpl drop. now rewrite string_app_cons, IH.
Qed.

Lemma lower_app a b : lower (a +:+ b) = lower a +:+ lower b.
Proof.
  induction a as [|c a IH]; [reflexivity|].
  rewrite string_app_cons. simpl lower. now rewrite string_app_cons, IH.
Qed.

Lemma prefix_lower n h :
  String.prefix n h = true -> String.prefix (lower n) (lower h) = true.
Proof.
  revert h; induction n as [|c n IH]; intros [|d h] H; simpl in *;
    try reflexivity; try discriminate.
  destruct (ascii_dec c d) as [->|ne]; [|discriminate].
  destruct (ascii_dec (lower_ascii d) (lower_ascii d)); [auto|congruence].
Qed.

Lemma contains_lower n h :
  contains n h = true -> contains (lower n) (lower h) = true.
Proof.
  induction h as [|d h IH]; simpl; intros H.
  - apply orb_true_iff in H as [H|H]; [|discriminate].
    apply orb_true_iff; left. now apply (prefix_lower n "").
  - apply orb_true_iff in H as [H|H]; apply orb_true_iff.
    + left. now apply (prefix_lower n (String d h)).
    + right. auto.
Qed.

Lemma prefix_app n b : String.prefix n (n +:+ b) = true.
Proof.
  induction n as [|c n IH]; [now destruct b|].
  rewrite string_app_cons. simpl.
  destruct (ascii_dec c c); [auto|congruence].
Qed.

Lemma contains_prefix n h : String.prefix n h = true -> contains n h = true.
Proof. intros H. destruct h; simpl in *; now rewrite H. Qed.

Lemma contains_app n a b : contains n (a +:+ n +:+ b) = true.
Proof.
  induction a as [|c a IH].
  - rewrite string_app_nil_l. apply contains_prefix, prefix_app.
  - rewrite string_app_cons. simpl. rewrite IH. apply orb_true_r.
Qed.

Lemma mem_In x l : mem x l = true <-> In x l.
Proof.
  unfold mem. rewrite existsb_exists. split.
  - intros (y & Hy & E). apply String.eqb_eq in E. now subst.
  - intros H. exists x. split; auto. apply String.eqb_refl.
Qed.


(** ** Secret redaction *)

Lemma string_length_take_last n s :
  String.length (take_last n s) = Nat.min n (String.length s).
Proof.
  unfold take_last. rewrite string_length_drop.
  destruct (Nat.min_spec n (String.length s)) as [[? ->]|[? ->]]; lia.
Qed.

Lemma truncate_secret_long v :
  (20 < String.length v)%nat ->
  truncate_secret v = take 8 v +:+ "..." +:+ take_last 4 v.
Proof.
  intros H. unfold truncate_secret, truncate_secret_len.
  destruct (Nat.leb_spec (String.length v) 20); [lia|reflexivity].
Qed.

Lemma truncate_secret_middle v :
  (8 < String.length v <= 20)%nat -> truncate_secret v = take 4 v +:+ "...".
Proof.
  intros H. unfold truncate_secret, truncate_secret_len.
  destruct (Nat.leb_spec (String.length v) 20); [|lia].
  destruct (Nat.ltb_spec 8 (String.length v)); [reflexivity|lia].
Qed.

Lemma truncate_secret_short v :
  (String.length v <= 8)%nat -> truncate_secret v = "...".
Proof.
  intros H. unfold truncate_secret, truncate_secret_len.
  destruct (Nat.leb_spec (String.length v) 20); [|lia].
  destruct (Nat.ltb_spec 8 (String.length v)); [lia|reflexivity].
Qed.

Lemma truncate_secret_shorter v :
  (8 < String.length v)%nat ->
  (String.length (truncate_secret v) < String.length v)%nat.
Proof.
  intros H. destruct (Nat.le_gt_cases (String.length v) 20).
  - rewrite truncate_secret_middle by lia.
    rewrite string_length_app, string_length_take.
    destruct (Nat.min_spec 4 (String.length v)) as [[? ->]|[? ->]];
      simpl; lia.
  - rewrite truncate_secret_long by lia.
    rewrite !string_length_app, string_length_take, string_length_take_last.
    destruct (Nat.min_spec 8 (String.length v)) as [[? ->]|[? ->]];
      destruct (Nat.min_spec 4 (String.length v)) as [[? ->]|[? ->]];
      simpl; lia.
Qed.

(** C5, as stated, fails: a 12-character value is at most 20 characters
    long, yet its truncation is not the generic placeholder but its first
    four characters followed by the ellipsis. *)
Lemma truncate_secret_not_spec_truncate :
  truncate_secret "abcdefghijkl" = "abcd..." /\
  spec_truncate "abcdefghijkl" = "..." /\
  truncate_secret "abcdefghijkl" <> spec_truncate "abcdefghijkl".
Proof. repeat split; try reflexivity. discriminate. Qed.

(** C5, amended: the stored truncation is the first 8 characters, an
    ellipsis and the last 4 characters for values longer than 20; the
    first 4 characters and an ellipsis for values of 9 to 20 characters;
    the fixed placeholder for values of at most 8 characters.  It is
    strictly shorter than every value longer than 8 characters, and it
    equals the value only when the value is itself the placeholder. *)
Theorem truncate_secret_cases (v : string) :
  ((20 < String.length v)%nat ->
     truncate_secret v = take 8 v +:+ "..." +:+ take_last 4 v) /\
  ((8 < String.length v <= 20)%nat ->
     truncate_secret v = take 4 v +:+ "...") /\
  ((String.length v <= 8)%nat -> truncate_secret v = "...") /\
  ((8 < String.length v)%nat ->
     (String.length (truncate_secret v) < String.length v)%nat) /\
  (v <> "..." -> truncate_secret v <> v).
Proof.
  split; [apply truncate_secret_long|].
  split; [apply truncate_secret_middle|].
  split; [apply truncate_secret_short|].
  split; [apply truncate_secret_shorter|].
  intros Hv E. destruct (Nat.le_gt_cases (String.length v) 8) as [Hs|Hl].
  - rewrite truncate_secret_short in E by assumption. congruence.
  - pose proof (truncate_secret_shorter v Hl) as Hlt. rewrite E in Hlt. lia.
Qed.

Lemma truncate_secret_cases_witness :
  truncate_secret "sk-1234567890abcdefghijklmnopqrstuvwxyz1234567890AB"
    = "sk-12345...90AB" /\
  truncate_secret "abcdefghijkl" = "abcd..." /\
  truncate_secret "hunter2" = "..." /\
  (String.length (truncate_secret "abcdefghijkl") < 12)%nat /\
  truncate_secret "hunter2" <> "hunter2".
Proof.
  split; [|split; [|split; [|split]]].
  - apply (proj1 (truncate_secret_cases
       "sk-1234567890abcdefghijklmnopqrstuvwxyz1234567890AB")). simpl; lia.
  - apply (proj1 (proj2 (truncate_secret_cases "abcdefghijkl"))). simpl; lia.
  - apply (proj1 (proj2 (proj2 (truncate_secret_cases "hunter2")))). simpl; lia.
  - apply (proj1 (proj2 (proj2 (proj2 (truncate_secret_cases "abcdefghijkl"))))).
    simpl; lia.
  - apply (proj2 (proj2 (proj2 (proj2 (truncate_secret_cases "hunter2"))))).
    discriminate.
Defined.

Section SecretFilterProps.
Context {RE : RegexEngine}.

Lemma fold_left_snoc {A B} (f : A -> B) (l : list A) (init : list B) :
  fold_left (fun acc x => acc ++ [f x]) l init = init ++ map f l.
Proof.
  revert init; induction l as [|x l IH]; intros init; simpl.
  - now rewrite app_nil_r.
  - rewrite IH, <- app_assoc. reflexivity.
Qed.

Lemma filter_step_eq fname text acc name pat repl :
  filter_step fname (text, acc) (name, pat, repl) =
  (re_sub pat repl text,
   acc ++ map (change_of name text fname) (re_finditer pat text)).
Proof. unfold filter_step. now rewrite fold_left_snoc. Qed.

Lemma filter_fold_acc fname rules text acc :
  fold_left (filter_step fname) rules (text, acc) =
  (fst (fold_left (filter_step fname) rules (text, [])),
   acc ++ snd (fold_left (filter_step fname) rules (text, []))).
Proof.
  revert text acc; induction rules as [|[[name pat] repl] rules IH];
    intros text acc.
  - simpl. now rewrite app_nil_r.
  - cbn [fold_left]. rewrite !filter_step_eq.
    rewrite IH. rewrite (IH _ ([] ++ _)). simpl. now rewrite app_assoc.
Qed.

(** C4.  [filter_content] runs the compiled rules in their declared order.
    For the rule at the head it records one Change per match found by
    [finditer] in the text as it stands (so after the substitutions of all
    earlier rules), in match order, with line number the count of newlines
    before the match start plus one; only then does it substitute, and the
    remaining rules run on the substituted text, their Changes following. *)
Theorem filter_content_rule_order (content : string) (filename : option string) :
  filter_content [] content filename = (content, []) /\
  (forall name pat repl rest,
     filter_content ((name, pat, repl) :: rest) content filename =
       (fst (filter_content rest (re_sub pat repl content) filename),
        map (change_of name content filename) (re_finditer pat content) ++
        snd (filter_content rest (re_sub pat repl content) filename))) /\
  (forall name m,
     c_line (change_of name content filename m) =
       (count_char newline (take (m_start m) content) + 1)%nat /\
     c_original (change_of name content filename m) =
       truncate_secret (group m content)).
Proof.
  split; [reflexivity|]. split.
  - intros name pat repl rest. unfold filter_content. cbn [fold_left].
    rewrite filter_step_eq, filter_fold_acc. reflexivity.
  - intros name m. split; reflexivity.
Qed.

(** The number of Changes is the number of matches, rule pass by rule pass. *)
Lemma filter_content_change_count name pat repl rest content filename :
  length (snd (filter_content ((name, pat, repl) :: rest) content filename)) =
  (length (re_finditer pat content) +
   length (snd (filter_content rest (re_sub pat repl content) filename)))%nat.
Proof.
  destruct (filter_content_rule_order content filename) as (_ & H & _).
  rewrite H. simpl. now rewrite length_app, length_map.
Qed.

End SecretFilterProps.

(** The shell export of the end-to-end scenario: the key name survives, the
    value is replaced and exactly one Change, on line 1, is recorded. *)
Example filter_content_openai_line :
  @filter_content litrun_engine [openai_rule] sample_line (Some "zshrc") =
  ("export OPENAI_API_KEY=<REDACTED_OPENAI_KEY>",
   [{| c_pattern := "openai_key"; c_original := "sk-12345...90AB";
       c_line := 1; c_filename := Some "zshrc" |}]).
Proof. reflexivity. Qed.

(** A later rule matches inside the replacement text of an earlier one:
    with the key-word rule second it fires twice, once in the variable name
    and once inside the placeholder the first rule wrote; with the key-word
    rule first it fires once only. *)
Example filter_content_later_rule_sees_replacement :
  fst (@filter_content litrun_engine [openai_rule; key_word_rule] sample_line None)
    = "export OPENAI_API_<K>=<REDACTED_OPENAI_<K>>" /\
  length (snd (@filter_content litrun_engine [openai_rule; key_word_rule]
                 sample_line None)) = 3%nat /\
  fst (@filter_content litrun_engine [key_word_rule; openai_rule] sample_line None)
    = "export OPENAI_API_<K>=<REDACTED_OPENAI_KEY>" /\
  length (snd (@filter_content litrun_engine [key_word_rule; openai_rule]
                 sample_line None)) = 2%nat.
Proof. repeat split; reflexivity. Qed.

(** ** Path safety *)

Lemma dotdot_segment rel :
  In ".." (split_on "/" rel) <-> In ".." (parts (parse_path rel)).
Proof.
  unfold parse_path; simpl. rewrite filter_In. split.
  - intros H. split; [assumption|reflexivity].
  - intros [H _]. assumption.
Qed.

Lemma validate_relative_path_false rel :
  startswith rel "/" = true \/ In ".." (split_on "/" rel) ->
  validate_relative_path rel = false.
Proof.
  intros [H|H]; unfold validate_relative_path, is_absolute.
  - unfold parse_path at 1. simpl. now rewrite H.
  - destruct (anchored (parse_path rel)); [reflexivity|].
    apply dotdot_segment, mem_In in H. now rewrite H.
Qed.

Lemma safe_join_raises fs base rel :
  escapes fs base rel -> exists e, safe_join fs base rel = inl e.
Proof.
  intros H. unfold safe_join.
  destruct (validate_relative_path rel) eqn:V; simpl.
  - destruct H as [H|[H|H]].
    + rewrite validate_relative_path_false in V by auto. discriminate.
    + rewrite validate_relative_path_false in V by auto. discriminate.
    + rewrite H. eauto.
  - eauto.
Qed.

(** [safe_join] accepts exactly the destinations that do not escape. *)
Lemma safe_join_returns fs base rel dest :
  safe_join fs base rel = inr dest ->
  validate_relative_path rel = true /\
  dest = v_resolve fs (joinpath base (parse_path rel)) /\
  is_relative_to dest (v_resolve fs base) = true.
Proof.
  unfold safe_join. destruct (validate_relative_path rel); simpl; [|discriminate].
  destruct (is_relative_to _ _) eqn:E; [|discriminate].
  intros [= <-]. auto.
Qed.

Section BackupRejection.
Context {RE : RegexEngine} {FN : Fnmatch}.
Variable env : Env.
Variable chmod_fails : string -> bool.
Variable config_patterns : PatternsFile.
Variable cb : ConfigBackup.

Lemma backup_file_rejected source rel fsec tier excl w e :
  safe_join (view_of env (w_nodes w)) (output_dir cb) rel = inl e ->
  backup_file env chmod_fails config_patterns cb source rel fsec tier excl w =
  (rejected_result source rel e tier, w).
Proof. intros H. unfold backup_file. now rewrite H. Qed.

Lemma backup_directory_rejected source rel fsec tier excl w e :
  safe_join (view_of env (w_nodes w)) (output_dir cb) rel = inl e ->
  backup_directory env chmod_fails config_patterns cb source rel fsec tier excl w =
  (rejected_result source rel e tier, w).
Proof. intros H. unfold backup_directory. now rewrite H. Qed.

Lemma append_result_spec (r : ItemResult) nodes w :
  fst (append_result r nodes w) = r /\
  w_results (snd (append_result r nodes w)) = w_results w ++ [r] /\
  w_nodes (snd (append_result r nodes w)) = nodes.
Proof. repeat split. Qed.

Lemma backup_file_appends source rel fsec tier excl w dest :
  safe_join (view_of env (w_nodes w)) (output_dir cb) rel = inr dest ->
  w_results (snd (backup_file env chmod_fails config_patterns cb
                    source rel fsec tier excl w)) =
  w_results w ++ [fst (backup_file env chmod_fails config_patterns cb
                         source rel fsec tier excl w)].
Proof.
  intros H. unfold backup_file. rewrite H.
  destruct (negb (v_exists _ source)); [reflexivity|].
  match goal with
  | |- context [match ?t with Some _ => _ | None => _ end] => destruct t
  end; [reflexivity|].
  destruct (can_backup _ _ source) as [can reason].
  destruct (negb can); [reflexivity|].
  destruct (backup_file_body _ _ _ _ _ _ _ _) as [[r raised] nodes].
  reflexivity.
Qed.

Lemma backup_directory_appends source rel fsec tier excl w dest :
  safe_join (view_of env (w_nodes w)) (output_dir cb) rel = inr dest ->
  w_results (snd (backup_directory env chmod_fails config_patterns cb
                    source rel fsec tier excl w)) =
  w_results w ++ [fst (backup_directory env chmod_fails config_patterns cb
                         source rel fsec tier excl w)].
Proof.
  intros H. unfold backup_directory. rewrite H.
  destruct (negb (v_exists _ source)); [reflexivity|].
  match goal with
  | |- context [match ?t with Some _ => _ | None => _ end] => destruct t
  end; [reflexivity|].
  destruct (can_backup _ _ source) as [can reason].
  destruct (negb can); [reflexivity|].
  destruct (fold_left _ _ _) as [r nodes].
  reflexivity.
Qed.

(** C1.  A relative destination that is absolute, has a [..] segment or
    resolves outside the resolved base makes [safe_join] raise
    [PathTraversalError]; [safe_join] only reads the filesystem, and a
    [backup_file] or [backup_directory] call with such a destination
    returns a result whose status is [error] (so not [success]) and leaves
    the filesystem and the result list exactly as they were: nothing is
    written, inside or outside the output root. *)
Theorem traversal_rejected_before_any_write source rel fsec tier excl w :
  escapes (view_of env (w_nodes w)) (output_dir cb) rel ->
  (exists e,
     safe_join (view_of env (w_nodes w)) (output_dir cb) rel = inl e /\
     backup_file env chmod_fails config_patterns cb source rel fsec tier excl w
       = (rejected_result source rel e tier, w) /\
     backup_directory env chmod_fails config_patterns cb source rel fsec tier excl w
       = (rejected_result source rel e tier, w)) /\
  r_status (fst (backup_file env chmod_fails config_patterns cb
                   source rel fsec tier excl w)) <> Success /\
  r_status (fst (backup_directory env chmod_fails config_patterns cb
                   source rel fsec tier excl w)) <> Success /\
  snd (backup_file env chmod_fails config_patterns cb
         source rel fsec tier excl w) = w /\
  snd (backup_directory env chmod_fails config_patterns cb
         source rel fsec tier excl w) = w.
Proof.
  intros H. destruct (safe_join_raises _ _ _ H) as [e He].
  rewrite (backup_file_rejected source rel fsec tier excl w e He).
  rewrite (backup_directory_rejected source rel fsec tier excl w e He).
  split; [exists e; auto|].
  repeat split; simpl; discriminate.
Qed.


End BackupRejection.

Lemma traversal_rejected_before_any_write_witness :
  r_status (fst (@backup_file litrun_engine glob_fnmatch example_env all_chmod_fail
                   PFMissing example_cb (parse_path "/home/u/.zshrc")
                   "../../etc/passwd" None "hints" None example_world)) <> Success /\
  snd (@backup_file litrun_engine glob_fnmatch example_env all_chmod_fail
         PFMissing example_cb (parse_path "/home/u/.zshrc")
         "../../etc/passwd" None "hints" None example_world) = example_world.
Proof.
  assert (H : escapes (view_of example_env (w_nodes example_world))
                      (output_dir example_cb) "../../etc/passwd").
  { right; left. simpl. auto. }
  pose proof (@traversal_rejected_before_any_write litrun_engine glob_fnmatch
                example_env all_chmod_fail PFMissing example_cb
                (parse_path "/home/u/.zshrc") "../../etc/passwd" None "hints" None
                example_world H) as T.
  split; [exact (proj1 (proj2 T)) | exact (proj1 (proj2 (proj2 (proj2 T))))].
Defined.

(** ** Exclusion policy *)

Lemma find_first_match {A} (f : A -> bool) (l : list A) (x : A) :
  In x l -> f x = true -> exists y, List.find f l = Some y /\ In y l /\ f y = true.
Proof.
  induction l as [|a l IH]; simpl; [tauto|].
  intros [->|Hin] Hf.
  - rewrite Hf. eauto.
  - destruct (f a) eqn:Fa; [eauto|].
    destruct (IH Hin Hf) as (y & Hy & Hyl & Hfy). eauto.
Qed.

Section ExclusionOrder.
Context {FN : Fnmatch}.
Variable pats : SecurityPatterns.

Lemma is_pure_config_cache fs path max pat :
  cache_hit path = Some pat ->
  is_pure_config fs path max = (false, Some (MatchesExcludedPattern pat)).
Proof. unfold cache_hit, is_pure_config. now intros ->. Qed.

Lemma can_backup_cache fs path pat :
  cache_hit path = Some pat ->
  can_backup fs pats path = (false, Some (MatchesExcludedPattern pat)).
Proof.
  intros H. unfold can_backup. now rewrite (is_pure_config_cache fs path _ pat H).
Qed.

Lemma can_backup_size fs path sz :
  cache_hit path = None ->
  v_is_file fs path = true -> v_size fs path = Some sz ->
  too_large sz (max_file_size_mb pats) = true ->
  can_backup fs pats path = (false, Some (FileTooLarge sz (max_file_size_mb pats))).
Proof.
  intros Hc Hf Hs Hl. unfold can_backup, is_pure_config.
  unfold cache_hit in Hc. now rewrite Hc, Hf, Hs, Hl.
Qed.

Lemma can_backup_stat_error fs path :
  cache_hit path = None ->
  v_is_file fs path = true -> v_size fs path = None ->
  can_backup fs pats path = (false, Some CannotCheckSize).
Proof.
  intros Hc Hf Hs. unfold can_backup, is_pure_config.
  unfold cache_hit in Hc. now rewrite Hc, Hf, Hs.
Qed.

Lemma can_backup_extension fs path :
  cache_hit path = None -> size_ok pats fs path ->
  mem (lower (suffix path)) excluded_extensions = true ->
  can_backup fs pats path = (false, Some (ExcludedExtension (suffix path))).
Proof.
  intros Hc Hs He. unfold can_backup, is_pure_config.
  unfold cache_hit in Hc. rewrite Hc.
  destruct Hs as [Hf|(sz & Hsz & Hl)].
  - now rewrite Hf, He.
  - rewrite Hsz, Hl. destruct (v_is_file fs path); now rewrite He.
Qed.

Lemma can_backup_after_pure_config fs path :
  is_pure_config fs path (max_file_size_mb pats) = (true, None) ->
  can_backup fs pats path =
    if v_is_file fs path && fst (should_exclude_file fs pats path)
    then (false, snd (should_exclude_file fs pats path))
    else if v_is_dir fs path && fst (should_exclude_directory pats path)
    then (false, snd (should_exclude_directory pats path))
    else if fst (is_path_in_excluded_directory fs pats path)
    then (false, snd (is_path_in_excluded_directory fs pats path))
    else (true, None).
Proof.
  intros H. unfold can_backup. rewrite H. simpl.
  destruct (v_is_file fs path); simpl.
  - destruct (fst (should_exclude_file fs pats path)); [reflexivity|].
    destruct (v_is_dir fs path); simpl.
    + destruct (fst (should_exclude_directory pats path)); [reflexivity|].
      now destruct (is_path_in_excluded_directory fs pats path) as [[] ?].
    + now destruct (is_path_in_excluded_directory fs pats path) as [[] ?].
  - destruct (v_is_dir fs path); simpl.
    + destruct (fst (should_exclude_directory pats path)); [reflexivity|].
      now destruct (is_path_in_excluded_directory fs pats path) as [[] ?].
    + now destruct (is_path_in_excluded_directory fs pats path) as [[] ?].
Qed.

(** Inside [should_exclude_file]: file-name globs, then extension globs,
    then full-path globs. *)
Lemma should_exclude_file_order fs path :
  (forall p,
     List.find (fun pattern =>
        fnmatch (name path) pattern ||
        (contains "/" pattern && fnmatch (path_str path) ("*" +:+ pattern +:+ "*")))
       (exclude_files pats) = Some p ->
     should_exclude_file fs pats path = (true, Some (MatchesExcludeFiles p))) /\
  (forall p,
     List.find (fun pattern =>
        fnmatch (name path) pattern ||
        (contains "/" pattern && fnmatch (path_str path) ("*" +:+ pattern +:+ "*")))
       (exclude_files pats) = None ->
     List.find (fun ext_pattern => fnmatch (name path) ext_pattern)
       (exclude_by_extension pats) = Some p ->
     should_exclude_file fs pats path = (true, Some (MatchesExcludeByExtension p))) /\
  (forall p,
     List.find (fun pattern =>
        fnmatch (name path) pattern ||
        (contains "/" pattern && fnmatch (path_str path) ("*" +:+ pattern +:+ "*")))
       (exclude_files pats) = None ->
     List.find (fun ext_pattern => fnmatch (name path) ext_pattern)
       (exclude_by_extension pats) = None ->
     List.find (fun glob_pattern => fnmatch (path_str path) glob_pattern)
       (exclude_by_pattern pats) = Some p ->
     should_exclude_file fs pats path = (true, Some (MatchesExcludeByPattern p))).
Proof.
  unfold should_exclude_file. repeat split.
  - now intros p ->.
  - now intros p -> ->.
  - now intros p -> -> ->.
Qed.

Lemma logs_segment_hits path :
  contains "/Logs/" (path_str path) = true ->
  exists pat, cache_hit path = Some pat /\ In pat cache_patterns /\
              contains pat (lower (path_str path)) = true.
Proof.
  intros H. apply contains_lower in H.
  apply (find_first_match
           (fun pattern => contains pattern (lower (path_str path)))
           cache_patterns "/logs/").
  - simpl. tauto.
  - exact H.
Qed.

(** C6.  [can_backup] short-circuits in the stated order.  (1) A
    cache/log/crash/temp substring of the lowered path string decides
    first: the answer cites that pattern whatever the filesystem holds, so
    no size is ever read.  (2) Otherwise a regular file above the
    configured maximum (10 MiB unless configured) is rejected for its
    size, whatever its extension.  (3) Otherwise a hard-excluded extension
    rejects.  (4) Otherwise the file globs, then the directory check, then
    the parent directories decide.  (5) In particular a path containing
    [/Logs/] is rejected citing one of the substring patterns, in every
    filesystem state: for a 15 MiB [.log] file the size check, which would
    reject it too, is never reached. *)
Theorem exclusion_policy_order (path : Path) :
  (forall pat, cache_hit path = Some pat ->
     forall fs, can_backup fs pats path = (false, Some (MatchesExcludedPattern pat))) /\
  (forall fs sz, cache_hit path = None ->
     v_is_file fs path = true -> v_size fs path = Some sz ->
     too_large sz (max_file_size_mb pats) = true ->
     can_backup fs pats path = (false, Some (FileTooLarge sz (max_file_size_mb pats)))) /\
  (forall fs, cache_hit path = None -> size_ok pats fs path ->
     mem (lower (suffix path)) excluded_extensions = true ->
     can_backup fs pats path = (false, Some (ExcludedExtension (suffix path)))) /\
  (forall fs, is_pure_config fs path (max_file_size_mb pats) = (true, None) ->
     can_backup fs pats path =
       if v_is_file fs path && fst (should_exclude_file fs pats path)
       then (false, snd (should_exclude_file fs pats path))
       else if v_is_dir fs path && fst (should_exclude_directory pats path)
       then (false, snd (should_exclude_directory pats path))
       else if fst (is_path_in_excluded_directory fs pats path)
       then (false, snd (is_path_in_excluded_directory fs pats path))
       else (true, None)) /\
  (contains "/Logs/" (path_str path) = true ->
     exists pat, In pat cache_patterns /\
       forall fs, can_backup fs pats path = (false, Some (MatchesExcludedPattern pat))) /\
  (exclude_by_size_max_mb pats = None ->
     max_file_size_mb pats = 10%Z /\
     too_large (15 * 1024 * 1024) (max_file_size_mb pats) = true).
Proof.
  split; [intros pat H fs; now apply can_backup_cache|].
  split; [intros fs sz; apply can_backup_size|].
  split; [intros fs; apply can_backup_extension|].
  split; [intros fs; apply can_backup_after_pure_config|].
  split.
  - intros H. destruct (logs_segment_hits path H) as (pat & Hp & Hin & _).
    exists pat. split; [assumption|]. intros fs. now apply can_backup_cache.
  - intros H. unfold max_file_size_mb. rewrite H. split; reflexivity.
Qed.

End ExclusionOrder.

Lemma exclusion_policy_order_witness :
  v_size (view_of example_env example_nodes)
         (parse_path "/home/u/Library/Logs/app.log") = Some (15 * 1024 * 1024)%Z /\
  suffix (parse_path "/home/u/Library/Logs/app.log") = ".log" /\
  exists pat, In pat cache_patterns /\
    forall fs, @can_backup glob_fnmatch fs example_patterns
                 (parse_path "/home/u/Library/Logs/app.log")
               = (false, Some (MatchesExcludedPattern pat)).
Proof.
  split; [reflexivity|]. split; [reflexivity|].
  apply (proj1 (proj2 (proj2 (proj2 (proj2
           (@exclusion_policy_order glob_fnmatch example_patterns
              (parse_path "/home/u/Library/Logs/app.log"))))))).
  reflexivity.
Defined.

(** ** Configuration type filter: loading *)

Lemma load_patterns_missing : load_patterns PFMissing = minimal_defaults.
Proof. reflexivity. Qed.

(** C8, at the failing input.  When config-patterns.yaml exists but is not
    valid YAML (or cannot be read), construction succeeds with the EMPTY
    rule set: no safe extension, no hard-excluded extension or pattern,
    only the built-in 1 MiB size limit.  This is not the built-in default
    that a missing file gets, although the comment on that branch says
    "Fail gracefully with minimal defaults"; as a result a small
    [settings.json], accepted for its safe extension under the defaults,
    is rejected as an unknown file type. *)
Theorem malformed_patterns_yield_no_rules :
  load_patterns PFMalformed = empty_doc /\
  load_patterns PFUnreadable = empty_doc /\
  cf_safe_extensions (ConfigFilter_init PFMalformed) = ∅ /\
  cf_hard_exclude_extensions (ConfigFilter_init PFMalformed) = ∅ /\
  cf_hard_exclude_patterns (ConfigFilter_init PFMalformed) = [] /\
  cf_max_file_size (ConfigFilter_init PFMalformed) = 1048576%Z /\
  bool_decide (".json" ∈ cf_safe_extensions (ConfigFilter_init PFMissing)) = true /\
  bool_decide (".sqlite" ∈ cf_hard_exclude_extensions (ConfigFilter_init PFMissing)) = true /\
  cf_hard_exclude_patterns (ConfigFilter_init PFMissing) = ["**/Cache/**"; "**/Logs/**"] /\
  @is_config_file glob_fnmatch (view_of example_env example_nodes)
     (ConfigFilter_init PFMissing) (parse_path "/home/u/.config/app/settings.json")
    = (true, SafeExtension ".json") /\
  @is_config_file glob_fnmatch (view_of example_env example_nodes)
     (ConfigFilter_init PFMalformed) (parse_path "/home/u/.config/app/settings.json")
    = (false, UnknownFileType "settings.json").
Proof. repeat split; vm_compute; reflexivity. Qed.

(** ** Permission normalisation *)

Lemma prefix_longer (s : string) : String.prefix (s +:+ "/") s = false.
Proof.
  induction s as [|c s IH]; [reflexivity|].
  rewrite string_app_cons. simpl. destruct (ascii_dec c c); [exact IH|congruence].
Qed.

Lemma not_under_itself target : is_under target (path_str target) = false.
Proof. unfold is_under, startswith. apply prefix_longer. Qed.

Section Normalize.
Variable chmod_fails : string -> bool.

Lemma normalize_missing target nodes :
  nodes !! path_str target = None ->
  normalize_permissions chmod_fails target nodes = nodes.
Proof. intros H. unfold normalize_permissions. now rewrite H. Qed.

Lemma normalize_file target nodes size text mode :
  nodes !! path_str target = Some (NFile size text mode) ->
  normalize_permissions chmod_fails target nodes =
    if chmod_fails (path_str target) then nodes
    else <[path_str target := NFile size text FILE_MODE]> nodes.
Proof.
  intros H. unfold normalize_permissions, chmod. rewrite H.
  now destruct (chmod_fails (path_str target)).
Qed.

Lemma normalize_dir_refused target nodes mode :
  nodes !! path_str target = Some (NDir mode) ->
  chmod_fails (path_str target) = true ->
  normalize_permissions chmod_fails target nodes = nodes.
Proof.
  intros H F. unfold normalize_permissions, chmod. now rewrite H, F.
Qed.

Lemma normalize_dir_lookup target nodes mode p :
  nodes !! path_str target = Some (NDir mode) ->
  chmod_fails (path_str target) = false ->
  normalize_permissions chmod_fails target nodes !! p =
    if decide (p = path_str target) then Some (NDir DIR_MODE)
    else walked chmod_fails target p <$> nodes !! p.
Proof.
  intros H F. unfold normalize_permissions, chmod. rewrite H, F.
  rewrite map_lookup_imap. destruct (decide (p = path_str target)) as [->|ne].
  - rewrite lookup_insert_eq. simpl. now rewrite not_under_itself.
  - rewrite lookup_insert_ne by congruence.
    destruct (nodes !! p) as [n|]; [|reflexivity]. simpl. unfold walked.
    now destruct (is_under target p && negb (chmod_fails p)).
Qed.

End Normalize.

Section NormalizeStatus.
Context {RE : RegexEngine} {FN : Fnmatch}.
Variable env : Env.
Variable config_patterns : PatternsFile.
Variable cb : ConfigBackup.





End NormalizeStatus.


(** Without refused [chmod] calls the written file ends with mode 0o600,
    and the result is the same. *)
Example chmod_success_normalizes :
  let run := @backup_file litrun_engine glob_fnmatch example_env no_chmod_faults
               PFMissing example_cb (parse_path "/home/u/.zshrc") "shell/zshrc"
               None "hints" None example_world in
  r_status (fst run) = Success /\
  w_nodes (snd run) !! "/backup/shell/zshrc" =
    Some (NFile 43 "export OPENAI_API_KEY=<REDACTED_OPENAI_KEY>" FILE_MODE).
Proof. vm_compute. split; reflexivity. Qed.


(** ** Discovery merge *)

Lemma insert_by_perm {A} (key : A -> string) x (l : list A) :
  Permutation (insert_by key x l) (x :: l).
Proof.
  induction l as [|y l IH]; simpl; [reflexivity|].
  destruct (String.ltb (key x) (key y)); [reflexivity|].
  rewrite IH. apply perm_swap.
Qed.

Lemma sorted_fold_perm {A} (key : A -> string) (l acc : list A) :
  Permutation (fold_left (fun acc x => insert_by key x acc) l acc) (acc ++ l).
Proof.
  revert acc; induction l as [|x l IH]; intros acc; simpl.
  - now rewrite app_nil_r.
  - rewrite IH, insert_by_perm. simpl.
    change (x :: acc ++ l) with ((x :: acc) ++ l).
    rewrite (Permutation_middle acc l x). reflexivity.
Qed.

Lemma sorted_by_perm {A} (key : A -> string) (l : list A) :
  Permutation (sorted_by key l) l.
Proof. unfold sorted_by. now rewrite sorted_fold_perm. Qed.

Lemma sorted_by_nonempty {A} (key : A -> string) (l : list A) :
  nonempty (sorted_by key l) = nonempty l.
Proof.
  pose proof (Permutation_length (sorted_by_perm key l)) as H.
  destruct l, (sorted_by key _); simpl in *; congruence.
Qed.

Lemma sorted_by_In {A} (key : A -> string) (l : list A) x :
  In x (sorted_by key l) <-> In x l.
Proof.
  split; apply Permutation_in; [|symmetry]; apply sorted_by_perm.
Qed.

Lemma sorted_by_NoDup_map {A B} (key : A -> string) (f : A -> B) (l : list A) :
  List.NoDup (map f l) -> List.NoDup (map f (sorted_by key l)).
Proof.
  intros H. eapply Permutation_NoDup; [|exact H].
  apply Permutation_map. symmetry. apply sorted_by_perm.
Qed.

Lemma dict_has_In {V} key (d : Dict V) :
  dict_has key d = true <-> In key (map fst d).
Proof.
  unfold dict_has. rewrite existsb_exists, in_map_iff. split.
  - intros (kv & Hin & E). apply String.eqb_eq in E. eauto.
  - intros (kv & E & Hin). exists kv. split; [assumption|].
    apply String.eqb_eq. congruence.
Qed.

Lemma dict_has_false {V} key (d : Dict V) :
  dict_has key d = false <-> ~ In key (map fst d).
Proof.
  rewrite <- dict_has_In. destruct (dict_has key d); split; congruence.
Qed.

Lemma NoDup_snoc {A} (l : list A) (x : A) :
  List.NoDup l -> ~ In x l -> List.NoDup (l ++ [x]).
Proof.
  induction l as [|y l IH]; simpl; intros Hn Hx.
  - repeat constructor. simpl. tauto.
  - inversion Hn as [|? ? Hy Hn']; subst. constructor.
    + rewrite in_app_iff. simpl. intros [H|[H|[]]]; [tauto|]. subst. tauto.
    + apply IH; tauto.
Qed.

Section MergeProps.
Context {FN : Fnmatch}.
Variable fs : FsView.
Variable home : Path.
Variable xdg_config_home : Path.

Lemma tier_inv_nil : tier_inv fs [].
Proof. split; constructor. Qed.

Lemma tier_inv_add m v :
  tier_inv fs m ->
  dict_has (normalize_path_for_dedup fs v) m = false ->
  tier_inv fs (dict_add (normalize_path_for_dedup fs v) v m).
Proof.
  intros [Hn Hf] Hk. unfold dict_add. split.
  - rewrite List.map_app. simpl. apply NoDup_snoc; [exact Hn|].
    now apply dict_has_false.
  - apply Forall_app. split; [exact Hf|]. repeat constructor.
Qed.

Lemma tier_inv_keys m :
  tier_inv fs m ->
  map (normalize_path_for_dedup fs) (dict_values m) = map fst m.
Proof.
  intros [_ Hf]. unfold dict_values. rewrite map_map.
  induction Hf as [|kv m Hkv Hf IH]; simpl; [reflexivity|].
  now rewrite IH, Hkv.
Qed.

Lemma tier_inv_NoDup m :
  tier_inv fs m ->
  List.NoDup (map (normalize_path_for_dedup fs) (dict_values m)).
Proof.
  intros H. rewrite tier_inv_keys by assumption. exact (proj1 H).
Qed.

(** What [resolve_and_add_tier_path] does, case by case *)
Lemma resolve_and_add_cases cf rel m (is_xdg apply_filter : bool) :
  let full := joinpath (if is_xdg then xdg_config_home else home) (parse_path rel) in
  let resolved := v_resolve fs full in
  resolve_and_add_tier_path fs home xdg_config_home cf rel m is_xdg apply_filter = m \/
  (v_exists fs full = true /\
   dict_has (normalize_path_for_dedup fs resolved) m = false /\
   (apply_filter = true -> classified fs cf resolved) /\
   resolve_and_add_tier_path fs home xdg_config_home cf rel m is_xdg apply_filter =
     dict_add (normalize_path_for_dedup fs resolved) resolved m).
Proof.
  intros full resolved. unfold resolve_and_add_tier_path.
  fold full. fold resolved.
  destruct (v_exists fs full) eqn:Ex; simpl; [|now left].
  destruct (dict_has _ m) eqn:Hk; [now left|].
  destruct apply_filter.
  - destruct (v_is_file fs resolved) eqn:Hfile.
    + destruct (fst (is_config_file fs cf resolved)) eqn:Hc; simpl; [|now left].
      right. repeat split; auto; congruence.
    + destruct (v_is_dir fs resolved) eqn:Hdir.
      * destruct (fst (is_config_directory fs cf resolved)) eqn:Hc; simpl; [|now left].
        right. repeat split; auto; congruence.
      * right. repeat split; auto; congruence.
  - right. repeat split; auto; discriminate.
Qed.

Lemma resolve_and_add_inv cf rel m is_xdg apply_filter :
  tier_inv fs m ->
  tier_inv fs (resolve_and_add_tier_path fs home xdg_config_home cf rel m
                 is_xdg apply_filter).
Proof.
  intros H.
  destruct (resolve_and_add_cases cf rel m is_xdg apply_filter)
    as [->|(_ & Hk & _ & ->)]; [assumption|].
  now apply tier_inv_add.
Qed.

Lemma resolve_and_add_classified cf rel m is_xdg :
  Forall (classified fs cf) (dict_values m) ->
  Forall (classified fs cf)
    (dict_values (resolve_and_add_tier_path fs home xdg_config_home cf rel m
                    is_xdg true)).
Proof.
  intros H.
  destruct (resolve_and_add_cases cf rel m is_xdg true)
    as [->|(_ & _ & Hc & ->)]; [assumption|].
  unfold dict_add, dict_values. rewrite map_app. apply Forall_app.
  split; [exact H|]. repeat constructor; apply Hc; reflexivity.
Qed.

(** The hints tier never looks at the classifier. *)
Lemma resolve_and_add_unfiltered cf cf' rel m is_xdg :
  resolve_and_add_tier_path fs home xdg_config_home cf rel m is_xdg false =
  resolve_and_add_tier_path fs home xdg_config_home cf' rel m is_xdg false.
Proof. reflexivity. Qed.

End MergeProps.

Section TierLoops.
Context {FN : Fnmatch}.
Variable fs : FsView.
Variable home : Path.
Variable xdg_config_home : Path.
Variable cf : ConfigFilter.

Lemma maps_ok_empty : tier_maps_ok fs cf empty_state.
Proof.
  unfold tier_maps_ok, empty_state; simpl.
  repeat split; try constructor.
Qed.

Lemma hints_step_ok b st p :
  tier_maps_ok fs cf st -> tier_maps_ok fs cf (hints_step fs home xdg_config_home cf b st p).
Proof.
  intros (H1 & H2 & H3 & H4 & H5). unfold tier_maps_ok, hints_step; simpl.
  repeat split; try apply H2; try apply H3; try assumption;
    apply resolve_and_add_inv; assumption.
Qed.

Lemma conventions_step_ok b st p :
  tier_maps_ok fs cf st -> tier_maps_ok fs cf (conventions_step fs home xdg_config_home cf b st p).
Proof.
  intros (H1 & H2 & H3 & H4 & H5). unfold tier_maps_ok, conventions_step; simpl.
  destruct (candidate_key fs home xdg_config_home b p) as [key|];
    [destruct (negb (dict_has key (hints_paths_map st)))|];
    repeat split; try apply H1; try apply H2; try apply H3; try assumption;
    try (apply resolve_and_add_inv; assumption);
    try (apply resolve_and_add_classified; assumption).
Qed.

Lemma llm_step_ok b st p :
  tier_maps_ok fs cf st -> tier_maps_ok fs cf (llm_step fs home xdg_config_home cf b st p).
Proof.
  intros (H1 & H2 & H3 & H4 & H5). unfold tier_maps_ok, llm_step; simpl.
  destruct (candidate_key fs home xdg_config_home b p) as [key|];
    [destruct (negb (dict_has key (hints_paths_map st))
               && negb (dict_has key (conventions_paths_map st)))|];
    repeat split; try apply H1; try apply H2; try apply H3; try assumption;
    try (apply resolve_and_add_inv; assumption);
    try (apply resolve_and_add_classified; assumption).
Qed.

Lemma fold_left_preserves {S A} (P : S -> Prop) (f : S -> A -> S) l st :
  (forall st a, P st -> P (f st a)) -> P st -> P (fold_left f l st).
Proof.
  intros Hf. revert st. induction l as [|a l IH]; simpl; auto.
Qed.

Lemma run_tier_preserves (P : MergeState -> Prop)
    (step : bool -> MergeState -> string -> MergeState) t st :
  (forall b st p, P st -> P (step b st p)) -> P st -> P (run_tier step t st).
Proof.
  intros Hs H. unfold run_tier.
  apply fold_left_preserves; [apply Hs|].
  apply fold_left_preserves; [apply Hs|assumption].
Qed.

Lemma merge_maps_ok h c l :
  tier_maps_ok fs cf (merge_maps fs home xdg_config_home cf h c l).
Proof.
  unfold merge_maps.
  assert (H0 : tier_maps_ok fs cf
    match h with
    | Some h0 => run_tier (hints_step fs home xdg_config_home cf) h0 empty_state
    | None => empty_state
    end).
  { destruct h; [|apply maps_ok_empty].
    apply run_tier_preserves; [intros; now apply hints_step_ok|apply maps_ok_empty]. }
  assert (H1 : tier_maps_ok fs cf
    match c with
    | Some c0 =>
        run_tier (conventions_step fs home xdg_config_home cf) c0
          match h with
          | Some h0 => run_tier (hints_step fs home xdg_config_home cf) h0 empty_state
          | None => empty_state
          end
    | None =>
        match h with
        | Some h0 => run_tier (hints_step fs home xdg_config_home cf) h0 empty_state
        | None => empty_state
        end
    end).
  { destruct c; [|exact H0].
    apply run_tier_preserves; [intros; now apply conventions_step_ok|exact H0]. }
  destruct (if is_some h then None else l); [|exact H1].
  apply run_tier_preserves; [intros; now apply llm_step_ok|exact H1].
Qed.

(** The generic lists only grow: each processed path leaves its
    dictionary non-empty. *)
Lemma add_path_nonempty p m : nonempty (add_path p m) = true.
Proof.
  unfold add_path. destruct (dict_has _ m) eqn:E; simpl.
  - destruct m; [discriminate|reflexivity].
  - unfold dict_add. destruct m; reflexivity.
Qed.

Section AnyStep.
Variable step : bool -> MergeState -> string -> MergeState.
Hypothesis step_config : forall b st p,
  config_files_map (step b st p) =
    if b then config_files_map st else add_path p (config_files_map st).
Hypothesis step_xdg : forall b st p,
  xdg_files_map (step b st p) =
    if b then add_path p (xdg_files_map st) else xdg_files_map st.

Lemma step_keeps_nonempty b st p :
  maps_nonempty st = true -> maps_nonempty (step b st p) = true.
Proof using step_config step_xdg.
  intros _. unfold maps_nonempty. rewrite step_config, step_xdg.
  destruct b; rewrite add_path_nonempty; [apply orb_true_r|reflexivity].
Qed.

Lemma fold_step_nonempty b l st :
  l <> [] -> maps_nonempty (fold_left (step b) l st) = true.
Proof using step_config step_xdg.
  destruct l as [|p l]; [congruence|]. intros _. simpl.
  apply fold_left_preserves; [intros; now apply step_keeps_nonempty|].
  unfold maps_nonempty. rewrite step_config, step_xdg.
  destruct b; rewrite add_path_nonempty; [apply orb_true_r|reflexivity].
Qed.

Lemma run_tier_nonempty t st :
  maps_nonempty st = true \/
  t_configuration_files t <> [] \/ t_xdg_configuration_files t <> [] ->
  maps_nonempty (run_tier step t st) = true.
Proof using step_config step_xdg.
  unfold run_tier. intros [H|[H|H]].
  - apply fold_left_preserves; [intros; now apply step_keeps_nonempty|].
    apply fold_left_preserves; [intros; now apply step_keeps_nonempty|assumption].
  - apply fold_left_preserves; [intros; now apply step_keeps_nonempty|].
    now apply fold_step_nonempty.
  - now apply fold_step_nonempty.
Qed.

Lemma run_tier_nothing t st :
  t_configuration_files t = [] -> t_xdg_configuration_files t = [] ->
  run_tier step t st = st.
Proof. unfold run_tier. now intros -> ->. Qed.

End AnyStep.

End TierLoops.

Section MergeResult.
Context {FN : Fnmatch}.
Variable fs : FsView.
Variable home : Path.
Variable xdg_config_home : Path.
Variable cf : ConfigFilter.

Lemma hints_paths_merge h c l app bid :
  hints_paths (merge_discovery_results fs home xdg_config_home cf h c l app bid) =
  sorted_by path_str
    (dict_values (hints_paths_map (merge_maps fs home xdg_config_home cf h c l))).
Proof. reflexivity. Qed.

Lemma conventions_paths_merge h c l app bid :
  conventions_paths (merge_discovery_results fs home xdg_config_home cf h c l app bid) =
  sorted_by path_str
    (dict_values (conventions_paths_map (merge_maps fs home xdg_config_home cf h c l))).
Proof. reflexivity. Qed.

Lemma llm_paths_merge h c l app bid :
  llm_paths (merge_discovery_results fs home xdg_config_home cf h c l app bid) =
  sorted_by path_str
    (dict_values (llm_paths_map (merge_maps fs home xdg_config_home cf h c l))).
Proof. reflexivity. Qed.

(** A candidate already present under the dedup key is dropped. *)
Lemma resolve_and_add_duplicate rel m (is_xdg apply_filter : bool) :
  let full := joinpath (if is_xdg then xdg_config_home else home) (parse_path rel) in
  tier_inv fs m ->
  (exists v, In v (dict_values m) /\
     normalize_path_for_dedup fs v =
     normalize_path_for_dedup fs (v_resolve fs full)) ->
  resolve_and_add_tier_path fs home xdg_config_home cf rel m is_xdg apply_filter = m.
Proof.
  intros full Hinv (v & Hv & Hk).
  assert (Hhas : dict_has (normalize_path_for_dedup fs (v_resolve fs full)) m = true).
  { apply dict_has_In. rewrite <- (tier_inv_keys fs m Hinv), <- Hk.
    now apply in_map. }
  unfold resolve_and_add_tier_path. fold full.
  destruct (v_exists fs full); simpl; [|reflexivity].
  now rewrite Hhas.
Qed.

(** An existing, unfiltered candidate absent under the dedup key is added. *)
Lemma resolve_and_add_fresh rel m (is_xdg : bool) :
  let full := joinpath (if is_xdg then xdg_config_home else home) (parse_path rel) in
  tier_inv fs m -> v_exists fs full = true ->
  ~ (exists v, In v (dict_values m) /\
       normalize_path_for_dedup fs v =
       normalize_path_for_dedup fs (v_resolve fs full)) ->
  resolve_and_add_tier_path fs home xdg_config_home cf rel m is_xdg false =
  dict_add (normalize_path_for_dedup fs (v_resolve fs full)) (v_resolve fs full) m.
Proof.
  intros full Hinv Hex Hno.
  destruct (resolve_and_add_cases fs home xdg_config_home cf rel m is_xdg false)
    as [E|(_ & _ & _ & E)]; [|exact E].
  unfold resolve_and_add_tier_path in *. fold full in E |- *.
  rewrite Hex in *. simpl in *.
  destruct (dict_has _ m) eqn:Hhas; [|reflexivity].
  exfalso. apply Hno. apply dict_has_In in Hhas.
  rewrite <- (tier_inv_keys fs m Hinv) in Hhas.
  apply in_map_iff in Hhas as (v & Ev & Hv). eauto.
Qed.

(** C7.  In a merged result no tier list holds two entries with the same
    dedup key, the lowered string of the symlink-resolved path.  The key
    decides identity: whatever the tier, an existing candidate whose key
    equals that of an entry already kept is dropped, and in the unfiltered
    (hints) tier a candidate with a new key is kept, so two candidates are
    one location exactly when their keys are equal. *)
Theorem tier_paths_unique h c l app bid :
  let r := merge_discovery_results fs home xdg_config_home cf h c l app bid in
  List.NoDup (map (normalize_path_for_dedup fs) (hints_paths r)) /\
  List.NoDup (map (normalize_path_for_dedup fs) (conventions_paths r)) /\
  List.NoDup (map (normalize_path_for_dedup fs) (llm_paths r)) /\
  (forall rel m (is_xdg apply_filter : bool),
     let full := joinpath (if is_xdg then xdg_config_home else home) (parse_path rel) in
     tier_inv fs m -> v_exists fs full = true ->
     ((exists v, In v (dict_values m) /\
         normalize_path_for_dedup fs v =
         normalize_path_for_dedup fs (v_resolve fs full)) ->
      resolve_and_add_tier_path fs home xdg_config_home cf rel m is_xdg apply_filter = m) /\
     (~ (exists v, In v (dict_values m) /\
           normalize_path_for_dedup fs v =
           normalize_path_for_dedup fs (v_resolve fs full)) ->
      resolve_and_add_tier_path fs home xdg_config_home cf rel m is_xdg false =
      dict_add (normalize_path_for_dedup fs (v_resolve fs full))
               (v_resolve fs full) m)).
Proof.
  intros r. subst r.
  rewrite hints_paths_merge, conventions_paths_merge, llm_paths_merge.
  destruct (merge_maps_ok fs home xdg_config_home cf h c l)
    as (H1 & H2 & H3 & _ & _).
  repeat split.
  - apply sorted_by_NoDup_map, tier_inv_NoDup, H1.
  - apply sorted_by_NoDup_map, tier_inv_NoDup, H2.
  - apply sorted_by_NoDup_map, tier_inv_NoDup, H3.
  - intros Hdup. now apply resolve_and_add_duplicate.
  - intros Hno. now apply resolve_and_add_fresh.
Qed.





End MergeResult.



(** The Docker scenario: two spellings of one location, one entry. *)
Example docker_spellings_merge_once :
  hints_paths (@merge_discovery_results glob_fnmatch docker_fs
                 (parse_path "/Users/u") (parse_path "/Users/u/.config")
                 (ConfigFilter_init PFMissing)
                 (Some docker_paths) None None "Docker" None)
    = [parse_path "/Users/u/.Docker/config.json"] /\
  conventions_paths (@merge_discovery_results glob_fnmatch docker_fs
                 (parse_path "/Users/u") (parse_path "/Users/u/.config")
                 (ConfigFilter_init PFMissing)
                 None (Some docker_paths) None "Docker" None)
    = [parse_path "/Users/u/.Docker/config.json"] /\
  configuration_files (@merge_discovery_results glob_fnmatch docker_fs
                 (parse_path "/Users/u") (parse_path "/Users/u/.config")
                 (ConfigFilter_init PFMissing)
                 (Some docker_paths) None None "Docker" None)
    = [".Docker/config.json"].
Proof. repeat split; vm_compute; reflexivity. Qed.

Lemma tier_paths_unique_witness :
  resolve_and_add_tier_path (FN := glob_fnmatch) docker_fs
    (parse_path "/Users/u") (parse_path "/Users/u/.config")
    (ConfigFilter_init PFMissing) ".docker/config.json"
    [("/users/u/.docker/config.json", parse_path "/Users/u/.Docker/config.json")]
    false false
  = [("/users/u/.docker/config.json", parse_path "/Users/u/.Docker/config.json")].
Proof.
  pose proof (@tier_paths_unique glob_fnmatch docker_fs
                (parse_path "/Users/u") (parse_path "/Users/u/.config")
                (ConfigFilter_init PFMissing)
                (Some docker_paths) None None "Docker" None) as T.
  cbv zeta in T. destruct T as (_ & _ & _ & T4).
  assert (Hinv : tier_inv docker_fs
            [("/users/u/.docker/config.json",
              parse_path "/Users/u/.Docker/config.json")]).
  { split; [repeat constructor; simpl; tauto|repeat constructor]. }
  destruct (T4 ".docker/config.json" _ false false Hinv eq_refl) as [Hdup _].
  apply Hdup.
  exists (parse_path "/Users/u/.Docker/config.json").
  split; [simpl; tauto|reflexivity].
Defined.

(** ** Follow-up flag *)

Section FollowUp.
Context {FN : Fnmatch}.
Variable fs : FsView.
Variable home : Path.
Variable xdg_config_home : Path.
Variable cf : ConfigFilter.

Lemma hints_step_config b st p :
  config_files_map (hints_step fs home xdg_config_home cf b st p) =
    if b then config_files_map st else add_path p (config_files_map st).
Proof. reflexivity. Qed.

Lemma hints_step_xdg b st p :
  xdg_files_map (hints_step fs home xdg_config_home cf b st p) =
    if b then add_path p (xdg_files_map st) else xdg_files_map st.
Proof. reflexivity. Qed.

Lemma conventions_step_config b st p :
  config_files_map (conventions_step fs home xdg_config_home cf b st p) =
    if b then config_files_map st else add_path p (config_files_map st).
Proof. reflexivity. Qed.

Lemma conventions_step_xdg b st p :
  xdg_files_map (conventions_step fs home xdg_config_home cf b st p) =
    if b then add_path p (xdg_files_map st) else xdg_files_map st.
Proof. reflexivity. Qed.

Lemma llm_step_config b st p :
  config_files_map (llm_step fs home xdg_config_home cf b st p) =
    if b then config_files_map st else add_path p (config_files_map st).
Proof. reflexivity. Qed.

Lemma llm_step_xdg b st p :
  xdg_files_map (llm_step fs home xdg_config_home cf b st p) =
    if b then add_path p (xdg_files_map st) else xdg_files_map st.
Proof. reflexivity. Qed.

Lemma declares_dec (t : TierResult) :
  (t_configuration_files t = [] /\ t_xdg_configuration_files t = []) \/
  (t_configuration_files t <> [] \/ t_xdg_configuration_files t <> []).
Proof.
  destruct (t_configuration_files t), (t_xdg_configuration_files t);
    [left; auto| right; right; discriminate | right; left; discriminate
    | right; left; discriminate].
Qed.

(** After a tier ran, either it declared nothing and the dictionaries are
    untouched, or a generic dictionary is non-empty. *)
Lemma run_tier_dichotomy step t st :
  (forall (b : bool) st p, config_files_map (step b st p) =
     if b then config_files_map st else add_path p (config_files_map st)) ->
  (forall (b : bool) st p, xdg_files_map (step b st p) =
     if b then add_path p (xdg_files_map st) else xdg_files_map st) ->
  (declares_nothing (Some t) /\ run_tier step t st = st) \/
  (~ declares_nothing (Some t) /\ maps_nonempty (run_tier step t st) = true).
Proof.
  intros Hc Hx. destruct (declares_dec t) as [[E1 E2]|H].
  - left. split; [split; assumption|]. now apply run_tier_nothing.
  - right. split.
    + simpl. intros [E1 E2]. destruct H; congruence.
    + apply run_tier_nonempty; auto.
Qed.

Lemma run_tier_keeps step t st :
  (forall (b : bool) st p, config_files_map (step b st p) =
     if b then config_files_map st else add_path p (config_files_map st)) ->
  (forall (b : bool) st p, xdg_files_map (step b st p) =
     if b then add_path p (xdg_files_map st) else xdg_files_map st) ->
  maps_nonempty st = true -> maps_nonempty (run_tier step t st) = true.
Proof. intros Hc Hx H. apply run_tier_nonempty; auto. Qed.

(** The merged dictionaries are empty exactly when no tier that ran
    declared a path; otherwise a generic dictionary is non-empty. *)
Lemma merge_maps_dichotomy h c l :
  let used := if is_some h then None else l in
  (declares_nothing h /\ declares_nothing c /\ declares_nothing used /\
   merge_maps fs home xdg_config_home cf h c l = empty_state) \/
  (~ (declares_nothing h /\ declares_nothing c /\ declares_nothing used) /\
   maps_nonempty (merge_maps fs home xdg_config_home cf h c l) = true).
Proof.
  intros used. unfold merge_maps. fold used.
  set (s1 := match h with
             | Some h0 => run_tier (hints_step fs home xdg_config_home cf) h0 empty_state
             | None => empty_state
             end).
  assert (D1 : (declares_nothing h /\ s1 = empty_state) \/
               (~ declares_nothing h /\ maps_nonempty s1 = true)).
  { subst s1. destruct h as [t|]; [|left; split; [exact I|reflexivity]].
    apply run_tier_dichotomy; [apply hints_step_config|apply hints_step_xdg]. }
  set (s2 := match c with
             | Some c0 => run_tier (conventions_step fs home xdg_config_home cf) c0 s1
             | None => s1
             end).
  assert (D2 : (declares_nothing h /\ declares_nothing c /\ s2 = empty_state) \/
               (~ (declares_nothing h /\ declares_nothing c) /\ maps_nonempty s2 = true)).
  { subst s2. destruct c as [t|].
    - destruct D1 as [[Dh E1]|[Dh N1]].
      + destruct (run_tier_dichotomy (conventions_step fs home xdg_config_home cf) t s1
                    (conventions_step_config) (conventions_step_xdg)) as [[Dc E]|[Dc N]].
        * left. rewrite E. auto.
        * right. split; [tauto|assumption].
      + right. split; [tauto|].
        apply run_tier_keeps;
          [apply conventions_step_config|apply conventions_step_xdg|assumption].
    - destruct D1 as [[Dh E1]|[Dh N1]].
      + left. repeat split; auto.
      + right. split; [tauto|assumption]. }
  destruct used as [t|].
  - destruct D2 as [(Dh & Dc & E2)|[Dn N2]].
    + destruct (run_tier_dichotomy (llm_step fs home xdg_config_home cf) t s2
                  (llm_step_config) (llm_step_xdg)) as [[Dl E]|[Dl N]].
      * left. rewrite E. auto.
      * right. split; [tauto|assumption].
    + right. split; [tauto|].
      apply run_tier_keeps; [apply llm_step_config|apply llm_step_xdg|assumption].
  - destruct D2 as [(Dh & Dc & E2)|[Dn N2]].
    + left. repeat split; auto.
    + right. split; [|assumption]. intros (Dh & Dc & _). tauto.
Qed.

Lemma nonempty_map {A B} (f : A -> B) (l : list A) : nonempty (map f l) = nonempty l.
Proof. now destruct l. Qed.

Lemma has_settings_merge h c l app bid :
  has_settings (merge_discovery_results fs home xdg_config_home cf h c l app bid) =
  maps_nonempty (merge_maps fs home xdg_config_home cf h c l).
Proof.
  destruct (merge_maps_dichotomy h c l) as [(_ & _ & _ & E)|[_ N]].
  - unfold has_settings, merge_discovery_results; simpl. rewrite E. reflexivity.
  - rewrite N. unfold has_settings, merge_discovery_results; simpl.
    unfold maps_nonempty in N.
    rewrite !sorted_by_nonempty. unfold dict_values. rewrite !nonempty_map.
    apply orb_true_iff in N as [N|N]; rewrite N; simpl;
      rewrite ?orb_true_r; reflexivity.
Qed.

(** The merge keeps the invariant of the data model: found in hints means
    no follow-up; otherwise follow-up is needed exactly when the result
    has no settings, that is when no tier that ran declared a path. *)
Lemma merge_followup_invariant h c l app bid :
  let r := merge_discovery_results fs home xdg_config_home cf h c l app bid in
  found_in_hints r = is_some h /\
  (found_in_hints r = true -> needs_llm_discovery r = false) /\
  (found_in_hints r = false -> needs_llm_discovery r = negb (has_settings r)) /\
  (found_in_hints r = false ->
   (needs_llm_discovery r = true <-> declares_nothing c /\ declares_nothing l)).
Proof.
  intros r.
  assert (Hn : needs_llm_discovery r =
               if found_in_hints r then false else negb (has_settings r))
    by reflexivity.
  assert (Hf : found_in_hints r = is_some h) by reflexivity.
  split; [exact Hf|]. split; [|split].
  - intros E. now rewrite Hn, E.
  - intros E. now rewrite Hn, E.
  - intros E. rewrite Hn, E. subst r. rewrite has_settings_merge.
    rewrite Hf in E. destruct h; [discriminate|].
    destruct (merge_maps_dichotomy None c l) as [(_ & Dc & Dl & Em)|[Dn N]];
      simpl in *.
    + rewrite Em. simpl. tauto.
    + rewrite N. simpl. split; [discriminate|]. intros [Dc Dl]. tauto.
Qed.

End FollowUp.

Section ConventionsOnEmpty.
Variable fs : FsView.
Variable home : Path.
Variable xdg_config_home : Path.
Variable candidates : string -> option string -> list string * list string.
Hypothesis nothing_exists : forall p, v_exists fs p = false.

Lemma conventions_finds_nothing app bid :
  t_configuration_files
    (discover_from_conventions fs home xdg_config_home candidates app bid) = [] /\
  t_xdg_configuration_files
    (discover_from_conventions fs home xdg_config_home candidates app bid) = [].
Proof using nothing_exists.
  unfold discover_from_conventions.
  assert (F : forall base l st,
    fold_left (fun (st : list string * list string) (path : string) =>
                 let '(found, seen_resolved) := st in
                 let full_path := joinpath base (parse_path path) in
                 if v_exists fs full_path then
                   let resolved_key := normalize_path_for_dedup fs full_path in
                   if negb (mem resolved_key seen_resolved)
                   then (found ++ [rstrip_slash path], seen_resolved ++ [resolved_key])
                   else st
                 else st) l st = st).
  { intros base l. induction l as [|p l IH]; intros [found seen]; simpl; [reflexivity|].
    rewrite nothing_exists. apply IH. }
  rewrite !F. split; reflexivity.
Qed.

End ConventionsOnEmpty.

(** C2, at the failing input.  Ghost is in the hints database with no
    declared path and nothing exists on disk for it.  The merge returns a
    result found in hints with no follow-up, but [discover_all_apps] sees
    that the result has no settings and sets [needs_llm_discovery],
    queues the application for the LLM tier and returns a result that is
    both found in hints and in need of follow-up. *)
Theorem hints_found_app_flagged_for_llm {FN : Fnmatch} home xdg cf candidates :
  let merged := discover_app empty_fs home xdg cf candidates "Ghost" None ghost_hints false in
  let out := discover_all_apps empty_fs home xdg cf candidates
               [("Ghost", None)] ghost_hints true in
  found_in_hints merged = true /\ needs_llm_discovery merged = false /\
  fst out = [set_needs_llm_discovery merged] /\
  snd out = [("Ghost", None)] /\
  (forall r, In r (fst out) ->
     found_in_hints r = true /\ needs_llm_discovery r = true).
Proof.
  intros merged out.
  assert (Hs : has_settings merged = false).
  { assert (Em : merged =
      merge_discovery_results empty_fs home xdg cf
        (get_app_settings ghost_hints "Ghost" None)
        (Some (discover_from_conventions empty_fs home xdg candidates "Ghost" None))
        None "Ghost" None) by reflexivity.
    rewrite Em, has_settings_merge.
    destruct (conventions_finds_nothing empty_fs home xdg candidates
                (fun _ => eq_refl) "Ghost" None) as [E1 E2].
    destruct (merge_maps_dichotomy empty_fs home xdg cf
                (get_app_settings ghost_hints "Ghost" None)
                (Some (discover_from_conventions empty_fs home xdg candidates "Ghost" None))
                None) as [(_ & _ & _ & E)|[Dn _]].
    - now rewrite E.
    - exfalso. apply Dn. repeat split; assumption. }
  assert (Ho : out = ([set_needs_llm_discovery merged], [("Ghost", None)])).
  { subst out. unfold discover_all_apps. simpl. fold merged. now rewrite Hs. }
  split; [reflexivity|]. split; [reflexivity|].
  rewrite Ho. simpl. repeat split; try reflexivity.
  all: destruct H as [<-|[]]; reflexivity.
Qed.

(** ** Trust in the hints tier *)




Section HintsTrust.
Context {RE : RegexEngine} {FN : Fnmatch}.
Variable env : Env.
Variable chmod_fails : string -> bool.
Variable cb : ConfigBackup.






End HintsTrust.


(** A file the classifier does not recognise (here because the pattern
    document is malformed): backed up when it comes from hints, skipped by
    the ConfigFilter when the same path comes from conventions. *)
Example cache_named_file_by_tier :
  r_status (fst (@backup_file litrun_engine glob_fnmatch example_env no_chmod_faults
                   PFMalformed example_cb (parse_path "/home/u/.config/app/settings.json")
                   "app/settings.json" None "hints" None example_world)) = Success /\
  r_reason (fst (@backup_file litrun_engine glob_fnmatch example_env no_chmod_faults
                   PFMalformed example_cb (parse_path "/home/u/.config/app/settings.json")
                   "app/settings.json" None "conventions" None example_world))
    = Some (ConfigFilterRejected (UnknownFileType "settings.json")).
Proof. split; vm_compute; reflexivity. Qed.

(** * Further properties of the code

    ** Sanitizing path components *)

Lemma lower_ascii_facts (c : ascii) :
  is_upper (lower_ascii c) = false /\
  Ascii.eqb (lower_ascii c) "." = Ascii.eqb c "." /\
  Ascii.eqb (lower_ascii c) "-" = Ascii.eqb c "-" /\
  Ascii.eqb (lower_ascii c) " " = Ascii.eqb c " " /\
  Ascii.eqb (lower_ascii c) "/" = Ascii.eqb c "/" /\
  Ascii.eqb (lower_ascii c) (ascii_of_nat 92) = Ascii.eqb c (ascii_of_nat 92) /\
  lower_ascii (lower_ascii c) = lower_ascii c.
Proof.
  destruct c as [[] [] [] [] [] [] [] []]; vm_compute; repeat split.
Qed.

Lemma lower_idempotent s : lower (lower s) = lower s.
Proof.
  induction s as [|c s IH]; simpl; [reflexivity|].
  rewrite IH. f_equal. apply lower_ascii_facts.
Qed.

Lemma prefix_cons a p c t :
  String.prefix (String a p) (String c t) = Ascii.eqb a c && String.prefix p t.
Proof.
  cbn [String.prefix].
  destruct (ascii_dec a c) as [e|ne]; destruct (Ascii.eqb_spec a c); try congruence;
    reflexivity.
Qed.

Lemma prefix_empty t : String.prefix "" t = true.
Proof. now destruct t. Qed.

Lemma contains_dotdot s : contains ".." s = adjacent_dots s.
Proof.
  induction s as [|c t IH]; [reflexivity|].
  cbn [contains adjacent_dots]. rewrite IH. f_equal.
  rewrite prefix_cons, (Ascii.eqb_sym "." c). f_equal.
  destruct t as [|d r]; [reflexivity|].
  rewrite prefix_cons, prefix_empty, andb_true_r. apply Ascii.eqb_sym.
Qed.

Lemma remove_dotdot_head c t :
  Ascii.eqb c "." = false ->
  remove_dotdot (String c t) = String c (remove_dotdot t).
Proof.
  intros H. simpl. destruct t as [|d r]; [reflexivity|]. now rewrite H.
Qed.

Lemma remove_dotdot_no_adjacent_dots s : adjacent_dots (remove_dotdot s) = false.
Proof.
  assert (H : forall n s, (String.length s <= n)%nat ->
                          adjacent_dots (remove_dotdot s) = false).
  { clear s. induction n as [|n IH]; intros s Hn.
    - destruct s; [reflexivity|simpl in Hn; lia].
    - destruct s as [|c t]; [reflexivity|].
      destruct t as [|d r]; [simpl; now rewrite andb_false_r|].
      simpl in Hn.
      destruct (Ascii.eqb c ".") eqn:Ec.
      + destruct (Ascii.eqb d ".") eqn:Ed.
        * simpl. rewrite Ec, Ed. simpl. apply IH. lia.
        * assert (E : remove_dotdot (String c (String d r)) =
                      String c (remove_dotdot (String d r))).
          { simpl. now rewrite Ec, Ed. }
          assert (Hs : starts_dot (remove_dotdot (String d r)) = false).
          { rewrite (remove_dotdot_head d r Ed). exact Ed. }
          rewrite E. cbn [adjacent_dots]. rewrite Hs, andb_false_r. cbn [orb].
          apply IH. simpl. lia.
      + rewrite (remove_dotdot_head c _ Ec). cbn [adjacent_dots].
        rewrite Ec. cbn [andb orb]. apply IH. simpl. lia. }
  apply (H (String.length s)). lia.
Qed.

Lemma replace_char_adjacent_dots a b s :
  Ascii.eqb a "." = false -> Ascii.eqb b "." = false ->
  adjacent_dots (replace_char a b s) = adjacent_dots s /\
  starts_dot (replace_char a b s) = starts_dot s.
Proof.
  intros Ha Hb.
  assert (Hc : forall c, Ascii.eqb (if Ascii.eqb c a then b else c) "." = Ascii.eqb c ".").
  { intros c. destruct (Ascii.eqb_spec c a) as [->|]; [now rewrite Ha, Hb|reflexivity]. }
  induction s as [|c s [IH1 IH2]]; [split; reflexivity|].
  simpl. rewrite Hc, IH1, IH2. split; reflexivity.
Qed.

Lemma lower_adjacent_dots s :
  adjacent_dots (lower s) = adjacent_dots s /\ starts_dot (lower s) = starts_dot s.
Proof.
  induction s as [|c s [IH1 IH2]]; [split; reflexivity|].
  simpl. rewrite IH1, IH2.
  destruct (lower_ascii_facts c) as (_ & -> & _). split; reflexivity.
Qed.

Lemma lstrip_adjacent_dots f s :
  adjacent_dots s = false -> adjacent_dots (lstrip_chars f s) = false.
Proof.
  induction s as [|c s IH]; [reflexivity|]. intros H. simpl.
  destruct (f c); [|exact H]. apply IH.
  simpl in H. now apply orb_false_iff in H.
Qed.

Lemma rstrip_starts_dot f s :
  starts_dot (rstrip_chars f s) = true -> starts_dot s = true.
Proof.
  destruct s as [|c s]; [discriminate|]. simpl.
  destruct (rstrip_chars f s); [destruct (f c); [discriminate|]|]; auto.
Qed.

Lemma rstrip_adjacent_dots f s :
  adjacent_dots s = false -> adjacent_dots (rstrip_chars f s) = false.
Proof.
  induction s as [|c s IH]; [reflexivity|]. intros H. simpl in H.
  apply orb_false_iff in H as [H1 H2]. specialize (IH H2). simpl.
  destruct (rstrip_chars f s) as [|d r] eqn:E.
  - destruct (f c); [reflexivity|]. simpl. now rewrite andb_false_r.
  - change (adjacent_dots (String c (String d r)))
      with ((Ascii.eqb c "." && starts_dot (String d r)) || adjacent_dots (String d r)).
    rewrite IH, orb_false_r.
    destruct (Ascii.eqb c "."); [|reflexivity]. cbn [andb] in *.
    destruct (starts_dot (String d r)) eqn:S; [|reflexivity].
    rewrite <- E in S. apply rstrip_starts_dot in S. congruence.
Qed.

Lemma all_chars_replace f a b s :
  f b = true -> all_chars f s = true -> all_chars f (replace_char a b s) = true.
Proof.
  intros Hb. induction s as [|c s IH]; [reflexivity|]. simpl.
  intros H. apply andb_true_iff in H as [H1 H2].
  rewrite (IH H2), andb_true_r. now destruct (Ascii.eqb c a).
Qed.

Lemma all_chars_replace_removes f a b s :
  f b = true -> (forall c, Ascii.eqb c a = false -> f c = true) ->
  all_chars f (replace_char a b s) = true.
Proof.
  intros Hb Hf. induction s as [|c s IH]; [reflexivity|]. simpl.
  rewrite IH, andb_true_r. destruct (Ascii.eqb c a) eqn:E; auto.
Qed.

Lemma all_chars_weaken (f g : ascii -> bool) s :
  (forall c, f c = true -> g c = true) -> all_chars f s = true -> all_chars g s = true.
Proof.
  intros Hfg. induction s as [|c s IH]; [reflexivity|]. simpl.
  intros H. apply andb_true_iff in H as [H1 H2]. now rewrite (Hfg c H1), IH.
Qed.

Lemma all_chars_lstrip f g s :
  all_chars f s = true -> all_chars f (lstrip_chars g s) = true.
Proof.
  induction s as [|c s IH]; [reflexivity|]. simpl. intros H.
  destruct (g c); [|exact H]. apply IH. now apply andb_true_iff in H.
Qed.

Lemma all_chars_rstrip f g s :
  all_chars f s = true -> all_chars f (rstrip_chars g s) = true.
Proof.
  induction s as [|c s IH]; [reflexivity|]. simpl. intros H.
  apply andb_true_iff in H as [H1 H2]. specialize (IH H2).
  destruct (rstrip_chars g s); [destruct (g c); [reflexivity|simpl; now rewrite H1]|].
  simpl in *. now rewrite H1.
Qed.

Lemma lstrip_first f s c :
  first_char (lstrip_chars f s) = Some c -> f c = false.
Proof.
  induction s as [|d s IH]; [discriminate|]. simpl.
  destruct (f d) eqn:E; [exact IH|]. simpl. now intros [= <-].
Qed.

Lemma rstrip_first f s c :
  first_char (rstrip_chars f s) = Some c -> first_char s = Some c.
Proof.
  destruct s as [|d s]; [discriminate|]. simpl.
  destruct (rstrip_chars f s); [destruct (f d); [discriminate|]|]; auto.
Qed.

Lemma rstrip_last f s c :
  last_char (rstrip_chars f s) = Some c -> f c = false.
Proof.
  induction s as [|d s IH]; [discriminate|]. simpl.
  destruct (rstrip_chars f s) as [|e r] eqn:E.
  - destruct (f d) eqn:F; [discriminate|]. simpl. now intros [= <-].
  - change (last_char (String d (String e r)))
      with (match last_char (String e r) with Some x => Some x | None => Some d end).
    destruct (last_char (String e r)) eqn:L.
    + intros [= <-]. now apply IH.
    + simpl in L. destruct (last_char r); discriminate.
Qed.

Lemma all_chars_replace_char (f g : ascii -> bool) a b s :
  (forall c, f c = true -> g (if Ascii.eqb c a then b else c) = true) ->
  all_chars f s = true -> all_chars g (replace_char a b s) = true.
Proof.
  intros Hfg. induction s as [|c s IH]; [reflexivity|].
  cbn [all_chars replace_char]. intros H. apply andb_true_iff in H as [H1 H2].
  now rewrite (Hfg c H1), (IH H2).
Qed.

Lemma all_chars_lower (f g : ascii -> bool) s :
  (forall c, f c = true -> g (lower_ascii c) = true) ->
  all_chars f s = true -> all_chars g (lower s) = true.
Proof.
  intros Hfg. induction s as [|c s IH]; [reflexivity|].
  cbn [all_chars lower]. intros H. apply andb_true_iff in H as [H1 H2].
  now rewrite (Hfg c H1), (IH H2).
Qed.

Lemma all_chars_true s : all_chars (fun _ => true) s = true.
Proof. induction s; simpl; auto. Qed.

Lemma sanitized_core name :
  let core :=
    strip_chars is_dash_or_dot
      (replace_char " " "-"
         (lower (replace_char (ascii_of_nat 92) "-"
                   (replace_char "/" "-" (remove_dotdot name))))) in
  all_chars component_char core = true /\
  adjacent_dots core = false /\
  (forall c, first_char core = Some c -> is_dash_or_dot c = false) /\
  (forall c, last_char core = Some c -> is_dash_or_dot c = false).
Proof.
  intros core. subst core. unfold strip_chars.
  repeat split.
  - apply all_chars_rstrip, all_chars_lstrip.
    apply (all_chars_replace_char
             (fun c => negb (Ascii.eqb c "/") && negb (Ascii.eqb c (ascii_of_nat 92))
                       && negb (is_upper c))).
    { intros c H. unfold component_char.
      destruct (Ascii.eqb c " ") eqn:E; [reflexivity|].
      apply andb_true_iff in H as [H H3]. apply andb_true_iff in H as [H1 H2].
      now rewrite H1, H2, H3, E. }
    apply (all_chars_lower
             (fun c => negb (Ascii.eqb c "/") && negb (Ascii.eqb c (ascii_of_nat 92)))).
    { intros c H. cbv beta.
      destruct (lower_ascii_facts c) as (-> & _ & _ & _ & -> & -> & _).
      now rewrite H. }
    apply (all_chars_replace_char (fun c => negb (Ascii.eqb c "/"))).
    { intros c H. cbv beta in *.
      destruct (Ascii.eqb c (ascii_of_nat 92)) eqn:E; [reflexivity|].
      now rewrite H, E. }
    apply (all_chars_replace_char (fun _ => true)).
    { intros c _. cbv beta. destruct (Ascii.eqb c "/") eqn:E; [reflexivity|].
      now rewrite E. }
    apply all_chars_true.
  - apply rstrip_adjacent_dots, lstrip_adjacent_dots.
    rewrite (proj1 (replace_char_adjacent_dots " " "-" _ eq_refl eq_refl)).
    rewrite (proj1 (lower_adjacent_dots _)).
    rewrite (proj1 (replace_char_adjacent_dots (ascii_of_nat 92) "-" _ eq_refl eq_refl)).
    rewrite (proj1 (replace_char_adjacent_dots "/" "-" _ eq_refl eq_refl)).
    apply remove_dotdot_no_adjacent_dots.
  - intros c H. apply rstrip_first in H. now apply lstrip_first in H.
  - intros c H. now apply rstrip_last in H.
Qed.

Lemma split_on_nonempty sep s : split_on sep s <> [].
Proof.
  destruct s as [|c s]; simpl; [discriminate|].
  destruct (Ascii.eqb c sep); [discriminate|].
  destruct (split_on sep s); discriminate.
Qed.

Lemma split_on_no_sep sep s :
  all_chars (fun c => negb (Ascii.eqb c sep)) s = true -> split_on sep s = [s].
Proof.
  induction s as [|c s IH]; [reflexivity|]. cbn [all_chars split_on].
  intros H. apply andb_true_iff in H as [H1 H2].
  apply negb_true_iff in H1. now rewrite H1, (IH H2).
Qed.

Lemma split_on_app sep a b :
  split_on sep (a +:+ String sep b) = split_on sep a ++ split_on sep b.
Proof.
  induction a as [|c a IH].
  - rewrite string_app_nil_l. cbn [split_on]. now rewrite Ascii.eqb_refl.
  - rewrite string_app_cons. cbn [split_on]. rewrite IH.
    destruct (Ascii.eqb c sep); [reflexivity|].
    pose proof (split_on_nonempty sep a).
    destruct (split_on sep a); [congruence|reflexivity].
Qed.

Lemma mem_filter_dotdot l :
  mem ".."
    (List.filter (fun c => negb (String.eqb c "") && negb (String.eqb c ".")) l)
  = mem ".." l.
Proof.
  unfold mem. induction l as [|x l IH]; [reflexivity|]. cbn [List.filter existsb].
  destruct (String.eqb_spec ".." x) as [<-|ne].
  - reflexivity.
  - destruct (negb (String.eqb x "") && negb (String.eqb x ".")); cbn [existsb].
    + destruct (String.eqb_spec ".." x); [congruence|]. exact IH.
    + exact IH.
Qed.

(** A relative path is accepted exactly when it does not start with a
    slash and none of its slash-separated fields is [..]. *)
Lemma validate_relative_path_fields s :
  validate_relative_path s =
  negb (startswith s "/") && negb (mem ".." (split_on "/" s)).
Proof.
  unfold validate_relative_path, is_absolute, parse_path. cbn [anchored parts].
  rewrite mem_filter_dotdot.
  destruct (startswith s "/"); [reflexivity|].
  now destruct (mem ".." (split_on "/" s)).
Qed.

Lemma mem_app x l1 l2 : mem x (l1 ++ l2) = mem x l1 || mem x l2.
Proof. unfold mem. apply existsb_app. Qed.

Lemma startswith_app_nonempty a b p :
  a <> "" -> startswith (a +:+ b) (String p "") = startswith a (String p "").
Proof.
  destruct a as [|c a]; [congruence|]. intros _.
  rewrite string_app_cons. unfold startswith.
  now rewrite !prefix_cons, !prefix_empty.
Qed.

(** The normal form [sanitize_path_component] reaches, in terms of the
    characters of its result *)
Lemma sanitized_normal_form (name : string) :
  let out := sanitize_path_component name in
  out <> "" /\
  all_chars component_char out = true /\
  adjacent_dots out = false /\
  (forall c, first_char out = Some c -> is_dash_or_dot c = false) /\
  (forall c, last_char out = Some c -> is_dash_or_dot c = false).
Proof.
  intros out. subst out. unfold sanitize_path_component.
  destruct (sanitized_core name) as (H1 & H2 & H3 & H4). cbv zeta in *.
  match goal with
  | |- context [String.eqb ?core ""] => destruct (String.eqb_spec core "") as [E|E]
  end.
  - repeat split; try reflexivity; try discriminate.
    + intros c [= <-]. reflexivity.
    + intros c [= <-]. reflexivity.
  - repeat split; assumption.
Qed.

(** X1: a sanitized path component is never empty, holds no slash,
    backslash, space or upper-case letter, holds no [..], and neither
    starts nor ends with a hyphen or a dot. *)
Theorem sanitize_path_component_safe (name : string) :
  let out := sanitize_path_component name in
  out <> "" /\
  all_chars component_char out = true /\
  contains ".." out = false /\
  (forall c, first_char out = Some c -> is_dash_or_dot c = false) /\
  (forall c, last_char out = Some c -> is_dash_or_dot c = false).
Proof.
  intros out. rewrite contains_dotdot.
  exact (sanitized_normal_form name).
Qed.

Lemma sanitized_single_field name :
  let out := sanitize_path_component name in
  split_on "/" out = [out] /\ startswith out "/" = false /\
  String.eqb ".." out = false /\ String.eqb out "" = false /\
  String.eqb out "." = false.
Proof.
  intros out.
  destruct (sanitized_normal_form name) as (Hne & Hc & Hd & Hf & _).
  fold out in Hne, Hc, Hd, Hf. rewrite <- contains_dotdot in Hd.
  assert (Hs : all_chars (fun c => negb (Ascii.eqb c "/")) out = true).
  { revert Hc. apply all_chars_weaken. intros c. unfold component_char.
    destruct (Ascii.eqb c "/"); [discriminate|reflexivity]. }
  repeat split.
  - now apply split_on_no_sep.
  - destruct out as [|c r]; [reflexivity|]. unfold startswith.
    rewrite prefix_cons. cbn [all_chars] in Hs.
    apply andb_true_iff in Hs as [Hs _]. apply negb_true_iff in Hs.
    now rewrite Ascii.eqb_sym, Hs.
  - destruct (String.eqb_spec ".." out) as [E|]; [|reflexivity].
    rewrite <- E in Hd. discriminate.
  - now apply String.eqb_neq.
  - destruct (String.eqb_spec out ".") as [E|]; [|reflexivity].
    rewrite E in Hf. specialize (Hf "."%char eq_refl). discriminate.
Qed.

(** X2: a sanitized component is accepted by [validate_relative_path] and
    parses to exactly one path component, itself. *)
Theorem sanitize_path_component_one_component (name : string) :
  validate_relative_path (sanitize_path_component name) = true /\
  parse_path (sanitize_path_component name) =
  {| anchored := false; parts := [sanitize_path_component name] |}.
Proof.
  destruct (sanitized_single_field name) as (H1 & H2 & H3 & H4 & H5).
  cbv zeta in *. split.
  - rewrite validate_relative_path_fields, H1, H2. unfold mem. cbn [existsb].
    now rewrite H3.
  - unfold parse_path. rewrite H1, H2. cbn [List.filter]. now rewrite H4, H5.
Qed.

Lemma parts_parse_app a b :
  parts (parse_path (a +:+ String "/" b)) =
  parts (parse_path a) ++ parts (parse_path b).
Proof.
  unfold parse_path. cbn [parts]. now rewrite split_on_app, List.filter_app.
Qed.

Lemma validate_relative_path_join a b :
  a <> "" -> validate_relative_path a = true -> validate_relative_path b = true ->
  validate_relative_path (a +:+ String "/" b) = true.
Proof.
  intros Ha. rewrite !validate_relative_path_fields.
  rewrite split_on_app, mem_app, (startswith_app_nonempty a _ "/" Ha).
  intros H1 H2. apply andb_true_iff in H1 as [-> H1]. apply andb_true_iff in H2 as [_ H2].
  apply negb_true_iff in H1, H2. now rewrite H1, H2.
Qed.

Lemma string_app_nonempty a b : a <> "" -> a +:+ b <> "".
Proof. destruct a; [congruence|]. rewrite string_app_cons. discriminate. Qed.

Lemma string_app_assoc (a b c : string) : (a +:+ b) +:+ c = a +:+ (b +:+ c).
Proof.
  induction a as [|x a IH]; [now rewrite !string_app_nil_l|].
  now rewrite !string_app_cons, IH.
Qed.

(** X3: the destination main.py builds for a discovered path,
    [category/folder_key/tier_folder/name] with the folder key sanitized,
    is accepted by [validate_relative_path] whenever the category, the
    tier folder and the file name are, whatever the folder key was; and
    the folder key fills exactly one directory level of it. *)
Theorem tier_rel_path_accepted (category folder_key tier_folder path_name : string) :
  category <> "" ->
  validate_relative_path category = true ->
  validate_relative_path tier_folder = true ->
  validate_relative_path path_name = true ->
  validate_relative_path (tier_rel_path category folder_key tier_folder path_name) = true /\
  parts (parse_path (tier_rel_path category folder_key tier_folder path_name)) =
  parts (parse_path category) ++ [sanitize_path_component folder_key] ++
  parts (parse_path tier_folder) ++ parts (parse_path path_name).
Proof.
  intros Hc Vc Vt Vn. unfold tier_rel_path.
  destruct (sanitized_single_field folder_key) as (K1 & K2 & K3 & K4 & K5).
  cbv zeta in *.
  set (key := sanitize_path_component folder_key) in *.
  assert (Vk : validate_relative_path key = true).
  { rewrite validate_relative_path_fields, K1, K2. unfold mem. cbn [existsb].
    now rewrite K3. }
  assert (Pk : parts (parse_path key) = [key]).
  { unfold parse_path. cbn [parts]. rewrite K1. cbn [List.filter]. now rewrite K4, K5. }
  assert (E : category +:+ "/" +:+ key +:+ "/" +:+ tier_folder +:+ "/" +:+ path_name =
              category +:+ String "/" (key +:+ String "/"
                (tier_folder +:+ String "/" path_name))).
  { reflexivity. }
  rewrite E. split.
  - rewrite validate_relative_path_fields in *.
    rewrite (startswith_app_nonempty category _ "/" Hc), !split_on_app, !mem_app.
    apply andb_true_iff in Vc as [-> Vc], Vk as [_ Vk], Vt as [_ Vt], Vn as [_ Vn].
    apply negb_true_iff in Vc, Vk, Vt, Vn. now rewrite Vc, Vk, Vt, Vn.
  - rewrite !parts_parse_app, Pk. reflexivity.
Qed.

Lemma tier_rel_path_accepted_witness :
  validate_relative_path
    (tier_rel_path "apps" "../../Evil App" "Tier 1 - App Hints Database"
                   "settings.json") = true /\
  parts (parse_path (tier_rel_path "apps" "../../Evil App"
                       "Tier 1 - App Hints Database" "settings.json")) =
  parts (parse_path "apps") ++ [sanitize_path_component "../../Evil App"] ++
  parts (parse_path "Tier 1 - App Hints Database") ++ parts (parse_path "settings.json").
Proof.
  apply (tier_rel_path_accepted "apps" "../../Evil App"
           "Tier 1 - App Hints Database" "settings.json");
    [discriminate|reflexivity|reflexivity|reflexivity].
Defined.

Lemma remove_dotdot_fixed s : adjacent_dots s = false -> remove_dotdot s = s.
Proof.
  induction s as [|c t IH]; [reflexivity|]. intros H.
  cbn [adjacent_dots] in H. apply orb_false_iff in H as [H1 H2].
  destruct t as [|d r]; [reflexivity|].
  cbn [remove_dotdot]. cbn [starts_dot] in H1. rewrite H1.
  f_equal. exact (IH H2).
Qed.

Lemma replace_char_fixed a b s :
  all_chars (fun c => negb (Ascii.eqb c a)) s = true -> replace_char a b s = s.
Proof.
  induction s as [|c s IH]; [reflexivity|]. cbn [all_chars replace_char].
  intros H. apply andb_true_iff in H as [H1 H2]. apply negb_true_iff in H1.
  now rewrite H1, (IH H2).
Qed.

Lemma lower_fixed s :
  all_chars (fun c => negb (is_upper c)) s = true -> lower s = s.
Proof.
  induction s as [|c s IH]; [reflexivity|]. cbn [all_chars lower].
  intros H. apply andb_true_iff in H as [H1 H2]. apply negb_true_iff in H1.
  unfold lower_ascii. now rewrite H1, (IH H2).
Qed.

Lemma lstrip_fixed f s :
  (forall c, first_char s = Some c -> f c = false) -> lstrip_chars f s = s.
Proof.
  destruct s as [|c s]; [reflexivity|]. intros H. cbn [lstrip_chars].
  now rewrite (H c eq_refl).
Qed.

Lemma last_char_none s : last_char s = None -> s = "".
Proof.
  destruct s as [|c s]; [reflexivity|]. simpl. destruct (last_char s); discriminate.
Qed.

Lemma rstrip_fixed f s :
  (forall c, last_char s = Some c -> f c = false) -> rstrip_chars f s = s.
Proof.
  induction s as [|c s IH]; [reflexivity|]. intros H.
  cbn [rstrip_chars]. cbn [last_char] in H.
  destruct (last_char s) as [d|] eqn:L.
  - rewrite IH by (intros x [= <-]; now apply H).
    destruct s; [discriminate|reflexivity].
  - apply last_char_none in L. subst s. cbn [rstrip_chars].
    now rewrite (H c eq_refl).
Qed.

(** X4: sanitizing is idempotent: a sanitized component is left as it is
    by a second pass. *)
Theorem sanitize_path_component_idempotent (name : string) :
  sanitize_path_component (sanitize_path_component name) =
  sanitize_path_component name.
Proof.
  destruct (sanitized_normal_form name) as (Hne & Hc & Hd & Hf & Hl).
  cbv zeta in *. set (out := sanitize_path_component name) in *.
  unfold sanitize_path_component at 1.
  rewrite (remove_dotdot_fixed _ Hd).
  rewrite (replace_char_fixed "/" "-" out).
  2:{ revert Hc. apply all_chars_weaken. intros c. unfold component_char.
      destruct (Ascii.eqb c "/"); [discriminate|reflexivity]. }
  rewrite (replace_char_fixed (ascii_of_nat 92) "-" out).
  2:{ revert Hc. apply all_chars_weaken. intros c. unfold component_char.
      destruct (Ascii.eqb c (ascii_of_nat 92));
        [rewrite andb_false_r; discriminate|reflexivity]. }
  rewrite (lower_fixed out).
  2:{ revert Hc. apply all_chars_weaken. intros c. unfold component_char.
      destruct (is_upper c); [rewrite andb_false_r; discriminate|reflexivity]. }
  rewrite (replace_char_fixed " " "-" out).
  2:{ revert Hc. apply all_chars_weaken. intros c. unfold component_char.
      destruct (Ascii.eqb c " "); [rewrite !andb_false_r; discriminate|reflexivity]. }
  unfold strip_chars. rewrite (lstrip_fixed _ _ Hf), (rstrip_fixed _ _ Hl).
  apply String.eqb_neq in Hne. now rewrite Hne.
Qed.

(** ** The hints database (discovery/hints.py) and path joining *)

Lemma head_split_prefix sep s f fs :
  split_on sep s = f :: fs -> String.prefix f s = true.
Proof.
  revert f fs. induction s as [|c s IH]; intros f fs; cbn [split_on].
  - now intros [= <- _].
  - destruct (Ascii.eqb c sep).
    + intros [= <- _]. apply prefix_empty.
    + destruct (split_on sep s) as [|g gs] eqn:E.
      * intros [= <- _]. now rewrite prefix_cons, Ascii.eqb_refl, prefix_empty.
      * intros [= <- _]. rewrite prefix_cons, Ascii.eqb_refl. exact (IH g gs eq_refl).
Qed.

(** Every field of a split is a substring of the string. *)
Lemma field_contains sep x s : In x (split_on sep s) -> contains x s = true.
Proof.
  induction s as [|c s IH]; cbn [split_on].
  - intros [<-|[]]. reflexivity.
  - cbn [contains]. destruct (Ascii.eqb c sep).
    + intros [<-|H]; [now rewrite prefix_empty|]. rewrite (IH H). apply orb_true_r.
    + destruct (split_on sep s) as [|g gs] eqn:E.
      * intros [<-|[]]. now rewrite prefix_cons, Ascii.eqb_refl, prefix_empty.
      * intros [<-|H].
        -- now rewrite prefix_cons, Ascii.eqb_refl, (head_split_prefix sep s g gs E).
        -- rewrite IH; [apply orb_true_r|now right].
Qed.

Lemma validate_path_security_none path context :
  validate_path_security path context = None <->
  startswith path "/" = false /\ contains ".." path = false.
Proof.
  unfold validate_path_security.
  destruct (startswith path "/"); [split; [discriminate|intros [? _]; discriminate]|].
  destruct (contains ".." path); split; try discriminate; auto.
  intros [_ ?]; discriminate.
Qed.

Lemma no_dotdot_no_segment path :
  contains ".." path = false -> mem ".." (split_on "/" path) = false.
Proof.
  intros H. destruct (mem ".." (split_on "/" path)) eqn:M; [|reflexivity].
  apply mem_In, field_contains in M. congruence.
Qed.

(** X5: the check of the hints loader is at least as strict as the check
    of the backup: a path [validate_path_security] lets through is
    accepted by [validate_relative_path]. *)
Theorem validate_path_security_stricter (path context : string) :
  validate_path_security path context = None ->
  validate_relative_path path = true.
Proof.
  intros H. apply validate_path_security_none in H as [H1 H2].
  rewrite validate_relative_path_fields, H1, (no_dotdot_no_segment _ H2). reflexivity.
Qed.

Lemma validate_path_security_stricter_witness :
  validate_relative_path ".config/app/settings.json" = true.
Proof.
  apply (validate_path_security_stricter ".config/app/settings.json" "app configuration_files").
  reflexivity.
Defined.

Lemma first_violation_acc context paths e :
  fold_left (fun acc path =>
               match acc with
               | Some e => Some e
               | None => validate_path_security path context
               end) paths (Some e) = Some e.
Proof. induction paths as [|p l IH]; [reflexivity|exact IH]. Qed.

Lemma first_violation_none context paths :
  first_violation context paths = None <->
  forall path, In path paths ->
               startswith path "/" = false /\ contains ".." path = false.
Proof.
  unfold first_violation. induction paths as [|p l IH].
  - split; [intros _ ? []|reflexivity].
  - cbn [fold_left]. destruct (validate_path_security p context) as [e|] eqn:V.
    + rewrite first_violation_acc. split; [discriminate|].
      intros H. specialize (H p (or_introl eq_refl)).
      apply (validate_path_security_none p context) in H. congruence.
    + rewrite IH. apply validate_path_security_none in V. split.
      * intros H q [<-|Hq]; auto.
      * intros H q Hq. apply H. now right.
Qed.

Lemma validate_entries_none hints :
  validate_entries hints = None <-> declared_paths_safe hints.
Proof.
  unfold declared_paths_safe. induction hints as [|[app [config|]] rest IH].
  - split; [intros _ ? ? ? []|reflexivity].
  - cbn [validate_entries].
    destruct (first_violation _ (t_configuration_files config)) as [e|] eqn:V1.
    { split; [discriminate|]. intros H.
      assert (N : first_violation (app +:+ " configuration_files")
                    (t_configuration_files config) = None).
      { apply first_violation_none. intros p Hp.
        apply (H app config p); [now left|apply in_or_app; now left]. }
      congruence. }
    destruct (first_violation _ (t_xdg_configuration_files config)) as [e|] eqn:V2.
    { split; [discriminate|]. intros H.
      assert (N : first_violation (app +:+ " xdg_configuration_files")
                    (t_xdg_configuration_files config) = None).
      { apply first_violation_none. intros p Hp.
        apply (H app config p); [now left|apply in_or_app; now right]. }
      congruence. }
    rewrite IH. split.
    + intros H a c p [[= <- <-]|Ha] Hp.
      * apply in_app_or in Hp as [Hp|Hp].
        -- exact (proj1 (first_violation_none _ _) V1 p Hp).
        -- exact (proj1 (first_violation_none _ _) V2 p Hp).
      * exact (H a c p Ha Hp).
    + intros H a c p Ha Hp. apply (H a c p); [now right|exact Hp].
  - cbn [validate_entries]. rewrite IH. split.
    + intros H a c p [[=]|Ha] Hp. exact (H a c p Ha Hp).
    + intros H a c p Ha Hp. apply (H a c p); [now right|exact Hp].
Qed.

(** X6: loading the hints database fails closed: a document is returned,
    unchanged, exactly when every path it declares is relative and free
    of [..]; one offending path anywhere refuses the whole database. *)
Theorem load_hints_database_fail_closed (hints : list (string * option TierResult)) :
  (load_hints_database (HFLoaded (Some hints)) = inr hints <->
   declared_paths_safe hints) /\
  (forall db, load_hints_database (HFLoaded (Some hints)) = inr db -> db = hints) /\
  (~ declared_paths_safe hints ->
   exists e, load_hints_database (HFLoaded (Some hints)) = inl (HintsPathSecurity e)).
Proof.
  cbn [load_hints_database]. rewrite <- validate_entries_none.
  destruct (validate_entries hints) as [e|].
  - split; [split; discriminate|]. split; [discriminate|].
    intros _. now exists e.
  - split; [split; reflexivity|]. split.
    + now intros db [= <-].
    + intros H. now destruct H.
Qed.

Lemma dict_get_In {V} key (d : Dict V) v : dict_get key d = Some v -> In (key, v) d.
Proof.
  unfold dict_get. destruct (List.find _ d) as [[k w]|] eqn:F; [|discriminate].
  intros [= <-]. apply List.find_some in F as [Hin Hk]. cbn in Hk.
  apply String.eqb_eq in Hk. now subst.
Qed.

(** X7: whatever strategy of [get_app_settings] matches (exact key, key
    without an app suffix, bundle id, last bundle-id component), the
    entry returned is an entry of the database, with only [_hints_key]
    added, and that key is the key the entry is filed under. *)
Theorem get_app_settings_sound (hints_db : HintsDb) (app_name : string)
    (bundle_id : option string) (t : TierResult) :
  get_app_settings hints_db app_name bundle_id = Some t ->
  exists key entry, In (key, entry) hints_db /\ t = with_hints_key key entry.
Proof.
  unfold get_app_settings.
  set (n := replace_char "_" "-" (replace_char " " "-" (lower app_name))).
  destruct (dict_get n hints_db) as [entry|] eqn:G.
  { intros [= <-]. exists n, entry. split; [now apply dict_get_In|reflexivity]. }
  destruct (List.find _ [".app"; "-app"; " app"]) as [sfx|].
  { cbv zeta.
    destruct (dict_get (removesuffix n sfx) hints_db) as [entry|] eqn:G2;
      simpl; [|discriminate].
    intros [= <-]. exists (removesuffix n sfx), entry.
    split; [now apply dict_get_In|reflexivity]. }
  destruct (if truthy bundle_id then List.find _ hints_db else None)
    as [[k config]|] eqn:F.
  { intros [= <-]. exists k, config. split; [|reflexivity].
    destruct (truthy bundle_id); [|discriminate].
    now apply List.find_some in F as [Hin _]. }
  destruct bundle_id as [bid|]; [|discriminate].
  destruct (truthy (Some bid)); [|discriminate].
  cbv zeta.
  destruct (dict_get (lower (List.last (split_on "." bid) "")) hints_db)
    as [entry|] eqn:G3; simpl; [|discriminate].
  intros [= <-]. exists (lower (List.last (split_on "." bid) "")), entry.
  split; [now apply dict_get_In|reflexivity].
Qed.

Lemma get_app_settings_sound_witness :
  exists key entry,
    In (key, entry) [("docker", docker_paths)] /\
    with_hints_key "docker" docker_paths = with_hints_key key entry.
Proof.
  apply (get_app_settings_sound [("docker", docker_paths)] "Docker.app" None
           (with_hints_key "docker" docker_paths)).
  reflexivity.
Defined.

Lemma collapse_dotdot_app acc l1 l2 :
  collapse_dotdot acc (l1 ++ l2) = collapse_dotdot (collapse_dotdot acc l1) l2.
Proof.
  revert acc. induction l1 as [|x l1 IH]; intros acc; [reflexivity|].
  cbn [collapse_dotdot app]. destruct (String.eqb x ".."); apply IH.
Qed.

Lemma collapse_dotdot_plain acc l :
  mem ".." l = false -> collapse_dotdot acc l = acc ++ l.
Proof.
  revert acc. induction l as [|x l IH]; intros acc H.
  - now rewrite app_nil_r.
  - unfold mem in H. cbn [existsb] in H. apply orb_false_iff in H as [H1 H2].
    cbn [collapse_dotdot]. rewrite String.eqb_sym, H1, (IH _ H2), <- app_assoc.
    reflexivity.
Qed.

Lemma list_prefix_app a b : list_prefix a (a ++ b) = true.
Proof.
  induction a as [|x a IH]; [reflexivity|].
  cbn [list_prefix app]. now rewrite String.eqb_refl, IH.
Qed.

(** X8: on a tree without symbolic links (paths resolve by collapsing
    [..] lexically) the containment test of [safe_join] never fires:
    [safe_join] accepts exactly the relative paths
    [validate_relative_path] accepts, and the destination is the resolved
    base followed by the components of the relative path. *)
Theorem safe_join_without_symlinks (fs : FsView) (base : Path) (relative : string) :
  (forall p, v_resolve fs p = lexical_resolve p) ->
  safe_join fs base relative =
  if validate_relative_path relative
  then inr {| anchored := true;
              parts := parts (lexical_resolve base) ++ parts (parse_path relative) |}
  else inl (InvalidRelativePath relative).
Proof.
  intros R. unfold safe_join.
  destruct (validate_relative_path relative) eqn:V; [|reflexivity].
  cbn [negb]. rewrite !R.
  unfold validate_relative_path, is_absolute in V.
  destruct (anchored (parse_path relative)) eqn:A; [discriminate|].
  destruct (mem ".." (parts (parse_path relative))) eqn:M; [discriminate|].
  unfold joinpath. rewrite A. unfold lexical_resolve, is_relative_to.
  cbn [anchored parts].
  rewrite collapse_dotdot_app, (collapse_dotdot_plain _ _ M), list_prefix_app.
  reflexivity.
Qed.

Lemma safe_join_without_symlinks_witness :
  safe_join (view_of example_env example_nodes) (parse_path "/backup")
            "apps/my-app/settings.json" =
  if validate_relative_path "apps/my-app/settings.json"
  then inr {| anchored := true;
              parts := parts (lexical_resolve (parse_path "/backup")) ++
                       parts (parse_path "apps/my-app/settings.json") |}
  else inl (InvalidRelativePath "apps/my-app/settings.json").
Proof.
  apply (safe_join_without_symlinks (view_of example_env example_nodes)
           (parse_path "/backup") "apps/my-app/settings.json").
  intros p. reflexivity.
Defined.

(** ** More of the exclusion policy and of the configuration filter *)

Section PolicyVerdicts.
Context {FN : Fnmatch}.
Variable fs : FsView.
Variable pats : SecurityPatterns.

Lemma is_pure_config_verdict path m :
  is_pure_config fs path m = (true, None) \/
  exists r, is_pure_config fs path m = (false, Some r).
Proof.
  unfold is_pure_config.
  destruct (List.find _ cache_patterns); [right; eauto|].
  destruct (v_is_file fs path).
  - destruct (v_size fs path) as [sz|]; [|right; eauto].
    destruct (too_large sz m); [right; eauto|].
    destruct (mem _ excluded_extensions); [right; eauto|now left].
  - destruct (mem _ excluded_extensions); [right; eauto|now left].
Qed.

Lemma should_exclude_file_verdict path :
  fst (should_exclude_file fs pats path) = true ->
  exists r, snd (should_exclude_file fs pats path) = Some r.
Proof using Type.
  unfold should_exclude_file.
  destruct (List.find _ (exclude_files pats)); [eauto|].
  destruct (List.find _ (exclude_by_extension pats)); [eauto|].
  destruct (List.find _ (exclude_by_pattern pats)); [eauto|].
  destruct (v_exists fs path && v_is_file fs path); [|discriminate].
  destruct (v_size fs path) as [sz|]; [|discriminate].
  destruct (too_large sz (max_file_size_mb pats)); [eauto|discriminate].
Qed.

Lemma should_exclude_directory_verdict path :
  fst (should_exclude_directory pats path) = true ->
  exists r, snd (should_exclude_directory pats path) = Some r.
Proof using Type.
  unfold should_exclude_directory.
  destruct (List.find _ (exclude_directories pats)); [eauto|].
  destruct (List.find _ (exclude_by_pattern pats)); [eauto|discriminate].
Qed.

Lemma walk_up_verdict anch rp :
  fst (walk_up pats anch rp) = true -> exists r, snd (walk_up pats anch rp) = Some r.
Proof using Type.
  induction rp as [|x up IH]; [discriminate|]. cbn [walk_up].
  destruct (should_exclude_directory pats _) as [excluded reason] eqn:E.
  destruct excluded; [|exact IH]. intros _.
  destruct (should_exclude_directory_verdict _ (f_equal fst E)) as [r Hr].
  rewrite E in Hr. cbn in Hr. subst reason. cbn. eauto.
Qed.

Lemma walk_up_suffix anch pre suf :
  suf <> [] ->
  fst (should_exclude_directory pats {| anchored := anch; parts := rev suf |}) = true ->
  fst (walk_up pats anch (pre ++ suf)) = true.
Proof using Type.
  intros Hne Hx. induction pre as [|y pre IH].
  - destruct suf as [|x up]; [congruence|]. cbn [app walk_up].
    destruct (should_exclude_directory pats _) as [excluded reason].
    cbn in Hx. now subst excluded.
  - cbn [app walk_up].
    destruct (should_exclude_directory pats
                {| anchored := anch; parts := rev (y :: pre ++ suf) |})
      as [[] reason]; [reflexivity|exact IH].
Qed.

Lemma can_backup_accepts_walk path :
  fst (can_backup fs pats path) = true ->
  fst (is_path_in_excluded_directory fs pats path) = false.
Proof using Type.
  unfold can_backup.
  destruct (is_pure_config fs path (max_file_size_mb pats)) as [[] r0];
    cbn [negb]; [|discriminate].
  destruct (fst (if v_is_file fs path then should_exclude_file fs pats path
                 else (false, None))); [discriminate|].
  destruct (fst (if v_is_dir fs path then should_exclude_directory pats path
                 else (false, None))); [discriminate|].
  destruct (is_path_in_excluded_directory fs pats path) as [[] r]; [discriminate|reflexivity].
Qed.

(** X9: the verdict of [can_backup] and its reason agree: a path is
    allowed exactly when no reason is returned, so every rejection names
    its reason. *)
Theorem can_backup_reason_iff (path : Path) :
  fst (can_backup fs pats path) = true <-> snd (can_backup fs pats path) = None.
Proof using Type.
  unfold can_backup.
  destruct (is_pure_config_verdict path (max_file_size_mb pats)) as [E|[r E]];
    rewrite E; cbv beta iota zeta delta [negb]; [|split; discriminate].
  set (file_check := if v_is_file fs path then should_exclude_file fs pats path
                     else (false, None)).
  assert (Hf : fst file_check = true -> exists r, snd file_check = Some r).
  { subst file_check. destruct (v_is_file fs path);
      [apply should_exclude_file_verdict|discriminate]. }
  destruct (fst file_check).
  { destruct (Hf eq_refl) as [r Hr]. cbn [fst snd]. rewrite Hr. split; discriminate. }
  clear Hf.
  set (dir_check := if v_is_dir fs path then should_exclude_directory pats path
                    else (false, None)).
  assert (Hd : fst dir_check = true -> exists r, snd dir_check = Some r).
  { subst dir_check. destruct (v_is_dir fs path);
      [apply should_exclude_directory_verdict|discriminate]. }
  destruct (fst dir_check).
  { destruct (Hd eq_refl) as [r Hr]. cbn [fst snd]. rewrite Hr. split; discriminate. }
  clear Hd.
  destruct (is_path_in_excluded_directory fs pats path) as [[] r] eqn:W.
  - unfold is_path_in_excluded_directory in W.
    destruct (walk_up_verdict _ _ (f_equal fst W)) as [r' Hr'].
    rewrite W in Hr'. cbn in Hr'. subst r. split; discriminate.
  - split; reflexivity.
Qed.

(** X10: exclusion is inherited from every ancestor: if any directory
    above a path (the path itself when it is a directory, otherwise its
    parent, and every directory above that, the root excepted) is
    excluded by [should_exclude_directory], [can_backup] rejects the
    path. *)
Theorem can_backup_ancestor_excluded (path : Path) (k : nat) :
  let current := if v_is_dir fs path then path else parent path in
  (0 < k <= length (parts current))%nat ->
  fst (should_exclude_directory pats
         {| anchored := anchored current; parts := firstn k (parts current) |}) = true ->
  fst (can_backup fs pats path) = false.
Proof using Type.
  intros current Hk Hx.
  destruct (fst (can_backup fs pats path)) eqn:C; [|reflexivity].
  apply can_backup_accepts_walk in C.
  unfold is_path_in_excluded_directory in C. fold current in C.
  rewrite <- (firstn_skipn k (parts current)), rev_app_distr in C.
  rewrite walk_up_suffix in C; [discriminate| |].
  - intros E. apply (f_equal (@length _)) in E.
    rewrite length_rev, length_firstn in E. cbn in E. lia.
  - now rewrite rev_involutive.
Qed.

End PolicyVerdicts.

Lemma can_backup_ancestor_excluded_witness :
  fst (@can_backup glob_fnmatch (view_of example_env example_nodes) example_patterns
         (parse_path "/home/u/node_modules/pkg/package.json")) = false.
Proof.
  apply (@can_backup_ancestor_excluded glob_fnmatch
           (view_of example_env example_nodes) example_patterns
           (parse_path "/home/u/node_modules/pkg/package.json") 3).
  - vm_compute. lia.
  - vm_compute. reflexivity.
Defined.

Section ConfigFilterVerdicts.
Context {FN : Fnmatch}.
Variable fs : FsView.
Variable cf : ConfigFilter.

(** X11: [is_config_file] denies by default: a file it accepts exists,
    is a regular file, matches no hard exclude pattern, has no excluded
    directory among its components, has no hard-excluded extension, is
    within the size limit whenever its size can be read, and is accepted
    for one of three reasons only: a safe file name, a safe extension, or
    a dotfile whose name holds one of the configuration words. *)
Theorem is_config_file_accepts_only (path : Path) :
  fst (is_config_file fs cf path) = true ->
  v_exists fs path = true /\ v_is_file fs path = true /\
  matches_exclude_pattern cf path = None /\
  is_in_excluded_directory path = None /\
  (lower (suffix path) ∉ cf_hard_exclude_extensions cf) /\
  (forall file_size, v_size fs path = Some file_size ->
                     (file_size <= cf_max_file_size cf)%Z) /\
  (lower (name path) ∈ cf_safe_filenames cf \/
   lower (suffix path) ∈ cf_safe_extensions cf \/
   (startswith (lower (name path)) "." = true /\
    startswith (lower (name path)) ".." = false /\
    existsb (fun pattern => contains pattern (lower (name path))) dotfile_patterns = true)).
Proof using Type.
  unfold is_config_file.
  destruct (v_exists fs path); cbn [negb]; [|discriminate].
  destruct (v_is_file fs path); cbn [negb]; [|discriminate].
  destruct (matches_exclude_pattern cf path); [discriminate|].
  destruct (is_in_excluded_directory path); [discriminate|].
  destruct (bool_decide (lower (suffix path) ∈ cf_hard_exclude_extensions cf)) eqn:Hx;
    [discriminate|].
  apply bool_decide_eq_false in Hx.
  assert (Hsz : match v_size fs path with
                | Some file_size =>
                    if (cf_max_file_size cf <? file_size)%Z
                    then Some (FilterFileTooLarge file_size (cf_max_file_size cf))
                    else None
                | None => None
                end = None ->
                forall file_size, v_size fs path = Some file_size ->
                                  (file_size <= cf_max_file_size cf)%Z).
  { destruct (v_size fs path) as [sz|]; [|discriminate].
    destruct (Z.ltb_spec (cf_max_file_size cf) sz); [discriminate|].
    intros _ ? [= <-]. lia. }
  destruct (match v_size fs path with Some _ => _ | None => _ end); [discriminate|].
  specialize (Hsz eq_refl).
  destruct (bool_decide (lower (name path) ∈ cf_safe_filenames cf)) eqn:Hn.
  { apply bool_decide_eq_true in Hn. intros _. repeat split; auto. }
  destruct (bool_decide (lower (suffix path) ∈ cf_safe_extensions cf)) eqn:He.
  { apply bool_decide_eq_true in He. intros _. repeat split; auto. }
  destruct (startswith (lower (name path)) ".") eqn:Hd; cbn [andb]; [|discriminate].
  destruct (startswith (lower (name path)) "..") eqn:Hdd; cbn [negb]; [discriminate|].
  destruct (existsb _ dotfile_patterns) eqn:Hp; [|discriminate].
  intros _. repeat split; auto.
Qed.

(** X12: the reason [is_config_file] returns determines its verdict, and
    the reason [Dotfile with safe extension] is never returned: a file
    with a safe extension is already accepted one step earlier. *)
Theorem is_config_file_reason (path : Path) :
  (fst (is_config_file fs cf path) = true <->
   exists s, snd (is_config_file fs cf path) = SafeFilename s \/
             snd (is_config_file fs cf path) = SafeExtension s \/
             snd (is_config_file fs cf path) = DotfileConfigPattern s) /\
  (forall s, snd (is_config_file fs cf path) <> DotfileSafeExtension s).
Proof using Type.
  unfold is_config_file.
  destruct (v_exists fs path); cbn [negb];
    [|split; [split; [discriminate|intros (? & [?|[?|?]]); discriminate]|discriminate]].
  destruct (v_is_file fs path); cbn [negb];
    [|split; [split; [discriminate|intros (? & [?|[?|?]]); discriminate]|discriminate]].
  destruct (matches_exclude_pattern cf path);
    [split; [split; [discriminate|intros (? & [?|[?|?]]); discriminate]|discriminate]|].
  destruct (is_in_excluded_directory path);
    [split; [split; [discriminate|intros (? & [?|[?|?]]); discriminate]|discriminate]|].
  destruct (bool_decide (lower (suffix path) ∈ cf_hard_exclude_extensions cf));
    [split; [split; [discriminate|intros (? & [?|[?|?]]); discriminate]|discriminate]|].
  destruct (v_size fs path) as [sz|].
  - destruct (cf_max_file_size cf <? sz)%Z;
      [split; [split; [discriminate|intros (? & [?|[?|?]]); discriminate]|discriminate]|].
    destruct (bool_decide (lower (name path) ∈ cf_safe_filenames cf));
      [split; [split; [eauto|reflexivity]|discriminate]|].
    destruct (bool_decide (lower (suffix path) ∈ cf_safe_extensions cf));
      [split; [split; [eauto|reflexivity]|discriminate]|].
    destruct (startswith (lower (name path)) "." &&
              negb (startswith (lower (name path)) ".."));
      [|split; [split; [discriminate|intros (? & [?|[?|?]]); discriminate]|discriminate]].
    destruct (existsb _ dotfile_patterns);
      [split; [split; [eauto|reflexivity]|discriminate]
      |split; [split; [discriminate|intros (? & [?|[?|?]]); discriminate]|discriminate]].
  - destruct (bool_decide (lower (name path) ∈ cf_safe_filenames cf));
      [split; [split; [eauto|reflexivity]|discriminate]|].
    destruct (bool_decide (lower (suffix path) ∈ cf_safe_extensions cf));
      [split; [split; [eauto|reflexivity]|discriminate]|].
    destruct (startswith (lower (name path)) "." &&
              negb (startswith (lower (name path)) ".."));
      [|split; [split; [discriminate|intros (? & [?|[?|?]]); discriminate]|discriminate]].
    destruct (existsb _ dotfile_patterns);
      [split; [split; [eauto|reflexivity]|discriminate]
      |split; [split; [discriminate|intros (? & [?|[?|?]]); discriminate]|discriminate]].
Qed.

Lemma filter_paths_fold (include_directories : bool) paths valid rejected :
  fst (fold_left
         (fun '(valid_paths, rejected) path =>
            if v_is_file fs path then
              let '(is_valid, reason) := is_config_file fs cf path in
              if is_valid then (valid_paths ++ [path], rejected)
              else (valid_paths,
                    rejected ++ [{| rej_path := path_str path; rej_reason := reason;
                                    rej_type := "file" |}])
            else if v_is_dir fs path && include_directories then
              let '(is_valid, reason) := is_config_directory fs cf path in
              if is_valid then (valid_paths ++ [path], rejected)
              else (valid_paths,
                    rejected ++ [{| rej_path := path_str path; rej_reason := reason;
                                    rej_type := "directory" |}])
            else (valid_paths, rejected))
         paths (valid, rejected)) =
  valid ++
  List.filter (fun path =>
                 if v_is_file fs path then fst (is_config_file fs cf path)
                 else v_is_dir fs path && include_directories
                      && fst (is_config_directory fs cf path)) paths.
Proof using Type.
  revert valid rejected. induction paths as [|p l IH]; intros valid rejected.
  - cbn. now rewrite app_nil_r.
  - cbn [fold_left List.filter].
    destruct (v_is_file fs p).
    + destruct (is_config_file fs cf p) as [[] r]; cbn [fst].
      * rewrite IH, <- app_assoc. reflexivity.
      * apply IH.
    + destruct (v_is_dir fs p && include_directories); cbn [andb].
      * destruct (is_config_directory fs cf p) as [[] r]; cbn [fst].
        -- rewrite IH, <- app_assoc. reflexivity.
        -- apply IH.
      * apply IH.
Qed.

(** X13: [filter_paths] keeps, in their order and with their repetitions,
    exactly the regular files [is_config_file] accepts and, when
    directories are asked for, the directories [is_config_directory]
    accepts; a path that is neither is dropped. *)
Theorem filter_paths_valid (paths : list Path) (include_directories : bool) :
  fst (filter_paths fs cf paths include_directories) =
  List.filter (fun path =>
                 if v_is_file fs path then fst (is_config_file fs cf path)
                 else v_is_dir fs path && include_directories
                      && fst (is_config_directory fs cf path)) paths.
Proof using Type.
  unfold filter_paths. now rewrite filter_paths_fold.
Qed.

End ConfigFilterVerdicts.

Lemma is_config_file_accepts_only_witness :
  v_exists (view_of example_env example_nodes) (parse_path "/home/u/.zshrc") = true.
Proof.
  apply (@is_config_file_accepts_only glob_fnmatch (view_of example_env example_nodes)
           (ConfigFilter_init PFMissing) (parse_path "/home/u/.zshrc")).
  vm_compute. reflexivity.
Defined.

Lemma elem_of_fold_union (g : string -> string) (l : list string) (init : gset string) e :
  e ∈ fold_left (fun acc x => acc ∪ {[ g x ]}) l init <->
  e ∈ init \/ exists x, In x l /\ e = g x.
Proof.
  revert init. induction l as [|y l IH]; intros init; cbn [fold_left].
  - split; [now left|]. intros [H|(x & [] & _)]. exact H.
  - rewrite IH, elem_of_union, elem_of_singleton. split.
    + intros [[H|H]|(x & Hx & E)]; [now left|right; exists y; split; [now left|exact H]|].
      right. exists x. split; [now right|exact E].
    + intros [H|(x & [<-|Hx] & E)]; [now left; left|now left; right|].
      right. now exists x.
Qed.

Lemma normalize_ext_normal ext :
  startswith (normalize_ext ext) "." = true /\
  lower (normalize_ext ext) = normalize_ext ext.
Proof.
  unfold normalize_ext.
  destruct (startswith (lower ext) ".") eqn:S; cbn [negb].
  - split; [exact S|apply lower_idempotent].
  - split; [apply prefix_app|]. rewrite lower_app, lower_idempotent. reflexivity.
Qed.

(** X14: the extension sets of a constructed filter hold exactly the
    normalised forms of the configured extensions, and every member is in
    normal form: lower case with a leading dot.  So an extension may be
    configured in any letter case and with or without its dot. *)
Theorem build_lookup_sets_extensions (patterns : PatternsDoc) (e : string) :
  (e ∈ cf_safe_extensions (build_lookup_sets patterns) <->
   exists category ext, In category (pd_safe_extensions patterns) /\
                        In ext (snd category) /\ e = normalize_ext ext) /\
  (e ∈ cf_hard_exclude_extensions (build_lookup_sets patterns) <->
   exists ext, In ext (pd_hard_exclude_extensions patterns) /\ e = normalize_ext ext) /\
  (e ∈ cf_safe_extensions (build_lookup_sets patterns) ∪
       cf_hard_exclude_extensions (build_lookup_sets patterns) ->
   startswith e "." = true /\ lower e = e).
Proof.
  assert (H1 : forall (l : list (string * list string)) (init : gset string),
             e ∈ fold_left (fun acc category =>
                              fold_left (fun acc ext => acc ∪ {[ normalize_ext ext ]})
                                        (snd category) acc) l init <->
             e ∈ init \/ exists category ext, In category l /\ In ext (snd category) /\
                                              e = normalize_ext ext).
  { induction l as [|c l IH]; intros init; cbn [fold_left].
    - split; [now left|]. intros [H|(? & ? & [] & _)]. exact H.
    - rewrite IH, elem_of_fold_union. split.
      + intros [[H|(x & Hx & E)]|(c' & x & Hc & Hx & E)].
        * now left.
        * right. exists c, x. repeat split; auto. now left.
        * right. exists c', x. repeat split; auto. now right.
      + intros [H|(c' & x & [<-|Hc] & Hx & E)].
        * now left; left.
        * left; right. now exists x.
        * right. now exists c', x. }
  assert (A : e ∈ cf_safe_extensions (build_lookup_sets patterns) <->
              exists category ext, In category (pd_safe_extensions patterns) /\
                                   In ext (snd category) /\ e = normalize_ext ext).
  { cbn [build_lookup_sets cf_safe_extensions]. rewrite H1. split.
    - intros [H|H]; [set_solver|exact H].
    - intros H. now right. }
  assert (B : e ∈ cf_hard_exclude_extensions (build_lookup_sets patterns) <->
              exists ext, In ext (pd_hard_exclude_extensions patterns) /\
                          e = normalize_ext ext).
  { cbn [build_lookup_sets cf_hard_exclude_extensions]. rewrite elem_of_fold_union. split.
    - intros [H|H]; [set_solver|exact H].
    - intros H. now right. }
  split; [exact A|]. split; [exact B|].
  rewrite elem_of_union, A, B.
  intros [(c & x & _ & _ & ->)|(x & _ & ->)]; apply normalize_ext_normal.
Qed.

(** ** More of the merge (discovery/merge.py) *)

Lemma rstrip_slash_idempotent s : rstrip_slash (rstrip_slash s) = rstrip_slash s.
Proof.
  induction s as [|c s IH]; [reflexivity|]. cbn [rstrip_slash].
  destruct (rstrip_slash s) as [|d t] eqn:E.
  - destruct (Ascii.eqb c "/") eqn:C; [reflexivity|]. cbn [rstrip_slash]. now rewrite C.
  - change (rstrip_slash (String c (String d t)))
      with (match rstrip_slash (String d t) with
            | "" => if Ascii.eqb c "/" then "" else String c ""
            | r => String c r
            end).
    now rewrite IH.
Qed.

Lemma ltb_asym a b : String.ltb a b = true -> String.ltb b a = false.
Proof.
  unfold String.ltb. rewrite (String.compare_antisym b a).
  now destruct (String.compare a b).
Qed.

Lemma insert_by_ascending {A} (key : A -> string) x (l : list A) :
  ascending key l -> ascending key (insert_by key x l).
Proof.
  unfold ascending. induction l as [|y l IH]; intros H; cbn [insert_by].
  - repeat constructor.
  - destruct (String.ltb (key x) (key y)) eqn:L.
    + constructor; [exact H|]. constructor. now apply ltb_asym.
    + inversion H as [|? ? Hs Hh]; subst. constructor; [now apply IH|].
      destruct l as [|z l]; cbn [insert_by].
      * constructor. exact L.
      * destruct (String.ltb (key x) (key z)); constructor; [exact L|].
        now inversion Hh.
Qed.

Lemma sorted_by_ascending {A} (key : A -> string) (l : list A) :
  ascending key (sorted_by key l).
Proof.
  unfold sorted_by.
  apply (fold_left_preserves (ascending key)).
  - intros acc x. apply insert_by_ascending.
  - constructor.
Qed.

Lemma add_path_inv p m : generic_inv m -> generic_inv (add_path p m).
Proof.
  intros [Hn Hf]. unfold add_path.
  destruct (dict_has (normalize_config_path p) m) eqn:E; cbn [negb]; [now split|].
  unfold dict_add. split.
  - rewrite List.map_app. apply NoDup_snoc; [exact Hn|]. now apply dict_has_false.
  - apply Forall_app. split; [exact Hf|]. repeat constructor; cbn [fst snd].
    + unfold normalize_config_path. now rewrite rstrip_slash_idempotent.
    + apply rstrip_slash_idempotent.
Qed.

Lemma dict_has_app {V} k (a b : Dict V) : dict_has k (a ++ b) = dict_has k a || dict_has k b.
Proof. unfold dict_has. apply existsb_app. Qed.

Lemma add_path_has p m : dict_has (normalize_config_path p) (add_path p m) = true.
Proof.
  unfold add_path. destruct (dict_has (normalize_config_path p) m) eqn:E; cbn [negb].
  - exact E.
  - unfold dict_add. rewrite dict_has_app. unfold dict_has at 2. cbn.
    rewrite String.eqb_refl. apply orb_true_r.
Qed.

Lemma add_path_keeps k p m : dict_has k m = true -> dict_has k (add_path p m) = true.
Proof.
  intros H. unfold add_path. destruct (negb _); [|exact H].
  unfold dict_add. now rewrite dict_has_app, H.
Qed.

Lemma generic_inv_value k (m : Dict string) :
  generic_inv m -> dict_has k m = true ->
  exists q, In q (dict_values m) /\ normalize_config_path q = k.
Proof.
  intros [_ Hf] H. apply dict_has_In, in_map_iff in H as ([k' q] & E & Hin).
  cbn in E. subst k'. exists q. split.
  - unfold dict_values. apply in_map_iff. now exists (k, q).
  - rewrite List.Forall_forall in Hf. destruct (Hf _ Hin) as [E _].
    cbn in E. now rewrite E.
Qed.

Lemma generic_inv_values m :
  generic_inv m ->
  List.NoDup (map normalize_config_path (dict_values m)) /\
  (forall q, In q (dict_values m) -> rstrip_slash q = q).
Proof.
  intros [Hn Hf]. split.
  - assert (E : map normalize_config_path (dict_values m) = map fst m).
    { unfold dict_values. rewrite map_map.
      induction Hf as [|kv m' [Hk _] Hf IH]; [reflexivity|].
      cbn [map]. rewrite <- Hk. f_equal. apply IH. now inversion Hn. }
    now rewrite E.
  - intros q Hq. unfold dict_values in Hq. apply in_map_iff in Hq as (kv & <- & Hin).
    rewrite List.Forall_forall in Hf. now destruct (Hf _ Hin).
Qed.

Section GenericLists.
Variable step : bool -> MergeState -> string -> MergeState.
Hypothesis step_config : forall b st p,
  config_files_map (step b st p) =
    if b then config_files_map st else add_path p (config_files_map st).
Hypothesis step_xdg : forall b st p,
  xdg_files_map (step b st p) =
    if b then add_path p (xdg_files_map st) else xdg_files_map st.

Lemma step_generic b st p : generic_ok st -> generic_ok (step b st p).
Proof using step_config step_xdg.
  intros [H1 H2]. unfold generic_ok. rewrite step_config, step_xdg.
  destruct b; split; auto using add_path_inv.
Qed.

Lemma step_keeps_keys b st p k :
  (dict_has k (config_files_map st) = true ->
   dict_has k (config_files_map (step b st p)) = true) /\
  (dict_has k (xdg_files_map st) = true ->
   dict_has k (xdg_files_map (step b st p)) = true).
Proof using step_config step_xdg.
  rewrite step_config, step_xdg. destruct b; split; auto using add_path_keeps.
Qed.

Lemma fold_keeps_keys b l st k :
  (dict_has k (config_files_map st) = true ->
   dict_has k (config_files_map (fold_left (step b) l st)) = true) /\
  (dict_has k (xdg_files_map st) = true ->
   dict_has k (xdg_files_map (fold_left (step b) l st)) = true).
Proof using step_config step_xdg.
  revert st. induction l as [|p l IH]; intros st; [now split|].
  cbn [fold_left]. destruct (IH (step b st p)) as [I1 I2].
  destruct (step_keeps_keys b st p k) as [S1 S2]. split; auto.
Qed.

Lemma fold_covers (b : bool) l st p :
  In p l ->
  dict_has (normalize_config_path p)
    ((if b then xdg_files_map else config_files_map) (fold_left (step b) l st)) = true.
Proof using step_config step_xdg.
  revert st. induction l as [|q l IH]; intros st; [intros []|].
  intros [->|Hin]; cbn [fold_left]; [|now apply IH].
  destruct (fold_keeps_keys b l (step b st p) (normalize_config_path p)) as [K1 K2].
  destruct b.
  - apply K2. rewrite step_xdg. apply add_path_has.
  - apply K1. rewrite step_config. apply add_path_has.
Qed.

Lemma run_tier_generic t st : generic_ok st -> generic_ok (run_tier step t st).
Proof using step_config step_xdg.
  apply run_tier_preserves. intros b s p. apply step_generic.
Qed.

Lemma run_tier_keeps_keys t st k :
  (dict_has k (config_files_map st) = true ->
   dict_has k (config_files_map (run_tier step t st)) = true) /\
  (dict_has k (xdg_files_map st) = true ->
   dict_has k (xdg_files_map (run_tier step t st)) = true).
Proof using step_config step_xdg.
  unfold run_tier.
  destruct (fold_keeps_keys false (t_configuration_files t) st k) as [A1 A2].
  destruct (fold_keeps_keys true (t_xdg_configuration_files t)
              (fold_left (step false) (t_configuration_files t) st) k) as [B1 B2].
  split; auto.
Qed.

Lemma run_tier_covers t st p :
  (In p (t_configuration_files t) ->
   dict_has (normalize_config_path p) (config_files_map (run_tier step t st)) = true) /\
  (In p (t_xdg_configuration_files t) ->
   dict_has (normalize_config_path p) (xdg_files_map (run_tier step t st)) = true).
Proof using step_config step_xdg.
  unfold run_tier. split; intros H.
  - apply fold_keeps_keys. exact (fold_covers false _ st p H).
  - exact (fold_covers true _ _ p H).
Qed.

End GenericLists.

Section MergedLists.
Context {FN : Fnmatch}.
Variable fs : FsView.
Variable home : Path.
Variable xdg_config_home : Path.
Variable cf : ConfigFilter.

Lemma merge_maps_generic h c l :
  let st := merge_maps fs home xdg_config_home cf h c l in
  generic_ok st /\
  (forall t p, tier_read h c l t ->
     (In p (t_configuration_files t) ->
      dict_has (normalize_config_path p) (config_files_map st) = true) /\
     (In p (t_xdg_configuration_files t) ->
      dict_has (normalize_config_path p) (xdg_files_map st) = true)).
Proof.
  pose proof (hints_step_config fs home xdg_config_home cf) as Hc.
  pose proof (hints_step_xdg fs home xdg_config_home cf) as Hx.
  pose proof (conventions_step_config fs home xdg_config_home cf) as Cc.
  pose proof (conventions_step_xdg fs home xdg_config_home cf) as Cx.
  pose proof (llm_step_config fs home xdg_config_home cf) as Lc.
  pose proof (llm_step_xdg fs home xdg_config_home cf) as Lx.
  unfold merge_maps. cbv zeta.
  set (s1 := match h with
             | Some h0 => run_tier (hints_step fs home xdg_config_home cf) h0 empty_state
             | None => empty_state
             end).
  set (s2 := match c with
             | Some c0 => run_tier (conventions_step fs home xdg_config_home cf) c0 s1
             | None => s1
             end).
  set (s3 := match (if is_some h then None else l) with
             | Some l0 => run_tier (llm_step fs home xdg_config_home cf) l0 s2
             | None => s2
             end).
  assert (G1 : generic_ok s1).
  { subst s1. destruct h; [apply (run_tier_generic _ Hc Hx)|];
      (split; split; constructor). }
  assert (G2 : generic_ok s2).
  { subst s2. destruct c; [apply (run_tier_generic _ Cc Cx)|]; exact G1. }
  assert (G3 : generic_ok s3).
  { subst s3. destruct (if is_some h then None else l);
      [apply (run_tier_generic _ Lc Lx)|]; exact G2. }
  assert (K2 : forall k,
             (dict_has k (config_files_map s1) = true ->
              dict_has k (config_files_map s2) = true) /\
             (dict_has k (xdg_files_map s1) = true ->
              dict_has k (xdg_files_map s2) = true)).
  { intros k. subst s2. destruct c; [apply (run_tier_keeps_keys _ Cc Cx)|now split]. }
  assert (K3 : forall k,
             (dict_has k (config_files_map s2) = true ->
              dict_has k (config_files_map s3) = true) /\
             (dict_has k (xdg_files_map s2) = true ->
              dict_has k (xdg_files_map s3) = true)).
  { intros k. subst s3. destruct (if is_some h then None else l);
      [apply (run_tier_keeps_keys _ Lc Lx)|now split]. }
  split; [exact G3|].
  intros t p [->|[->|[-> ->]]].
  - destruct (run_tier_covers _ Hc Hx t empty_state p) as [A B].
    split; intros H.
    + apply K3, K2. subst s1. now apply A.
    + apply K3, K2. subst s1. now apply B.
  - destruct (run_tier_covers _ Cc Cx t s1 p) as [A B].
    split; intros H.
    + apply K3. subst s2. now apply A.
    + apply K3. subst s2. now apply B.
  - destruct (run_tier_covers _ Lc Lx t s2 p) as [A B].
    split; intros H; subst s3; cbn [is_some]; [now apply A|now apply B].
Qed.

(** X15: the two generic path lists of a merged result.  No list holds
    two entries that are equal up to letter case and trailing slashes; no
    entry ends with a slash; both lists are in ascending order; and
    every path declared by a tier the merge reads is represented in the
    list of its kind by an entry equal to it up to case and trailing
    slashes. *)
Theorem merged_generic_lists h c l app bid :
  let r := merge_discovery_results fs home xdg_config_home cf h c l app bid in
  List.NoDup (map normalize_config_path (configuration_files r)) /\
  List.NoDup (map normalize_config_path (xdg_configuration_files r)) /\
  (forall q, In q (configuration_files r ++ xdg_configuration_files r) ->
             rstrip_slash q = q) /\
  ascending id (configuration_files r) /\
  ascending id (xdg_configuration_files r) /\
  (forall t p, tier_read h c l t ->
     (In p (t_configuration_files t) ->
      exists q, In q (configuration_files r) /\
                normalize_config_path q = normalize_config_path p) /\
     (In p (t_xdg_configuration_files t) ->
      exists q, In q (xdg_configuration_files r) /\
                normalize_config_path q = normalize_config_path p)).
Proof.
  intros r.
  assert (E1 : configuration_files r =
               sorted_by id (dict_values (config_files_map
                 (merge_maps fs home xdg_config_home cf h c l)))) by reflexivity.
  assert (E2 : xdg_configuration_files r =
               sorted_by id (dict_values (xdg_files_map
                 (merge_maps fs home xdg_config_home cf h c l)))) by reflexivity.
  destruct (merge_maps_generic h c l) as [[G1 G2] Hcov]. cbv zeta in Hcov.
  destruct (generic_inv_values _ G1) as [N1 R1].
  destruct (generic_inv_values _ G2) as [N2 R2].
  rewrite E1, E2. repeat split.
  - now apply sorted_by_NoDup_map.
  - now apply sorted_by_NoDup_map.
  - intros q Hq. apply in_app_or in Hq as [Hq|Hq]; apply sorted_by_In in Hq; auto.
  - apply sorted_by_ascending.
  - apply sorted_by_ascending.
  - intros Hp. destruct (Hcov t p H) as [A _].
    destruct (generic_inv_value _ _ G1 (A Hp)) as (q & Hq & E).
    exists q. split; [now apply sorted_by_In|exact E].
  - intros Hp. destruct (Hcov t p H) as [_ B].
    destruct (generic_inv_value _ _ G2 (B Hp)) as (q & Hq & E).
    exists q. split; [now apply sorted_by_In|exact E].
Qed.

End MergedLists.

Section TiersApart.
Context {FN : Fnmatch}.
Variable fs : FsView.
Variable home : Path.
Variable xdg_config_home : Path.
Variable cf : ConfigFilter.

(** A key found after [resolve_and_add_tier_path] was there before or is
    the key of the candidate. *)
Lemma resolve_and_add_key rel m (is_xdg apply_filter : bool) k :
  dict_has k (resolve_and_add_tier_path fs home xdg_config_home cf rel m
                is_xdg apply_filter) = true ->
  dict_has k m = true \/ candidate_key fs home xdg_config_home is_xdg rel = Some k.
Proof.
  destruct (resolve_and_add_cases fs home xdg_config_home cf rel m is_xdg apply_filter)
    as [->|(Hex & _ & _ & ->)]; [now left|].
  unfold dict_add. rewrite dict_has_app. intros H.
  apply orb_true_iff in H as [H|H]; [now left|]. right.
  unfold dict_has in H. cbn in H. rewrite orb_false_r in H.
  apply String.eqb_eq in H. subst k.
  unfold candidate_key. now rewrite Hex.
Qed.

Lemma conventions_step_apart b st p :
  llm_paths_map st = [] /\ tiers_apart st ->
  llm_paths_map (conventions_step fs home xdg_config_home cf b st p) = [] /\
  tiers_apart (conventions_step fs home xdg_config_home cf b st p).
Proof.
  intros [L [A B]]. split; [exact L|]. split.
  - cbn [conventions_step conventions_paths_map hints_paths_map]. intros k.
    destruct (candidate_key fs home xdg_config_home b p) as [key|] eqn:C; [|apply A].
    destruct (dict_has key (hints_paths_map st)) eqn:Hk; cbn [negb]; [apply A|].
    intros H. apply resolve_and_add_key in H as [H|H]; [now apply A|].
    rewrite C in H. now injection H as <-.
  - cbn [conventions_step llm_paths_map]. rewrite L. intros k. discriminate.
Qed.

Lemma llm_step_apart b st p :
  tiers_apart st -> tiers_apart (llm_step fs home xdg_config_home cf b st p).
Proof.
  intros [A B]. split; [exact A|].
  cbn [llm_step llm_paths_map hints_paths_map conventions_paths_map]. intros k.
  destruct (candidate_key fs home xdg_config_home b p) as [key|] eqn:C; [|apply B].
  destruct (dict_has key (hints_paths_map st)) eqn:Hk; cbn [negb andb]; [apply B|].
  destruct (dict_has key (conventions_paths_map st)) eqn:Ck; cbn [negb]; [apply B|].
  intros H. apply resolve_and_add_key in H as [H|H]; [now apply B|].
  rewrite C in H. injection H as <-. now split.
Qed.

Lemma merge_maps_apart h c l :
  let st := merge_maps fs home xdg_config_home cf h c l in
  tiers_apart st /\ (is_some h = true -> llm_paths_map st = []).
Proof.
  unfold merge_maps. cbv zeta.
  set (s1 := match h with
             | Some h0 => run_tier (hints_step fs home xdg_config_home cf) h0 empty_state
             | None => empty_state
             end).
  set (s2 := match c with
             | Some c0 => run_tier (conventions_step fs home xdg_config_home cf) c0 s1
             | None => s1
             end).
  assert (H1 : conventions_paths_map s1 = [] /\ llm_paths_map s1 = []).
  { subst s1. destruct h; [|now split].
    apply (run_tier_preserves
             (fun st => conventions_paths_map st = [] /\ llm_paths_map st = []));
      [|now split].
    intros b st p H. exact H. }
  assert (H2 : llm_paths_map s2 = [] /\ tiers_apart s2).
  { assert (H0 : llm_paths_map s1 = [] /\ tiers_apart s1).
    { destruct H1 as [E1 E2]. split; [exact E2|].
      split; intros k; [rewrite E1|rewrite E2]; discriminate. }
    subst s2. destruct c; [|exact H0].
    apply (run_tier_preserves (fun st => llm_paths_map st = [] /\ tiers_apart st));
      [|exact H0].
    intros b st p. apply conventions_step_apart. }
  destruct h as [h0|]; cbn [is_some].
  - split; [apply H2|]. intros _. apply H2.
  - split; [|discriminate]. destruct l as [l0|]; [|apply H2].
    apply run_tier_preserves; [|apply H2].
    intros b st p. apply llm_step_apart.
Qed.

Lemma tier_value_key (m : Dict Path) v :
  tier_inv fs m -> In v (dict_values m) ->
  dict_has (normalize_path_for_dedup fs v) m = true.
Proof.
  intros Hinv Hv. apply dict_has_In. rewrite <- (tier_inv_keys fs m Hinv).
  now apply in_map.
Qed.

(** X16: the three tier lists of a merged result are pairwise disjoint
    up to the dedup key: a location kept for the hints tier is not kept
    again for the conventions tier, and a location kept for either is not
    kept for the LLM tier; for an application found in the hints the LLM
    list is empty, whatever the LLM result holds. *)
Theorem tier_lists_disjoint h c l app bid :
  let r := merge_discovery_results fs home xdg_config_home cf h c l app bid in
  (forall u v, In u (hints_paths r) -> In v (conventions_paths r) ->
               normalize_path_for_dedup fs u <> normalize_path_for_dedup fs v) /\
  (forall u v, In u (hints_paths r) \/ In u (conventions_paths r) ->
               In v (llm_paths r) ->
               normalize_path_for_dedup fs u <> normalize_path_for_dedup fs v) /\
  (is_some h = true -> llm_paths r = []).
Proof.
  intros r. subst r.
  rewrite hints_paths_merge, conventions_paths_merge, llm_paths_merge.
  destruct (merge_maps_ok fs home xdg_config_home cf h c l) as (I1 & I2 & I3 & _ & _).
  destruct (merge_maps_apart h c l) as [[A B] E]. cbv zeta in *.
  set (st := merge_maps fs home xdg_config_home cf h c l) in *.
  repeat split.
  - intros u v Hu Hv Heq. apply sorted_by_In in Hu, Hv.
    pose proof (tier_value_key _ _ I1 Hu) as Ku.
    pose proof (tier_value_key _ _ I2 Hv) as Kv.
    rewrite <- Heq in Kv. rewrite (A _ Kv) in Ku. discriminate.
  - intros u v Hu Hv Heq. apply sorted_by_In in Hv.
    pose proof (tier_value_key _ _ I3 Hv) as Kv. rewrite <- Heq in Kv.
    destruct (B _ Kv) as [B1 B2].
    destruct Hu as [Hu|Hu]; apply sorted_by_In in Hu.
    + pose proof (tier_value_key _ _ I1 Hu) as Ku. congruence.
    + pose proof (tier_value_key _ _ I2 Hu) as Ku. congruence.
  - intros Hh. now rewrite (E Hh).
Qed.

End TiersApart.

(** ** Batch discovery and the choice of applications to research *)

Section DiscoverAll.
Context {FN : Fnmatch}.
Variable fs : FsView.
Variable home : Path.
Variable xdg_config_home : Path.
Variable cf : ConfigFilter.
Variable candidates : string -> option string -> list string * list string.

Lemma discover_app_flag app bid db skip_conventions :
  let r := discover_app fs home xdg_config_home cf candidates app bid db skip_conventions in
  app_name r = app /\
  (has_settings r = true -> needs_llm_discovery r = false).
Proof.
  intros r. split; [reflexivity|]. intros Hs. subst r. unfold discover_app in *.
  match goal with
  | |- needs_llm_discovery (merge_discovery_results _ _ _ _ ?h ?c ?l ?a ?b) = _ =>
      destruct (merge_followup_invariant fs home xdg_config_home cf h c l a b)
        as (_ & F1 & F2 & _);
      destruct (found_in_hints (merge_discovery_results fs home xdg_config_home cf h c l a b))
  end.
  - now apply F1.
  - rewrite F2 by reflexivity. now rewrite Hs.
Qed.

(** X17: [discover_all_apps] returns every result with its follow-up
    flag equal to "has no settings", and the list for the LLM tier names
    exactly the flagged results, in the same order; when system
    applications are not skipped there is one result per application, in
    input order. *)
Theorem discover_all_apps_flags (apps : list App) (hints_db : HintsDb)
    (skip_system_apps : bool) :
  let out := discover_all_apps fs home xdg_config_home cf candidates apps hints_db
               skip_system_apps in
  (forall r, In r (fst out) -> needs_llm_discovery r = negb (has_settings r)) /\
  map fst (snd out) = map app_name (List.filter needs_llm_discovery (fst out)) /\
  (length (fst out) <= length apps)%nat /\
  (skip_system_apps = false -> map app_name (fst out) = map fst apps).
Proof.
  unfold discover_all_apps.
  match goal with
  | |- context [fold_left ?F apps ([], [])] => set (step := F)
  end.
  cbv zeta.
  assert (G : forall apps (acc : list DiscoveryResult * list App),
             let out := fold_left step apps acc in
             ((forall r, In r (fst acc) -> needs_llm_discovery r = negb (has_settings r)) ->
              forall r, In r (fst out) -> needs_llm_discovery r = negb (has_settings r)) /\
             (map fst (snd acc) =
              map app_name (List.filter needs_llm_discovery (fst acc)) ->
              (forall r, In r (fst acc) -> needs_llm_discovery r = negb (has_settings r)) ->
              map fst (snd out) =
              map app_name (List.filter needs_llm_discovery (fst out))) /\
             (length (fst out) <= length (fst acc) + length apps)%nat /\
             (skip_system_apps = false ->
              map app_name (fst out) = map app_name (fst acc) ++ map fst apps)).
  { clear apps. induction apps as [|[n b] apps IH]; intros [d u]; cbv zeta.
    - cbn [fold_left fst snd map length]. rewrite app_nil_r. repeat split; auto. lia.
    - cbn [fold_left].
      set (acc' := step (d, u) (n, b)).
      destruct (IH acc') as (I1 & I2 & I3 & I4). cbv zeta in *.
      pose proof (discover_app_flag n b hints_db false) as [Hn Hf]. cbv zeta in *.
      set (r0 := discover_app fs home xdg_config_home cf candidates n b hints_db false) in *.
      assert (Hacc : (skip_system_apps = true /\ acc' = (d, u)) \/
                     (has_settings r0 = true /\ acc' = (d ++ [r0], u)) \/
                     (has_settings r0 = false /\
                      acc' = (d ++ [set_needs_llm_discovery r0], u ++ [(n, b)]))).
      { subst acc' step. cbv beta iota. fold r0.
        destruct skip_system_apps; cbn [andb].
        - match goal with
          | |- context [if ?c then (d, u) else _] => destruct c
          end; [now left|].
          destruct (has_settings r0); [right; left|right; right]; now split.
        - cbv iota.
          destruct (has_settings r0); [right; left|right; right]; now split. }
      cbn [fst snd length map] in *.
      repeat split.
      + intros Hd. apply I1.
        destruct Hacc as [[_ ->]|[[Hs ->]|[Hs ->]]]; cbn [fst]; [exact Hd| |];
          intros r Hr; apply in_app_or in Hr as [Hr|[<-|[]]]; auto.
        * rewrite Hs. now apply Hf.
        * change (has_settings (set_needs_llm_discovery r0)) with (has_settings r0).
          now rewrite Hs.
      + intros Hu Hd.
        destruct Hacc as [[_ E]|[[Hs E]|[Hs E]]]; rewrite E in I1, I2 |- *;
          cbn [fst snd] in I1, I2.
        * now apply I2.
        * apply I2.
          -- rewrite List.filter_app, List.map_app. cbn [List.filter].
             rewrite (Hf Hs). cbn [map]. now rewrite app_nil_r.
          -- intros r Hr. apply in_app_or in Hr as [Hr|[<-|[]]]; auto.
             rewrite Hs. now apply Hf.
        * apply I2.
          -- rewrite List.filter_app, !List.map_app.
             apply (f_equal2 (@app string)); [exact Hu|].
             change (List.filter needs_llm_discovery [set_needs_llm_discovery r0])
               with [set_needs_llm_discovery r0].
             change (map app_name [set_needs_llm_discovery r0]) with [app_name r0].
             now rewrite Hn.
          -- intros r Hr. apply in_app_or in Hr as [Hr|[<-|[]]]; auto.
             change (has_settings (set_needs_llm_discovery r0)) with (has_settings r0).
             now rewrite Hs.
      + destruct Hacc as [[_ E]|[[Hs E]|[Hs E]]]; rewrite E in I3 |- *; cbn [fst] in I3;
          rewrite ?length_app in I3; cbn [length] in I3; lia.
      + intros Hk. rewrite (I4 Hk).
        destruct Hacc as [[E _]|[[Hs E]|[Hs E]]]; [congruence| |].
        * rewrite E. cbn [fst]. rewrite List.map_app, <- app_assoc.
          cbn [map app fst]. now rewrite Hn.
        * rewrite E. cbn [fst]. rewrite List.map_app, <- app_assoc.
          cbn [map app fst].
          change (app_name (set_needs_llm_discovery r0)) with (app_name r0).
          now rewrite Hn. }
  destruct (G apps ([], [])) as (G1 & G2 & G3 & G4). cbv zeta in *.
  cbn [fst snd map length List.filter] in *.
  repeat split.
  - apply G1. intros r [].
  - apply G2; [reflexivity|intros r []].
  - exact G3.
  - exact G4.
Qed.

End DiscoverAll.

Lemma insert_desc_perm {A} (key : A -> Z) x (l : list A) :
  Permutation (insert_desc key x l) (x :: l).
Proof.
  induction l as [|y l IH]; cbn [insert_desc]; [reflexivity|].
  destruct (key y <? key x)%Z; [reflexivity|].
  rewrite IH. apply perm_swap.
Qed.

Lemma sort_desc_perm {A} (key : A -> Z) (l : list A) :
  Permutation (sort_desc key l) l.
Proof.
  unfold sort_desc.
  assert (H : forall acc, Permutation (fold_left (fun acc x => insert_desc key x acc) l acc)
                                      (acc ++ l)).
  { induction l as [|x l IH]; intros acc; cbn [fold_left].
    - now rewrite app_nil_r.
    - rewrite IH, insert_desc_perm. cbn [app].
      change (x :: acc ++ l) with ((x :: acc) ++ l).
      now rewrite (Permutation_middle acc l x). }
  exact (H []).
Qed.

Lemma insert_desc_sorted {A} (key : A -> Z) x (l : list A) :
  Sorted (fun a b => (key b <= key a)%Z) l ->
  Sorted (fun a b => (key b <= key a)%Z) (insert_desc key x l).
Proof.
  induction l as [|y l IH]; intros H; cbn [insert_desc].
  - repeat constructor.
  - destruct (Z.ltb_spec (key y) (key x)) as [L|L].
    + constructor; [exact H|]. constructor. lia.
    + inversion H as [|? ? Hs Hh]; subst. constructor; [now apply IH|].
      destruct l as [|z l]; cbn [insert_desc].
      * constructor. exact L.
      * destruct (key z <? key x)%Z; constructor; [exact L|now inversion Hh].
Qed.

Lemma sort_desc_sorted {A} (key : A -> Z) (l : list A) :
  StronglySorted (fun a b => (key b <= key a)%Z) (sort_desc key l).
Proof.
  apply Sorted_StronglySorted; [intros a b c; lia|].
  unfold sort_desc.
  apply (fold_left_preserves (Sorted (fun a b => (key b <= key a)%Z))).
  - intros acc x. apply insert_desc_sorted.
  - constructor.
Qed.

Lemma StronglySorted_app_cross {A} (R : A -> A -> Prop) (l1 l2 : list A) :
  StronglySorted R (l1 ++ l2) ->
  StronglySorted R l1 /\ forall a b, In a l1 -> In b l2 -> R a b.
Proof.
  induction l1 as [|x l1 IH]; cbn [app]; intros H.
  - split; [constructor|intros a b []].
  - inversion H as [|? ? Hs Hf]; subst. destruct (IH Hs) as [S1 C]. split.
    + constructor; [exact S1|]. rewrite List.Forall_forall in *.
      intros y Hy. apply Hf, in_or_app. now left.
    + intros a b [<-|Ha] Hb; [|now apply C].
      rewrite List.Forall_forall in Hf. apply Hf, in_or_app. now right.
Qed.

Lemma keyword_score_nonneg (name : string) (l : list string) (z : Z) :
  (0 <= z)%Z ->
  (0 <= fold_left (fun score keyword =>
                     if contains keyword name then score + 10 else score) l z)%Z.
Proof.
  revert z. induction l as [|k l IH]; intros z Hz; cbn [fold_left]; [exact Hz|].
  apply IH. destruct (contains k name); lia.
Qed.

Lemma importance_score_skip (app : App) :
  (0 <= importance_score app)%Z <->
  existsb (fun pattern => contains pattern (lower (fst app))) skip_patterns = false.
Proof.
  unfold importance_score. cbv zeta.
  destruct (existsb _ skip_patterns); [split; [lia|discriminate]|].
  split; [reflexivity|]. intros _.
  pose proof (keyword_score_nonneg (lower (fst app)) important_keywords 0%Z ltac:(lia)).
  destruct (truthy (snd app)); lia.
Qed.

(** X18: [filter_by_importance] returns at most [max_apps] applications,
    all taken from the input and none with a skip word (helper, agent,
    updater, ...) in its name, in descending order of score; and no
    eligible application that was left out scores higher than one that
    was returned. *)
Theorem filter_by_importance_best (undiscovered : list App) (max_apps : nat) :
  let out := filter_by_importance undiscovered max_apps in
  (length out <= max_apps)%nat /\
  (forall a, In a out ->
     In a undiscovered /\
     existsb (fun pattern => contains pattern (lower (fst a))) skip_patterns = false) /\
  StronglySorted (fun a b => (importance_score b <= importance_score a)%Z) out /\
  (forall a b, In a out -> In b undiscovered -> (0 <= importance_score b)%Z ->
               ~ In b out -> (importance_score b <= importance_score a)%Z).
Proof.
  unfold filter_by_importance. cbv zeta.
  set (scored := List.filter (fun x : App * Z => (0 <=? snd x)%Z)
                   (map (fun app => (app, importance_score app)) undiscovered)).
  set (sorted := sort_desc snd scored).
  assert (Hscored : forall x, In x scored <->
                              In (fst x) undiscovered /\
                              snd x = importance_score (fst x) /\ (0 <= snd x)%Z).
  { intros [a z]. subst scored. rewrite filter_In, in_map_iff. cbn [fst snd]. split.
    - intros [(a' & [= <- <-] & Hin) Hz]. repeat split; auto. lia.
    - intros (Hin & -> & Hz). split; [now exists a|]. apply Z.leb_le. exact Hz. }
  assert (Hsorted : forall x, In x sorted <-> In x scored).
  { intros x. subst sorted. split; apply Permutation_in;
      [|symmetry]; apply sort_desc_perm. }
  pose proof (sort_desc_sorted snd scored) as SS. fold sorted in SS.
  rewrite <- (firstn_skipn max_apps sorted) in SS.
  apply StronglySorted_app_cross in SS as [S1 Cross].
  assert (Hfirst : forall x, In x (firstn max_apps sorted) -> In x scored).
  { intros x Hx. apply Hsorted. rewrite <- (firstn_skipn max_apps sorted).
    apply in_or_app. now left. }
  repeat split.
  - rewrite length_map. apply firstn_le_length.
  - apply in_map_iff in H as (x & <- & Hx). now apply Hscored, Hfirst.
  - apply in_map_iff in H as (x & <- & Hx).
    apply Hfirst, Hscored in Hx as (_ & E & Hz). apply importance_score_skip. lia.
  - clear Cross. induction S1 as [|x l Hs IH Hf]; cbn [map]; [constructor|].
    constructor.
    + apply IH. intros y Hy. apply Hfirst. now right.
    + rewrite List.Forall_forall in *. intros b Hb.
      apply in_map_iff in Hb as (y & <- & Hy).
      pose proof (Hf y Hy) as Hxy. cbv beta in Hxy.
      destruct (proj1 (Hscored x) (Hfirst x (or_introl eq_refl))) as (_ & Ex & _).
      destruct (proj1 (Hscored y) (Hfirst y (or_intror Hy))) as (_ & Ey & _).
      lia.
  - intros a b Ha Hb Hz Hnot.
    apply in_map_iff in Ha as (x & <- & Hx).
    assert (Hb' : In (b, importance_score b) sorted).
    { apply Hsorted, Hscored. cbn [fst snd]. auto. }
    rewrite <- (firstn_skipn max_apps sorted) in Hb'.
    apply in_app_or in Hb' as [Hb'|Hb'].
    + exfalso. apply Hnot. apply in_map_iff. now exists (b, importance_score b).
    + pose proof (Cross x _ Hx Hb') as C. cbn [snd] in C.
      destruct (proj1 (Hscored x) (Hfirst x Hx)) as (_ & Ex & _). lia.
Qed.

(** ** More of the backup (backup/security.py, backup/config_backup.py) *)

Lemma truncate_secret_length v : (String.length (truncate_secret v) <= 15)%nat.
Proof.
  unfold truncate_secret, truncate_secret_len.
  destruct (String.length v <=? 20)%nat.
  - destruct (8 <? String.length v)%nat.
    + rewrite string_length_app, string_length_take. cbn [String.length].
      destruct (Nat.min_spec 4 (String.length v)) as [[? ->]|[? ->]]; lia.
    + cbn. lia.
  - rewrite !string_length_app, string_length_take, string_length_take_last.
    cbn [String.length].
    destruct (Nat.min_spec 8 (String.length v)) as [[? ->]|[? ->]];
      destruct (Nat.min_spec 4 (String.length v)) as [[? ->]|[? ->]]; lia.
Qed.

Section Ledger.
Context {RE : RegexEngine}.

Lemma filter_fold_changes (filename : option string) (Q : Change -> Prop)
    (rules : list Rule) :
  (forall name pat repl text m, In (name, pat, repl) rules ->
                                Q (change_of name text filename m)) ->
  forall text acc,
    Forall Q acc -> Forall Q (snd (fold_left (filter_step filename) rules (text, acc))).
Proof.
  induction rules as [|[[name pat] repl] rules IH]; intros HQ text acc Hacc.
  - exact Hacc.
  - cbn [fold_left]. rewrite (filter_step_eq filename text acc name pat repl). apply IH.
    + intros n p r t m Hin. apply (HQ n p r). now right.
    + apply Forall_app. split; [exact Hacc|].
      apply List.Forall_forall. intros ch Hch.
      apply in_map_iff in Hch as (m & <- & _). apply (HQ name pat repl). now left.
Qed.

(** X19: every entry of the change ledger of [filter_content] holds at
    most 15 characters of the matched secret, a line number of at least
    1, the file name the call was given and the name of one of the rules;
    so the ledger never stores a secret of 16 characters or more in
    full. *)
Theorem filter_content_ledger (rules : list Rule) (content : string)
    (filename : option string) (ch : Change) :
  In ch (snd (filter_content rules content filename)) ->
  (String.length (c_original ch) <= 15)%nat /\
  (1 <= c_line ch)%nat /\
  c_filename ch = filename /\
  exists pat repl, In (c_pattern ch, pat, repl) rules.
Proof.
  intros Hin.
  assert (H : Forall (fun ch => (String.length (c_original ch) <= 15)%nat /\
                                (1 <= c_line ch)%nat /\
                                c_filename ch = filename /\
                                exists pat repl, In (c_pattern ch, pat, repl) rules)
                     (snd (filter_content rules content filename))).
  { apply filter_fold_changes; [|constructor].
    intros name pat repl text m Hr. unfold change_of. cbn.
    repeat split; [apply truncate_secret_length|lia|eauto]. }
  rewrite List.Forall_forall in H. exact (H ch Hin).
Qed.

End Ledger.

Lemma filter_content_ledger_witness :
  (String.length "sk-12345...90AB" <= 15)%nat /\
  (1 <= 1)%nat /\
  Some "zshrc" = Some "zshrc" /\
  exists pat repl, In ("openai_key", pat, repl) [openai_rule].
Proof.
  apply (@filter_content_ledger litrun_engine [openai_rule] sample_line (Some "zshrc")
           {| c_pattern := "openai_key"; c_original := "sk-12345...90AB";
              c_line := 1; c_filename := Some "zshrc" |}).
  vm_compute. left. reflexivity.
Defined.

Lemma set_mode_erase m z n : set_mode z (set_mode m n) = set_mode z n.
Proof. now destruct n. Qed.

(** X20: [normalize_permissions] changes permission bits only: whatever
    [chmod] calls fail, the tree holds the same entries afterwards, of
    the same kinds, and every file has the size and the content it had. *)
Theorem normalize_permissions_keeps_content (chmod_fails : string -> bool)
    (target : Path) (nodes : gmap string Node) (p : string) :
  set_mode 0 <$> (normalize_permissions chmod_fails target nodes !! p) =
  set_mode 0 <$> (nodes !! p).
Proof.
  destruct (nodes !! path_str target) as [[size text mode|mode|mode]|] eqn:T.
  - rewrite (normalize_file chmod_fails target nodes size text mode T).
    destruct (chmod_fails (path_str target)); [reflexivity|].
    destruct (decide (p = path_str target)) as [->|ne].
    + now rewrite lookup_insert_eq, T.
    + now rewrite lookup_insert_ne by congruence.
  - destruct (chmod_fails (path_str target)) eqn:F.
    + now rewrite (normalize_dir_refused chmod_fails target nodes mode T F).
    + rewrite (normalize_dir_lookup chmod_fails target nodes mode p T F).
      destruct (decide (p = path_str target)) as [->|ne].
      * now rewrite T.
      * destruct (nodes !! p) as [n|]; [|reflexivity]. cbn. f_equal.
        unfold walked. destruct (is_under target p && negb (chmod_fails p));
          [apply set_mode_erase|reflexivity].
  - unfold normalize_permissions. now rewrite T.
  - now rewrite (normalize_missing chmod_fails target nodes T).
Qed.

Lemma count_status_total (results : list ItemResult) :
  length results =
  (count_status Success results + count_status Partial results +
   count_status Skipped results + count_status Error results)%nat.
Proof.
  unfold count_status. induction results as [|r l IH]; [reflexivity|].
  cbn [List.filter length]. destruct (r_status r); cbn [status_eqb length]; lia.
Qed.

Section BatchLedger.
Context {RE : RegexEngine} {FN : Fnmatch}.
Variable env : Env.
Variable chmod_fails : string -> bool.
Variable config_patterns : PatternsFile.

Lemma dest_accepted_any_tree nodes nodes' base rel :
  safe_join (view_of env nodes) base rel = safe_join (view_of env nodes') base rel.
Proof. reflexivity. Qed.

Lemma backup_path_appends cb source rel fsec tier excl w :
  w_results (snd (backup_path env chmod_fails config_patterns cb source rel fsec tier
                    excl w)) =
  if dest_accepted (view_of env (w_nodes w)) (output_dir cb) rel
  then w_results w ++ [fst (backup_path env chmod_fails config_patterns cb source rel
                              fsec tier excl w)]
  else w_results w.
Proof.
  unfold backup_path, dest_accepted.
  destruct (safe_join (view_of env (w_nodes w)) (output_dir cb) rel) as [e|dest] eqn:E;
    destruct (v_is_dir (view_of env (w_nodes w)) source).
  - now rewrite (backup_directory_rejected env chmod_fails config_patterns cb
                   source rel fsec tier excl w e E).
  - now rewrite (backup_file_rejected env chmod_fails config_patterns cb
                   source rel fsec tier excl w e E).
  - exact (backup_directory_appends env chmod_fails config_patterns cb
             source rel fsec tier excl w dest E).
  - exact (backup_file_appends env chmod_fails config_patterns cb
             source rel fsec tier excl w dest E).
Qed.

(** X21: the summary of [backup_all_configs] adds up.  Its total is the
    number of results, which is the number of (source, destination) pairs
    whose destination [safe_join] accepts, a rejected pair leaving no
    result; and the four status counts partition the total. *)
Theorem backup_all_configs_ledger (security : SecurityPatterns)
    (compiled_patterns : list Rule) (configs : list (Path * string))
    (out_dir : Path) (include_secrets : bool) (nodes nodes' : gmap string Node)
    (summary : Summary) (results : list ItemResult) :
  backup_all_configs env chmod_fails config_patterns security compiled_patterns
    configs out_dir include_secrets nodes = inr (summary, results, nodes') ->
  total_operations summary = length results /\
  length results =
    length (List.filter (fun c => dest_accepted (view_of env nodes) out_dir (snd c))
                        configs) /\
  total_operations summary =
    (s_success summary + s_partial summary + s_skipped summary + s_errors summary)%nat.
Proof.
  unfold backup_all_configs.
  set (backup := {| output_dir := out_dir; include_secrets := include_secrets;
                    normalize := true; security := security;
                    compiled_patterns := compiled_patterns |}).
  destruct (ConfigBackup_init env backup nodes) as [msg|w0] eqn:I; [discriminate|].
  assert (H0 : w_results w0 = []).
  { unfold ConfigBackup_init in I.
    destruct (mkdir_p env _ nodes) as [[m|u] n1]; [discriminate|].
    now injection I as <-. }
  intros [= <- <- <-].
  assert (G : forall configs w,
             length (w_results
                       (fold_left (fun w '(source, dest) =>
                                     snd (backup_path env chmod_fails config_patterns
                                            backup source dest None "unknown" None w))
                                  configs w)) =
             (length (w_results w) +
              length (List.filter
                        (fun c => dest_accepted (view_of env nodes) out_dir (snd c))
                        configs))%nat).
  { clear. induction configs as [|[source dest] configs IH]; intros w.
    - cbn. lia.
    - cbn [fold_left List.filter snd]. rewrite IH, backup_path_appends.
      change (dest_accepted (view_of env (w_nodes w))
                (output_dir backup) dest)
        with (dest_accepted (view_of env nodes) out_dir dest).
      destruct (dest_accepted (view_of env nodes) out_dir dest);
        [rewrite length_app|]; cbn [length]; lia. }
  cbn [get_summary total_operations s_success s_partial s_skipped s_errors].
  split; [reflexivity|]. split.
  - rewrite G, H0. reflexivity.
  - apply count_status_total.
Qed.

End BatchLedger.

Lemma backup_all_configs_ledger_witness :
  exists (summary : Summary) (results : list ItemResult),
    total_operations summary = length results /\
    length results = 1%nat /\
    total_operations summary =
      (s_success summary + s_partial summary + s_skipped summary + s_errors summary)%nat.
Proof.
  destruct (@backup_all_configs litrun_engine glob_fnmatch example_env no_chmod_faults
              PFMissing example_patterns [openai_rule]
              [(parse_path "/home/u/.zshrc", "shell/zshrc");
               (parse_path "/home/u/.zshrc", "../escape")]
              (parse_path "/backup") false example_nodes)
    as [msg|[[summary results] nodes']] eqn:E; [vm_compute in E; discriminate|].
  exists summary, results.
  exact (@backup_all_configs_ledger litrun_engine glob_fnmatch example_env
           no_chmod_faults PFMissing example_patterns [openai_rule] _ _ _ _ _ _ _ E).
Defined.

(** ** The write path of [backup_file] *)

Section WritePath.
Variable env : Env.

Lemma mkdir_prefixes_keeps anch done todo nodes :
  forall k n, nodes !! k = Some n ->
              snd (mkdir_prefixes env anch done todo nodes) !! k = Some n.
Proof.
  revert done nodes. induction todo as [|x rest IH]; intros done nodes k n Hk.
  - exact Hk.
  - cbn [mkdir_prefixes].
    set (q := {| anchored := anch; parts := done ++ [x] |}).
    destruct (nodes !! path_str q) as [[s t m|m|m]|] eqn:Q; try exact Hk.
    + now apply IH.
    + destruct (e_write_fails env (path_str q)); [exact Hk|].
      apply IH. rewrite lookup_insert_ne; [exact Hk|]. congruence.
Qed.

Lemma mkdir_prefixes_new anch done todo nodes k :
  snd (mkdir_prefixes env anch done todo nodes) !! k = nodes !! k \/
  (nodes !! k = None /\
   snd (mkdir_prefixes env anch done todo nodes) !! k = Some (NDir NEW_DIR_MODE)).
Proof.
  revert done nodes. induction todo as [|x rest IH]; intros done nodes.
  - now left.
  - cbn [mkdir_prefixes].
    set (q := {| anchored := anch; parts := done ++ [x] |}).
    destruct (nodes !! path_str q) as [[s t m|m|m]|] eqn:Q; try (now left).
    + apply IH.
    + destruct (e_write_fails env (path_str q)); [now left|].
      destruct (decide (k = path_str q)) as [->|ne].
      * right. split; [exact Q|]. apply mkdir_prefixes_keeps.
        apply lookup_insert_eq.
      * destruct (IH (done ++ [x]) (<[path_str q:=NDir NEW_DIR_MODE]> nodes))
          as [E|[E1 E2]].
        -- left. rewrite E. now apply lookup_insert_ne.
        -- right. split; [|exact E2]. rewrite lookup_insert_ne in E1; congruence.
Qed.

Lemma mkdir_prefixes_made anch done todo nodes :
  todo <> [] ->
  fst (mkdir_prefixes env anch done todo nodes) = inr tt ->
  exists m, snd (mkdir_prefixes env anch done todo nodes)
              !! path_str {| anchored := anch; parts := done ++ todo |} = Some (NDir m).
Proof.
  revert done nodes. induction todo as [|x rest IH]; intros done nodes Hne; [congruence|].
  cbn [mkdir_prefixes].
  set (q := {| anchored := anch; parts := done ++ [x] |}).
  assert (Hrest : forall nodes1 m,
             nodes1 !! path_str q = Some (NDir m) ->
             fst (mkdir_prefixes env anch (done ++ [x]) rest nodes1) = inr tt ->
             exists m', snd (mkdir_prefixes env anch (done ++ [x]) rest nodes1)
                          !! path_str {| anchored := anch; parts := done ++ x :: rest |}
                        = Some (NDir m')).
  { intros nodes1 m Hq Hok. destruct rest as [|y rest'].
    - exists m. exact Hq.
    - destruct (IH (done ++ [x]) nodes1 ltac:(discriminate) Hok) as [m' Hm'].
      exists m'. now rewrite <- app_assoc in Hm'. }
  destruct (nodes !! path_str q) as [[s t m|m|m]|] eqn:Q; try discriminate.
  - now apply Hrest with m.
  - destruct (e_write_fails env (path_str q)); [discriminate|].
    apply Hrest with NEW_DIR_MODE. apply lookup_insert_eq.
Qed.

(** [mkdir(parents=True, exist_ok=True)] never removes or changes an
    entry: whatever it returns, every entry that existed is still there
    unchanged, every entry it added is a new directory, and when it
    succeeds on a path with at least one component that path is a
    directory afterwards. *)
Lemma mkdir_p_only_adds_directories (p : Path) (nodes : gmap string Node) :
  (forall k n, nodes !! k = Some n -> snd (mkdir_p env p nodes) !! k = Some n) /\
  (forall k, snd (mkdir_p env p nodes) !! k <> nodes !! k ->
             nodes !! k = None /\
             snd (mkdir_p env p nodes) !! k = Some (NDir NEW_DIR_MODE)) /\
  (fst (mkdir_p env p nodes) = inr tt -> parts p <> [] ->
   exists m, snd (mkdir_p env p nodes) !! path_str p = Some (NDir m)).
Proof.
  unfold mkdir_p. repeat split.
  - apply mkdir_prefixes_keeps.
  - destruct (mkdir_prefixes_new (anchored p) [] (parts p) nodes k) as [E|[E _]];
      [congruence|exact E].
  - destruct (mkdir_prefixes_new (anchored p) [] (parts p) nodes k) as [E|[_ E]];
      [congruence|exact E].
  - intros Hok Hne.
    destruct (mkdir_prefixes_made (anchored p) [] (parts p) nodes Hne Hok) as [m Hm].
    exists m. now destruct p.
Qed.

Lemma put_file_lookup p size text mode nodes nodes' :
  put_file env p size text mode nodes = (inr tt, nodes') ->
  exists m, nodes' !! path_str p = Some (NFile size text m).
Proof.
  unfold put_file. destruct (negb (parent_is_dir nodes p)); [discriminate|].
  destruct (nodes !! path_str p) as [[s t m|m|m]|]; try discriminate;
    destruct (e_write_fails env (path_str p)); try discriminate;
    intros [= <-]; eexists; apply lookup_insert_eq.
Qed.

Lemma can_backup_same_node {FN : Fnmatch} pats source nodes nodes' :
  nodes' !! path_str source = nodes !! path_str source ->
  can_backup (view_of env nodes') pats source = can_backup (view_of env nodes) pats source.
Proof.
  intros H.
  unfold can_backup, is_pure_config, should_exclude_file, is_path_in_excluded_directory,
    view_of.
  cbn [v_exists v_is_file v_is_dir v_size v_resolve]. now rewrite H.
Qed.

Lemma is_binary_plist_same_node source nodes nodes' :
  nodes' !! path_str source = nodes !! path_str source ->
  is_binary_plist env nodes' source = is_binary_plist env nodes source.
Proof. intros H. unfold is_binary_plist. now rewrite H. Qed.

End WritePath.

Section BackupOutcomes.
Context {RE : RegexEngine} {FN : Fnmatch}.
Variable env : Env.
Variable chmod_fails : string -> bool.
Variable config_patterns : PatternsFile.
Variable cb : ConfigBackup.

Lemma plist_backup_status source dest n1 pl n2 :
  is_binary_plist env n1 source = true ->
  backup_plist_as_xml env source dest n1 = (inr pl, n2) ->
  pl_status pl = Success \/
  (pl_status pl = Error /\ exists m, pl_message pl = Some m).
Proof.
  intros Hb. unfold backup_plist_as_xml.
  assert (Hex : v_exists (view_of env n1) source = true).
  { unfold is_binary_plist in Hb. cbn [view_of v_exists].
    destruct (n1 !! path_str source); [|discriminate].
    apply bool_decide_eq_true. eauto. }
  rewrite Hex, Hb. cbn [negb].
  destruct (convert_to_xml env source dest n1) as [[msg|[[] message]] n]; [discriminate| |].
  - intros [= <- _]. now left.
  - intros [= <- _]. right. split; [reflexivity|]. now exists message.
Qed.

Lemma process_file_status source dest nodes status changes errors nodes' :
  process_file env cb source dest nodes = ((status, changes, errors), nodes') ->
  status <> Partial /\ (status = Error -> errors <> []).
Proof.
  unfold process_file.
  destruct (can_backup (view_of env nodes) (security cb) source) as [ok reason].
  destruct ok; cbn [negb].
  - destruct (read_text env source nodes) as [[msg|content] n1].
    + intros [= <- _ <- _]. split; discriminate.
    + destruct (filter_content _ content _) as [fc ch].
      destruct (fs_bind _ _ n1) as [[msg|u] n2]; intros [= <- _ <- _];
        split; discriminate.
  - intros [= <- _ <- _]. split; discriminate.
Qed.

Lemma copy_file_safe_status src dst nrm nodes status error nodes' :
  copy_file_safe env chmod_fails src dst nrm nodes = ((status, error), nodes') ->
  status = Success \/ status = Error.
Proof.
  unfold copy_file_safe. destruct (fs_bind _ _ nodes) as [[msg|u] n1];
    intros [= <- _ _]; auto.
Qed.

(** What the [try] block of [backup_file] leaves in the result *)
Lemma backup_file_body_outcomes source dest sf result nodes r raised nodes' :
  r_status result = Success -> r_errors result = [] -> r_reason result = None ->
  backup_file_body env chmod_fails cb source dest sf result nodes = (r, raised, nodes') ->
  (r_status r = Success /\ r_errors r = [] /\ r_reason r = None) \/
  (r_status r = Error /\ raised = None /\
   (r_errors r <> [] \/ exists m, r_reason r = Some (PlistReason m))).
Proof.
  intros Hs He Hr. unfold backup_file_body.
  destruct (mkdir_p env (parent dest) nodes) as [[msg|u] n1].
  { intros [= <- _ _]. now left. }
  destruct (negb (v_is_file (view_of env n1) source)).
  { intros [= <- _ _]. now left. }
  destruct (String.eqb (lower (suffix source)) ".plist" && is_binary_plist env n1 source)
    eqn:Hp.
  - apply andb_true_iff in Hp as [_ Hb].
    destruct (backup_plist_as_xml env source dest n1) as [[msg|pl] n2] eqn:Hpl.
    { intros [= <- _ _]. now left. }
    destruct (plist_backup_status _ _ _ _ _ Hb Hpl) as [Hok|[Herr [m Hm]]].
    + rewrite Hok. cbn [status_eqb negb].
      destruct sf.
      * destruct (read_text env dest n2) as [[msg|content] n3].
        { intros [= <- _ _]. now left. }
        destruct (filter_content _ content _) as [fc ch].
        destruct (write_text env dest fc n3) as [[msg|u'] n4]; intros [= <- _ _]; now left.
      * intros [= <- _ _]. now left.
    + rewrite Herr, Hm. cbn [status_eqb negb]. intros [= <- <- _]. right.
      cbn. repeat split. right. now exists m.
  - destruct sf.
    + destruct (process_file env cb source dest n1) as [[[status changes] errors] n2] eqn:P.
      destruct (process_file_status _ _ _ _ _ _ _ P) as [_ Herrs].
      destruct (status_eqb status Error) eqn:S.
      * intros [= <- <- _]. right. cbn. repeat split. left.
        destruct status; try discriminate.
        destruct errors; [now specialize (Herrs eq_refl)|discriminate].
      * intros [= <- _ _]. now left.
    + destruct (copy_file_safe env chmod_fails source dest (normalize cb) n1)
        as [[status error] n2] eqn:C.
      destruct (copy_file_safe_status _ _ _ _ _ _ _ C) as [->| ->]; cbn [status_eqb negb].
      * intros [= <- _ _]. now left.
      * intros [= <- <- _]. right. cbn. repeat split. left.
        rewrite He. discriminate.
Qed.

Lemma backup_file_shape source rel fsec tier excl w :
  let out := backup_file env chmod_fails config_patterns cb source rel fsec tier excl w in
  (r_status (fst out) = Skipped /\ w_nodes (snd out) = w_nodes w /\
   r_reason (fst out) <> None /\ r_errors (fst out) = []) \/
  (r_status (fst out) = Error /\
   (r_errors (fst out) <> [] \/ exists m, r_reason (fst out) = Some (PlistReason m))) \/
  (r_status (fst out) = Success /\ r_errors (fst out) = [] /\ r_reason (fst out) = None).
Proof.
  cbv zeta. unfold backup_file.
  destruct (safe_join _ (output_dir cb) rel) as [e|dest].
  { right. left. cbn. split; [reflexivity|]. left. discriminate. }
  destruct (negb (v_exists _ source)).
  { left. cbn. repeat split. discriminate. }
  match goal with
  | |- context [match ?t with Some _ => _ | None => _ end] => destruct t
  end.
  { left. cbn. repeat split. discriminate. }
  destruct (can_backup _ (security cb) source) as [can reason].
  destruct can; cbn [negb]; [|left; cbn; repeat split; discriminate].
  destruct (backup_file_body env chmod_fails cb source dest (should_filter_of cb fsec)
              (initial_result source dest rel tier) (w_nodes w))
    as [[r raised] nodes] eqn:B.
  destruct (backup_file_body_outcomes source dest _ (initial_result source dest rel tier)
              _ _ _ _ eq_refl eq_refl eq_refl B)
    as [(S & E & R)|(S & -> & D)].
  - destruct raised as [msg|].
    + right. left. cbn. split; [reflexivity|]. left.
      destruct (r_errors r); discriminate.
    + right. right. cbn. auto.
  - right. left. cbn. auto.
Qed.

(** X22: the outcomes of [backup_file].  The returned status is never
    [partial].  A skipped file has a reason, no error, and the filesystem
    is exactly as it was; a failed one has a non-empty error list or the
    reason of a failed plist conversion; a successful one has neither an
    error nor a reason. *)
Theorem backup_file_outcomes source rel fsec tier excl w :
  let out := backup_file env chmod_fails config_patterns cb source rel fsec tier excl w in
  r_status (fst out) <> Partial /\
  (r_status (fst out) = Skipped ->
   w_nodes (snd out) = w_nodes w /\ r_reason (fst out) <> None /\
   r_errors (fst out) = []) /\
  (r_status (fst out) = Error ->
   r_errors (fst out) <> [] \/ exists m, r_reason (fst out) = Some (PlistReason m)) /\
  (r_status (fst out) = Success ->
   r_errors (fst out) = [] /\ r_reason (fst out) = None).
Proof.
  intros out.
  destruct (backup_file_shape source rel fsec tier excl w)
    as [(S & N & R & E)|[(S & D)|(S & E & R)]]; fold out in S |- *; rewrite S;
    repeat split; try discriminate; auto.
Qed.

End BackupOutcomes.

Section Redaction.
Context {RE : RegexEngine} {FN : Fnmatch}.
Variable env : Env.
Variable chmod_fails : string -> bool.
Variable config_patterns : PatternsFile.
Variable cb : ConfigBackup.

Lemma process_file_redacts source dest n1 size text mode status changes errors n2 :
  n1 !! path_str source = Some (NFile size text mode) ->
  fst (can_backup (view_of env n1) (security cb) source) = true ->
  process_file env cb source dest n1 = ((status, changes, errors), n2) ->
  status = Error \/
  (status = Success /\
   changes = snd (filter_content (compiled_patterns cb) text (Some (path_str source))) /\
   exists m,
     n2 !! path_str dest =
     Some (NFile (Z.of_nat (String.length
                    (fst (filter_content (compiled_patterns cb) text
                            (Some (path_str source))))))
                 (fst (filter_content (compiled_patterns cb) text
                         (Some (path_str source)))) m)).
Proof.
  intros Hsrc Hcan. unfold process_file.
  destruct (can_backup (view_of env n1) (security cb) source) as [ok reason].
  cbn [fst] in Hcan. subst ok. cbn [negb].
  unfold read_text. rewrite Hsrc.
  destruct (e_read_fails env (path_str source)).
  { intros [= <- _ _ _]. now left. }
  destruct (filter_content (compiled_patterns cb) text (Some (path_str source)))
    as [fc ch].
  unfold fs_bind.
  destruct (mkdir_p env (parent dest) n1) as [[msg|u] n1'].
  { intros [= <- _ _ _]. now left. }
  destruct (write_text env dest fc n1') as [[msg|[]] n2'] eqn:W.
  { intros [= <- _ _ _]. now left. }
  intros [= <- <- _ <-]. right. split; [reflexivity|]. split; [reflexivity|].
  unfold write_text in W. exact (put_file_lookup env _ _ _ _ _ _ W).
Qed.

Lemma normalize_keeps_file target nodes size text mode :
  nodes !! path_str target = Some (NFile size text mode) ->
  exists m, normalize_permissions chmod_fails target nodes !! path_str target =
            Some (NFile size text m).
Proof.
  intros H. rewrite (normalize_file chmod_fails target nodes size text mode H).
  destruct (chmod_fails (path_str target)).
  - now exists mode.
  - exists FILE_MODE. apply lookup_insert_eq.
Qed.

Lemma backup_file_redacts_pair source rel fsec tier excl w size text mode r w' :
  w_nodes w !! path_str source = Some (NFile size text mode) ->
  should_filter_of cb fsec = true ->
  String.eqb (lower (suffix source)) ".plist"
    && is_binary_plist env (w_nodes w) source = false ->
  backup_file env chmod_fails config_patterns cb source rel fsec tier excl w = (r, w') ->
  r_status r = Success ->
  exists dest m,
    safe_join (view_of env (w_nodes w)) (output_dir cb) rel = inr dest /\
    w_nodes w' !! path_str dest =
      Some (NFile (Z.of_nat (String.length
                     (fst (filter_content (compiled_patterns cb) text
                             (Some (path_str source))))))
                  (fst (filter_content (compiled_patterns cb) text
                          (Some (path_str source)))) m) /\
    r_changes r =
      snd (filter_content (compiled_patterns cb) text (Some (path_str source))) /\
    r_filtered r = true.
Proof.
  intros Hsrc Hsf Hnp. unfold backup_file.
  destruct (safe_join _ (output_dir cb) rel) as [e|dest].
  { intros [= <- _]. discriminate. }
  destruct (negb (v_exists _ source)).
  { intros [= <- _]. discriminate. }
  match goal with
  | |- context [match ?t with Some _ => _ | None => _ end] => destruct t
  end.
  { intros [= <- _]. discriminate. }
  destruct (can_backup _ (security cb) source) as [can reason] eqn:Hcan.
  destruct can; cbn [negb]; [|intros [= <- _]; discriminate].
  rewrite Hsf. unfold backup_file_body.
  destruct (mkdir_p env (parent dest) (w_nodes w)) as [[msg|u] n1] eqn:M.
  { intros [= <- _]. discriminate. }
  assert (Hsrc1 : n1 !! path_str source = Some (NFile size text mode)).
  { pose proof (mkdir_prefixes_keeps env (anchored (parent dest)) [] (parts (parent dest))
                  (w_nodes w) _ _ Hsrc) as K.
    unfold mkdir_p in M. now rewrite M in K. }
  assert (Hfile : v_is_file (view_of env n1) source = true).
  { cbn [view_of v_is_file]. now rewrite Hsrc1. }
  rewrite Hfile. cbn [negb].
  rewrite (is_binary_plist_same_node env source (w_nodes w) n1) by congruence.
  rewrite Hnp.
  destruct (process_file env cb source dest n1) as [[[status changes] errors] n2] eqn:P.
  assert (Hcan1 : fst (can_backup (view_of env n1) (security cb) source) = true).
  { rewrite (can_backup_same_node env (security cb) source (w_nodes w) n1) by congruence.
    now rewrite Hcan. }
  destruct (process_file_redacts _ _ _ _ _ _ _ _ _ _ Hsrc1 Hcan1 P)
    as [->|(-> & Hch & m & Hm)].
  { cbn [status_eqb]. intros [= <- _]. discriminate. }
  cbn [status_eqb]. intros [= <- <-] _.
  cbn [append_result snd w_nodes r_changes r_filtered with_filtered r_status
       initial_result status_eqb andb].
  rewrite andb_true_r.
  destruct (normalize cb).
  - destruct (normalize_keeps_file dest n2 _ _ m Hm) as [m' Hm'].
    exists dest, m'. repeat split; auto.
  - exists dest, m. repeat split; auto.
Qed.

(** X23: a successful filtered backup of a regular file stores the
    redacted text and nothing else.  When secrets are to be filtered and
    the source is not a binary plist, a [backup_file] call that returns
    [success] leaves at the validated destination a regular file whose
    content is exactly what [filter_content] makes of the source text,
    and the result reports exactly the changes of that filtering. *)
Theorem filtered_backup_redacts source rel fsec tier excl w size text mode :
  let out := backup_file env chmod_fails config_patterns cb source rel fsec tier excl w in
  let redacted := filter_content (compiled_patterns cb) text (Some (path_str source)) in
  w_nodes w !! path_str source = Some (NFile size text mode) ->
  should_filter_of cb fsec = true ->
  String.eqb (lower (suffix source)) ".plist"
    && is_binary_plist env (w_nodes w) source = false ->
  r_status (fst out) = Success ->
  exists dest m,
    safe_join (view_of env (w_nodes w)) (output_dir cb) rel = inr dest /\
    w_nodes (snd out) !! path_str dest =
      Some (NFile (Z.of_nat (String.length (fst redacted))) (fst redacted) m) /\
    r_changes (fst out) = snd redacted /\
    r_filtered (fst out) = true.
Proof.
  intros out redacted Hsrc Hsf Hnp Hs. subst redacted.
  destruct out as [r w'] eqn:E. subst out.
  exact (backup_file_redacts_pair source rel fsec tier excl w size text mode r w'
           Hsrc Hsf Hnp E Hs).
Qed.

End Redaction.

Lemma filtered_backup_redacts_witness :
  exists dest m,
    safe_join (view_of example_env (w_nodes example_world)) (output_dir example_cb)
              "shell/zshrc" = inr dest /\
    w_nodes (snd (@backup_file litrun_engine glob_fnmatch example_env no_chmod_faults
                    PFMissing example_cb (parse_path "/home/u/.zshrc") "shell/zshrc"
                    None "hints" None example_world)) !! path_str dest =
      Some (NFile
              (Z.of_nat (String.length
                 (fst (@filter_content litrun_engine (compiled_patterns example_cb)
                         sample_line (Some (path_str (parse_path "/home/u/.zshrc")))))))
              (fst (@filter_content litrun_engine (compiled_patterns example_cb)
                      sample_line (Some (path_str (parse_path "/home/u/.zshrc"))))) m) /\
    r_changes (fst (@backup_file litrun_engine glob_fnmatch example_env no_chmod_faults
                      PFMissing example_cb (parse_path "/home/u/.zshrc") "shell/zshrc"
                      None "hints" None example_world)) =
      snd (@filter_content litrun_engine (compiled_patterns example_cb)
             sample_line (Some (path_str (parse_path "/home/u/.zshrc")))) /\
    r_filtered (fst (@backup_file litrun_engine glob_fnmatch example_env no_chmod_faults
                       PFMissing example_cb (parse_path "/home/u/.zshrc") "shell/zshrc"
                       None "hints" None example_world)) = true.
Proof.
  apply (@filtered_backup_redacts litrun_engine glob_fnmatch example_env no_chmod_faults
           PFMissing example_cb (parse_path "/home/u/.zshrc") "shell/zshrc"
           None "hints" None example_world
           (Z.of_nat (String.length sample_line)) sample_line NEW_FILE_MODE);
    vm_compute; reflexivity.
Defined.
